(** * quiz-from-docs: the quiz endpoint (POST /api/quiz) and the quiz page

    A shallow embedding of the request handler [POST] and of the text
    handling of the page component [QuizPage], with the properties the
    specification states about them.

    JavaScript strings are sequences of UTF-16 code units; [trim], [slice]
    and the regular expression of the handler all work on code units, so a
    string is a [list N] here.  String literals of the source are written as
    Rocq strings (UTF-8) and converted with [js]. *)

From Stdlib Require Import List NArith Arith Lia Bool String Ascii.
Import ListNotations.

Set Implicit Arguments.
Set Warnings "-register-all".

(* ================================================================== *)
(** ** Strings *)

Definition jsstring := list N.

Definition jsstring_eqb (a b : jsstring) : bool :=
  if list_eq_dec N.eq_dec a b then true else false.

(** UTF-8 bytes to UTF-16 code units; an incomplete sequence becomes U+FFFD. *)
Fixpoint utf16_of_utf8 (bs : list N) : jsstring :=
  match bs with
  | [] => []
  | b0 :: r0 =>
      if (b0 <? 128)%N then b0 :: utf16_of_utf8 r0
      else if (b0 <? 224)%N then
        match r0 with
        | b1 :: r1 => ((b0 - 192) * 64 + (b1 - 128))%N :: utf16_of_utf8 r1
        | [] => [65533%N]
        end
      else if (b0 <? 240)%N then
        match r0 with
        | b1 :: b2 :: r2 =>
            ((b0 - 224) * 4096 + (b1 - 128) * 64 + (b2 - 128))%N
              :: utf16_of_utf8 r2
        | _ => [65533%N]
        end
      else
        match r0 with
        | b1 :: b2 :: b3 :: r3 =>
            let cp := ((b0 - 240) * 262144 + (b1 - 128) * 4096
                       + (b2 - 128) * 64 + (b3 - 128))%N in
            let v := (cp - 65536)%N in
            (55296 + v / 1024)%N :: (56320 + v mod 1024)%N :: utf16_of_utf8 r3
        | _ => [65533%N]
        end
  end.

(** A source literal. *)
Definition js (s : string) : jsstring :=
  utf16_of_utf8 (List.map N_of_ascii (list_ascii_of_string s)).

(** A source literal that contains double quotes, written with apostrophes
    in their place. *)
Definition jsq (s : string) : jsstring :=
  List.map (fun c => if (c =? 39)%N then 34%N else c) (js s).

(** WhiteSpace and LineTerminator code points, the ones [trim] strips. *)
Definition is_whitespace (c : N) : bool :=
  ((9 <=? c) && (c <=? 13)            (* TAB LF VT FF CR *)
   || (c =? 32) || (c =? 160)         (* SP NBSP *)
   || (c =? 5760)                     (* U+1680 *)
   || (8192 <=? c) && (c <=? 8202)    (* U+2000 .. U+200A *)
   || (c =? 8232) || (c =? 8233)      (* LS PS *)
   || (c =? 8239) || (c =? 8287)      (* U+202F U+205F *)
   || (c =? 12288) || (c =? 65279))%N (* U+3000 BOM *).

Fixpoint trimStart (s : jsstring) : jsstring :=
  match s with
  | [] => []
  | c :: r => if is_whitespace c then trimStart r else s
  end.

Definition trimEnd (s : jsstring) : jsstring := rev (trimStart (rev s)).

(** [String.prototype.trim] *)
Definition trim (s : jsstring) : jsstring := trimEnd (trimStart s).

Definition ends_with_space (s : jsstring) : bool :=
  match rev s with
  | [] => false
  | c :: _ => is_whitespace c
  end.

Definition starts_with_space (s : jsstring) : bool :=
  match s with
  | [] => false
  | c :: _ => is_whitespace c
  end.

(** [s.slice(0, n)] for a non-negative [n] *)
Definition slice0 (n : nat) (s : jsstring) : jsstring := firstn n s.

(** [lines.join(sep)] *)
Fixpoint join (sep : jsstring) (lines : list jsstring) : jsstring :=
  match lines with
  | [] => []
  | [l] => l
  | l :: ls => l ++ sep ++ join sep ls
  end.

(* ================================================================== *)
(** ** JSON values and [JSON.parse] *)

(** A number is kept as its literal: the handler only ever asks a parsed
    value for its type, never for the numeric value. *)
Inductive value : Type :=
| JNull
| JBool (b : bool)
| JNumber (lexeme : jsstring)
| JString (s : jsstring)
| JArray (items : list value)
| JObject (props : list (jsstring * value)).

(** Exceptions the handler can meet; all end in the top-level [catch]. *)
Inductive exn : Type :=
| SyntaxError (text : jsstring)       (* JSON text that does not parse *)
| TypeError_destructure_null          (* const { text } = null *)
| TypeError_match_is_not_a_function   (* content.match on a non-string *)
| Rejected (reason : jsstring).       (* a rejected fetch or body read *)

Module JSON.

Inductive parsed (A : Type) : Type :=
| Ok (a : A) (rest : jsstring)
| Bad
| OutOfFuel.
Arguments Bad {A}.
Arguments OutOfFuel {A}.

Definition is_json_ws (c : N) : bool :=
  ((c =? 32) || (c =? 9) || (c =? 10) || (c =? 13))%N.

Fixpoint skip_ws (s : jsstring) : jsstring :=
  match s with
  | [] => []
  | c :: r => if is_json_ws c then skip_ws r else s
  end.

Definition is_digit (c : N) : bool := ((48 <=? c) && (c <=? 57))%N.

Definition hex_digit (c : N) : option N :=
  if is_digit c then Some (c - 48)%N
  else if ((97 <=? c) && (c <=? 102))%N then Some (c - 87)%N
  else if ((65 <=? c) && (c <=? 70))%N then Some (c - 55)%N
  else None.

Definition hex4 (a b c d : N) : option N :=
  match hex_digit a, hex_digit b, hex_digit c, hex_digit d with
  | Some x, Some y, Some z, Some w =>
      Some (x * 4096 + y * 256 + z * 16 + w)%N
  | _, _, _, _ => None
  end.

(** The character a single-letter escape stands for. *)
Definition escape (c : N) : option N :=
  if (c =? 34)%N then Some 34%N            (* \ quote *)
  else if (c =? 92)%N then Some 92%N       (* \\ *)
  else if (c =? 47)%N then Some 47%N       (* \/ *)
  else if (c =? 98)%N then Some 8%N        (* \b *)
  else if (c =? 102)%N then Some 12%N      (* \f *)
  else if (c =? 110)%N then Some 10%N      (* \n *)
  else if (c =? 114)%N then Some 13%N      (* \r *)
  else if (c =? 116)%N then Some 9%N       (* \t *)
  else None.

Definition push (c : N) (r : option (jsstring * jsstring)) :=
  match r with
  | Some (cs, rest) => Some (c :: cs, rest)
  | None => None
  end.

(** The characters of a string literal, after its opening quote. *)
Fixpoint string_chars (s : jsstring) : option (jsstring * jsstring) :=
  match s with
  | [] => None
  | c :: r =>
      if (c =? 34)%N then Some ([], r)
      else if (c =? 92)%N then
        match r with
        | [] => None
        | e :: r1 =>
            if (e =? 117)%N then
              match r1 with
              | h1 :: h2 :: h3 :: h4 :: r2 =>
                  match hex4 h1 h2 h3 h4 with
                  | Some u => push u (string_chars r2)
                  | None => None
                  end
              | _ => None
              end
            else
              match escape e with
              | Some u => push u (string_chars r1)
              | None => None
              end
        end
      else if (c <? 32)%N then None
      else push c (string_chars r)
  end.

Fixpoint digits (s : jsstring) : jsstring * jsstring :=
  match s with
  | [] => ([], [])
  | c :: r =>
      if is_digit c then let (ds, rest) := digits r in (c :: ds, rest)
      else ([], s)
  end.

(** An optional minus sign, then 0 or a digit string with no leading 0. *)
Definition number_int (s : jsstring) : option (jsstring * jsstring) :=
  let (sign, s1) :=
    match s with
    | c :: r => if (c =? 45)%N then ([c], r) else ([], s)
    | [] => ([], s)
    end in
  match s1 with
  | [] => None
  | d :: r =>
      if (d =? 48)%N then Some (sign ++ [d], r)
      else if is_digit d then
        let (ds, rest) := digits r in Some (sign ++ d :: ds, rest)
      else None
  end.

(** An optional fraction: a dot and at least one digit. *)
Definition number_frac (s : jsstring) : option (jsstring * jsstring) :=
  match s with
  | c :: r =>
      if (c =? 46)%N then
        match digits r with
        | ([], _) => None
        | (ds, rest) => Some (c :: ds, rest)
        end
      else Some ([], s)
  | [] => Some ([], s)
  end.

(** An optional exponent: e or E, an optional sign, at least one digit. *)
Definition number_exp (s : jsstring) : option (jsstring * jsstring) :=
  match s with
  | c :: r =>
      if ((c =? 101) || (c =? 69))%N then
        let (sign, r1) :=
          match r with
          | g :: r' =>
              if ((g =? 43) || (g =? 45))%N then ([g], r') else ([], r)
          | [] => ([], r)
          end in
        match digits r1 with
        | ([], _) => None
        | (ds, rest) => Some (c :: sign ++ ds, rest)
        end
      else Some ([], s)
  | [] => Some ([], s)
  end.

Definition number (s : jsstring) : option (jsstring * jsstring) :=
  match number_int s with
  | None => None
  | Some (i, r1) =>
      match number_frac r1 with
      | None => None
      | Some (f, r2) =>
          match number_exp r2 with
          | None => None
          | Some (e, r3) => Some (i ++ f ++ e, r3)
          end
      end
  end.

(** [strip_prefix p s] is what follows [p] in [s]. *)
Fixpoint strip_prefix (p s : jsstring) : option jsstring :=
  match p, s with
  | [], _ => Some s
  | a :: p', b :: s' => if (a =? b)%N then strip_prefix p' s' else None
  | _ :: _, [] => None
  end.

(** A repeated member name replaces the earlier value and keeps its place. *)
Fixpoint set_prop (k : jsstring) (v : value) (o : list (jsstring * value))
  : list (jsstring * value) :=
  match o with
  | [] => [(k, v)]
  | (k', v') :: o' =>
      if jsstring_eqb k k' then (k, v) :: o' else (k', v') :: set_prop k v o'
  end.

Definition make_object (members : list (jsstring * value)) : value :=
  JObject (fold_left (fun o kv => set_prop (fst kv) (snd kv) o) members []).

(** Recursive descent; [fuel] bounds the depth of the calls. *)
Fixpoint parse_value (fuel : nat) (s : jsstring) : parsed value :=
  match fuel with
  | O => OutOfFuel
  | S f =>
      match skip_ws s with
      | [] => Bad
      | c :: r =>
          if (c =? 123)%N then              (* { *)
            match skip_ws r with
            | d :: r' =>
                if (d =? 125)%N then Ok (JObject []) r'
                else
                  match parse_members f r with
                  | Ok ms rest => Ok (make_object ms) rest
                  | Bad => Bad
                  | OutOfFuel => OutOfFuel
                  end
            | [] => Bad
            end
          else if (c =? 91)%N then          (* [ *)
            match skip_ws r with
            | d :: r' =>
                if (d =? 93)%N then Ok (JArray []) r'
                else
                  match parse_elements f r with
                  | Ok vs rest => Ok (JArray vs) rest
                  | Bad => Bad
                  | OutOfFuel => OutOfFuel
                  end
            | [] => Bad
            end
          else if (c =? 34)%N then          (* string *)
            match string_chars r with
            | Some (str, rest) => Ok (JString str) rest
            | None => Bad
            end
          else if (c =? 116)%N then         (* true *)
            match strip_prefix (js "true") (c :: r) with
            | Some rest => Ok (JBool true) rest
            | None => Bad
            end
          else if (c =? 102)%N then         (* false *)
            match strip_prefix (js "false") (c :: r) with
            | Some rest => Ok (JBool false) rest
            | None => Bad
            end
          else if (c =? 110)%N then         (* null *)
            match strip_prefix (js "null") (c :: r) with
            | Some rest => Ok JNull rest
            | None => Bad
            end
          else
            match number (c :: r) with
            | Some (lexeme, rest) => Ok (JNumber lexeme) rest
            | None => Bad
            end
      end
  end

(** The elements of a non-empty array, up to its closing bracket. *)
with parse_elements (fuel : nat) (s : jsstring) : parsed (list value) :=
  match fuel with
  | O => OutOfFuel
  | S f =>
      match parse_value f s with
      | Ok v r =>
          match skip_ws r with
          | c :: r' =>
              if (c =? 44)%N then
                match parse_elements f r' with
                | Ok vs rest => Ok (v :: vs) rest
                | Bad => Bad
                | OutOfFuel => OutOfFuel
                end
              else if (c =? 93)%N then Ok [v] r'
              else Bad
          | [] => Bad
          end
      | Bad => Bad
      | OutOfFuel => OutOfFuel
      end
  end

(** The members of a non-empty object, up to its closing brace. *)
with parse_members (fuel : nat) (s : jsstring)
  : parsed (list (jsstring * value)) :=
  match fuel with
  | O => OutOfFuel
  | S f =>
      match skip_ws s with
      | q :: r =>
          if (q =? 34)%N then
            match string_chars r with
            | Some (k, r1) =>
                match skip_ws r1 with
                | c :: r2 =>
                    if (c =? 58)%N then
                      match parse_value f r2 with
                      | Ok v r3 =>
                          match skip_ws r3 with
                          | d :: r4 =>
                              if (d =? 44)%N then
                                match parse_members f r4 with
                                | Ok ms rest => Ok ((k, v) :: ms) rest
                                | Bad => Bad
                                | OutOfFuel => OutOfFuel
                                end
                              else if (d =? 125)%N then Ok [(k, v)] r4
                              else Bad
                          | [] => Bad
                          end
                      | Bad => Bad
                      | OutOfFuel => OutOfFuel
                      end
                    else Bad
                | [] => Bad
                end
            | None => Bad
            end
          else Bad
      | [] => Bad
      end
  end.

Definition fuel_for (s : jsstring) : nat := 2 * List.length s + 2.

(** [JSON.parse(text)]: one value, white space around it, nothing else. *)
Definition parse (text : jsstring) : exn + value :=
  match parse_value (fuel_for text) text with
  | Ok v rest =>
      match skip_ws rest with
      | [] => inr v
      | _ :: _ => inl (SyntaxError text)
      end
  | _ => inl (SyntaxError text)
  end.

End JSON.

(* ================================================================== *)
(** ** Property access on parsed values *)

Fixpoint lookup (k : jsstring) (o : list (jsstring * value)) : option value :=
  match o with
  | [] => None
  | (k', v) :: o' => if jsstring_eqb k k' then Some v else lookup k o'
  end.

(** [v.k] for a non-null [v] and one of the names the program reads
    (text, choices, message, content, tool_calls, function, arguments,
    question, answer, quizzes): none of them is inherited from a prototype,
    so only an object can have it.  [None] is [undefined]. *)
Definition prop (k : jsstring) (v : value) : option value :=
  match v with
  | JObject o => lookup k o
  | _ => None
  end.

(** [v[0]] for a non-null [v]. *)
Definition item0 (v : value) : option value :=
  match v with
  | JArray (x :: _) => Some x
  | JString (c :: _) => Some (JString [c])
  | JObject o => lookup (js "0") o
  | _ => None
  end.

(** [o?.k]: [undefined] when [o] is [null] or [undefined]. *)
Definition opt_chain (o : option value) (f : value -> option value)
  : option value :=
  match o with
  | None | Some JNull => None
  | Some v => f v
  end.

(** [a ?? b] *)
Definition nullish (a b : option value) : option value :=
  match a with
  | None | Some JNull => b
  | Some _ => a
  end.

(** [x && typeof x === 'object']: [typeof] is 'object' for [null], arrays
    and objects, and [null] is falsy. *)
Definition truthy_object (x : value) : bool :=
  match x with
  | JArray _ | JObject _ => true
  | _ => false
  end.

(** ['k' in x] for an [x] that passed [truthy_object]. *)
Definition has_prop (k : jsstring) (x : value) : bool :=
  match prop k x with
  | Some _ => true
  | None => false
  end.

(* ================================================================== *)
(** ** The regular expression of the fallback *)

(** What follows the first opening bracket. *)
Fixpoint after_first_open (s : jsstring) : option jsstring :=
  match s with
  | [] => None
  | c :: r => if (c =? 91)%N then Some r else after_first_open r
  end.

(** The prefix that ends with the last closing bracket. *)
Fixpoint through_last_close (s : jsstring) : option jsstring :=
  match s with
  | [] => None
  | c :: r =>
      match through_last_close r with
      | Some m => Some (c :: m)
      | None => if (c =? 93)%N then Some [c] else None
      end
  end.

(** [content.match(/\[[\s\S]*\]/)], as [match[0]]: the leftmost opening
    bracket that has a closing bracket after it, and, the star being greedy,
    everything up to the last closing bracket. *)
Definition match_bracketed (content : jsstring) : option jsstring :=
  match after_first_open content with
  | None => None
  | Some r =>
      match through_last_close r with
      | Some m => Some (91%N :: m)
      | None => None
      end
  end.

(* ================================================================== *)
(** ** Responses *)

Record QA : Type := mkQA { question : jsstring; answer : jsstring }.

(** The [details] of an error: a text, or the [message] of an exception
    (which the engine words). *)
Inductive details_text : Type :=
| Text (s : jsstring)
| MessageOf (e : exn).

Inductive payload : Type :=
| Quizzes (quizzes : list QA)
| Error (error : jsstring) (details : option details_text)
        (raw : option value).

Record response : Type := mkResponse { payload_of : payload; status : N }.

Module Response.
(** [Response.json(data, { status })] *)
Definition json (data : payload) (status : N) : response :=
  mkResponse data status.
End Response.

(* ================================================================== *)
(** ** The provider call *)

(** The argument of [fetch]; [body] is the object given to
    [JSON.stringify]. *)
Record fetch_init : Type := mkInit {
  url : jsstring;
  method : jsstring;
  Authorization : jsstring;
  Content_Type : jsstring;
  body : value
}.

(** What the handler reads of the provider's response; [body_text] is the
    result of reading the body, which [text()] returns and [json()]
    parses. *)
Record fetch_response : Type := mkFetched {
  ok : bool;
  statusText : jsstring;
  body_text : exn + jsstring
}.

(** The process environment and the network the handler runs in. *)
Record world : Type := mkWorld {
  NEXT_PUBLIC_OPENAI_API_KEY : option jsstring;
  OPENAI_API_KEY : option jsstring;
  fetch : fetch_init -> exn + fetch_response;
  (** the engine's text for the number a literal denotes *)
  number_to_string : jsstring -> jsstring
}.

(* ================================================================== *)
(** ** The handler's control flow: early return, throw, and the log of
       outbound calls *)

Inductive stage (A : Type) : Type :=
| Next (a : A)               (* go on with the next statement *)
| Return (r : response)      (* return r *)
| Throw (e : exn).           (* an exception, for the top-level catch *)
Arguments Return {A}.
Arguments Throw {A}.

Definition M (A : Type) : Type :=
  list fetch_init -> list fetch_init * stage A.

Definition lift {A} (s : stage A) : M A := fun calls => (calls, s).

Definition bind {A B} (m : M A) (k : A -> M B) : M B :=
  fun calls =>
    match m calls with
    | (calls', Next a) => k a calls'
    | (calls', Return r) => (calls', Return r)
    | (calls', Throw e) => (calls', Throw e)
    end.

Notation "x <- m ;; k" := (bind m (fun x => k))
  (at level 61, m at next level, right associativity).

(** [await fetch(url, init)] *)
Definition await_fetch (w : world) (init : fetch_init) : M fetch_response :=
  fun calls =>
    (calls ++ [init],
     match fetch w init with
     | inl e => Throw e
     | inr res => Next res
     end).

(* ================================================================== *)
(** ** POST /api/quiz *)

(** The responses the handler builds, each a [Response.json(data, init)]
    of the source with its literal message. *)
Definition success (quizzes : list QA) : response :=
  Response.json (Quizzes quizzes) 200.

Definition text_is_required : response :=
  Response.json (Error (js "text is required") None None) 400.

Definition text_must_not_be_empty : response :=
  Response.json (Error (js "text must not be empty") None None) 400.

Definition missing_api_key : response :=
  Response.json
    (Error (js "Missing OpenAI API key in environment (set NEXT_PUBLIC_OPENAI_API_KEY or OPENAI_API_KEY)")
           None None) 500.

Definition failed_to_parse (content : value) : response :=
  Response.json
    (Error (js "Failed to parse model output") None (Some content)) 500.

Definition no_quizzes_generated (content : value) : response :=
  Response.json (Error (js "No quizzes generated") None (Some content)) 500.

Definition openai_api_error (details : jsstring) : response :=
  Response.json (Error (js "OpenAI API error") (Some (Text details)) None) 500.

Definition unexpected_server_error (e : exn) : response :=
  Response.json
    (Error (js "Unexpected server error") (Some (MessageOf e)) None) 500.

Definition is_empty (s : jsstring) : bool :=
  match s with
  | [] => true
  | _ :: _ => false
  end.

(** [text.trim().slice(0, 1000)] *)
Definition trim_slice (text : jsstring) : jsstring :=
  slice0 1000 (trim text).

(** [const { text } = body]: [undefined] where [body] has no such property,
    a TypeError where [body] is [null]. *)
Definition destructure_text (body : value) : exn + option value :=
  match body with
  | JNull => inl TypeError_destructure_null
  | _ => inr (prop (js "text") body)
  end.

(** Lines 10 to 17.  In [!text || typeof text !== 'string'] every value that
    is not a string is caught by the second test, and the only falsy string
    is the empty one. *)
Definition check_text (text : option value) : stage jsstring :=
  match text with
  | Some (JString text) =>
      if is_empty text then
        Return text_is_required
      else
        let trimmed := trim_slice text in
        if is_empty trimmed then
          Return text_must_not_be_empty
        else Next trimmed
  | _ =>
      Return text_is_required
  end.

(** Lines 8 to 17.  [request] is the text of the request body, which
    [request.json()] parses. *)
Definition read_text (request : jsstring) : stage jsstring :=
  match JSON.parse request with
  | inl e => Throw e
  | inr body =>
      match destructure_text body with
      | inl e => Throw e
      | inr text => check_text text
      end
  end.

(** [a || b] on environment variables: an unset or empty one is falsy. *)
Definition env_or (a b : option jsstring) : option jsstring :=
  match a with
  | Some (_ :: _) => a
  | _ => b
  end.

(** Lines 19 to 25. *)
Definition read_key (w : world) : stage jsstring :=
  match env_or (NEXT_PUBLIC_OPENAI_API_KEY w) (OPENAI_API_KEY w) with
  | Some (c :: k) => Next (c :: k)
  | _ =>
      Return missing_api_key
  end.

Definition systemPrompt : jsstring :=
  js "あなたは与えられた本文だけを根拠として日本語のクイズを作成するアシスタントです。出力は必ずJSONのみで、説明文や前後のテキストは一切含めないでください。".

Definition example_line : jsstring :=
  jsq "    { 'question': '質問文', 'answer': '模範解答（簡潔に）' }".

Definition userPrompt (trimmed : jsstring) : jsstring :=
  join [10%N]
    [ js "次の本文から、内容に基づいた日本語のクイズを5問作成してください。";
      jsq "出力は次のJSONオブジェクト形式にしてください（配列は'quizzes'プロパティに入れる）:";
      [];
      js "{";
      jsq "  'quizzes': [";
      example_line ++ js ",";
      example_line ++ js ",";
      example_line ++ js ",";
      example_line ++ js ",";
      example_line;
      js "  ]";
      js "}";
      [];
      js "要件:";
      js "- 絶対に有効なJSONオブジェクトのみを出力（前後の説明やコードブロック禁止）";
      js "- 各question/answerは本文の情報に基づくこと";
      js "- 質問は簡潔に、答えも簡潔に";
      [];
      js "本文:";
      trimmed ].

(** Lines 54 to 69: the argument of the one outbound call. *)
Definition completion_request (apiKey trimmed : jsstring) : fetch_init :=
  {| url := js "https://api.openai.com/v1/chat/completions";
     method := js "POST";
     Authorization := js "Bearer " ++ apiKey;
     Content_Type := js "application/json";
     body :=
       JObject
         [ (js "model", JString (js "gpt-4o-mini"));
           (js "messages",
            JArray
              [ JObject [ (js "role", JString (js "system"));
                          (js "content", JString systemPrompt) ];
                JObject [ (js "role", JString (js "user"));
                          (js "content", JString (userPrompt trimmed)) ] ]);
           (js "temperature", JNumber (js "0.7"));
           (js "response_format",
            JObject [ (js "type", JString (js "json_object")) ]) ] |}.

(** [data?.choices?.[0]?.message] *)
Definition first_message (data : value) : option value :=
  opt_chain (opt_chain (opt_chain (Some data) (prop (js "choices"))) item0)
            (prop (js "message")).

(** Lines 82 to 85. *)
Definition content_of (data : value) : value :=
  match
    nullish
      (opt_chain (first_message data) (prop (js "content")))
      (nullish
         (opt_chain
            (opt_chain
               (opt_chain
                  (opt_chain (first_message data) (prop (js "tool_calls")))
                  item0)
               (prop (js "function")))
            (prop (js "arguments")))
         (Some (JString [])))
  with
  | Some v => v
  | None => JString []
  end.

(** Lines 71 to 85. *)
Definition read_content (res : fetch_response) : stage value :=
  if negb (ok res) then
    let errTxt := match body_text res with
                  | inr t => t
                  | inl _ => []
                  end in
    Return (openai_api_error (if is_empty errTxt then statusText res
                              else errTxt))
  else
    match body_text res with
    | inl e => Throw e
    | inr t =>
        match JSON.parse t with
        | inl e => Throw e
        | inr data => Next (content_of data)
        end
    end.

(** ToString on a parsed value.  The source declares [content] a string
    and the provider is free to send another kind of value; [JSON.parse]
    converts its argument with ToString.  Only the text of a number depends
    on the engine's arithmetic, and [number_text] stands for it. *)
Fixpoint ToString (number_text : jsstring -> jsstring) (v : value)
  : jsstring :=
  match v with
  | JNull => js "null"
  | JBool true => js "true"
  | JBool false => js "false"
  | JNumber lexeme => number_text lexeme
  | JString s => s
  | JArray items =>
      join (js ",")
           (List.map (fun x => match x with
                               | JNull => []
                               | _ => ToString number_text x
                               end) items)
  | JObject _ => js "[object Object]"
  end.

(** Lines 88 to 102.  [content.match] exists on a string only. *)
Definition parse_content (w : world) (content : value) : stage value :=
  match JSON.parse (ToString (number_to_string w) content) with
  | inr parsed => Next parsed
  | inl _ =>
      match content with
      | JString s =>
          match match_bracketed s with
          | Some m =>
              match JSON.parse m with
              | inr parsed => Next parsed
              | inl e => Throw e
              end
          | None => Return (failed_to_parse content)
          end
      | _ => Throw TypeError_match_is_not_a_function
      end
  end.

(** The callback given to [map], lines 110 to 119 and 128 to 137. *)
Definition toQA (x : value) : option QA :=
  if truthy_object x && has_prop (js "question") x && has_prop (js "answer") x
  then
    match prop (js "question") x, prop (js "answer") x with
    | Some (JString q), Some (JString a) =>
        Some {| question := q; answer := a |}
    | _, _ => None
    end
  else None.

(** [.filter(Boolean)] on the results of the callback *)
Fixpoint filterBoolean (l : list (option QA)) : list QA :=
  match l with
  | [] => []
  | Some qa :: l' => qa :: filterBoolean l'
  | None :: l' => filterBoolean l'
  end.

Definition candidates (l : list value) : list QA :=
  filterBoolean (List.map toQA l).

(** Lines 104 to 139. *)
Definition normalize (parsed : value) : list QA :=
  match parsed with
  | JArray l => candidates l
  | _ =>
      if truthy_object parsed && has_prop (js "quizzes") parsed then
        match prop (js "quizzes") parsed with
        | Some (JArray l) => candidates l
        | _ => []
        end
      else []
  end.

(** Lines 141 to 151. *)
Definition respond (content : value) (quizzes : list QA) : stage response :=
  match List.length quizzes with
  | O =>
      Return (no_quizzes_generated content)
  | S _ => Return (success (firstn 5 quizzes))
  end.

(** Lines 88 to 151: from the provider's content to the response. *)
Definition handle_content (w : world) (content : value) : stage response :=
  match parse_content w content with
  | Next parsed => respond content (normalize parsed)
  | Return r => Return r
  | Throw e => Throw e
  end.

(** The body of the [try]. *)
Definition POST_try (w : world) (request : jsstring) : M response :=
  trimmed <- lift (read_text request) ;;
  apiKey <- lift (read_key w) ;;
  openaiRes <- await_fetch w (completion_request apiKey trimmed) ;;
  content <- lift (read_content openaiRes) ;;
  lift (handle_content w content).

(** Lines 152 to 157: the top-level [catch]. *)
Definition settle (s : stage response) : response :=
  match s with
  | Next r | Return r => r
  | Throw e => unexpected_server_error e
  end.

(** The handler: the outbound calls it makes, in order, and its response. *)
Definition POST (w : world) (request : jsstring)
  : list fetch_init * response :=
  let (calls, s) := POST_try w request [] in (calls, settle s).

(* ================================================================== *)
(** ** The page: text handling of [QuizPage] *)

Module QuizPage.

Definition MAX_LEN : nat := 1000.

Record state : Type := mkState {
  text : jsstring;
  quizzes : list QA;
  loading : bool;
  error : option jsstring
}.

(** Line 82: the textarea's [onChange]. *)
Definition onChange (st : state) (v : jsstring) : state :=
  mkState (slice0 MAX_LEN v) (quizzes st) (loading st) (error st).

(** Lines 16 to 25; [file] is the chosen file, if any, and the result of
    reading it. *)
Definition handleFileChange (st : state) (file : option (exn + jsstring))
  : state :=
  match file with
  | None => st
  | Some (inr content) =>
      mkState (slice0 MAX_LEN content) (quizzes st) (loading st) (error st)
  | Some (inl _) =>
      mkState (text st) (quizzes st) (loading st)
              (Some (js "ファイルの読み込みに失敗しました。"))
  end.

(** Line 28. *)
Definition payload (st : state) : jsstring :=
  slice0 MAX_LEN (trim (text st)).

(** Lines 27 to 41: the state when the request leaves, and the object
    given to [JSON.stringify] as its body; no request for an empty
    payload. *)
Definition handleGenerate (st : state) : state * option value :=
  if is_empty (payload st) then
    (mkState (text st) (quizzes st) (loading st)
             (Some (js "テキストが空です。入力またはファイルをアップロードしてください。")),
     None)
  else
    (mkState (text st) [] true None,
     Some (JObject [ (js "text", JString (payload st)) ])).

(** The Clear button, line 103. *)
Definition clear (st : state) : state :=
  mkState [] [] (loading st) None.

End QuizPage.

(* ================================================================== *)
(** ** Vocabulary of the specification *)

(** The run passes validation with [trimmed], finds [apiKey], and the
    provider answers with a body whose extracted content is [content]. *)
Definition reaches_content (w : world) (request trimmed apiKey : jsstring)
           (content : value) : Prop :=
  read_text request = Next trimmed /\
  read_key w = Next apiKey /\
  exists res,
    fetch w (completion_request apiKey trimmed) = inr res /\
    read_content res = Next content.

Definition provider_content (w : world) (request : jsstring) (content : value)
  : Prop :=
  exists trimmed apiKey, reaches_content w request trimmed apiKey content.

(** An environment variable yields a key when it is set and not empty. *)
Definition yields_key (v : option jsstring) : Prop :=
  exists c k, v = Some (c :: k).

(** Neither environment variable yields a key. *)
Definition no_key (w : world) : Prop :=
  ~ yields_key (NEXT_PUBLIC_OPENAI_API_KEY w) /\
  ~ yields_key (OPENAI_API_KEY w).

(** The shape check in the specification's words: an object that has both
    [question] and [answer], with the strings [q] and [a] as values. *)
Definition shaped (x : value) (q a : jsstring) : Prop :=
  exists o,
    x = JObject o /\
    lookup (js "question") o = Some (JString q) /\
    lookup (js "answer") o = Some (JString a).

(** Shape filtering in the specification's words: well-shaped elements are
    kept, in order; the others are dropped. *)
Inductive shape_filtered : list value -> list QA -> Prop :=
| sf_nil : shape_filtered [] []
| sf_keep x q a l r :
    shaped x q a -> shape_filtered l r ->
    shape_filtered (x :: l) (mkQA q a :: r)
| sf_drop x l r :
    (forall q a, ~ shaped x q a) -> shape_filtered l r ->
    shape_filtered (x :: l) r.

(** The candidate list of a parsed value: the value itself when it is an
    array, its [quizzes] property when that is an array. *)
Definition candidate_array (parsed : value) : list value :=
  match parsed with
  | JArray l => l
  | JObject o =>
      match lookup (js "quizzes") o with
      | Some (JArray l) => l
      | _ => []
      end
  | _ => []
  end.

Definition nonempty_qa (qa : QA) : Prop :=
  question qa <> [] /\ answer qa <> [].

(** What [handle_content] can end in. *)
Inductive content_result (w : world) (content : value)
  : stage response -> Prop :=
| cr_unparsed s :
    content = JString s ->
    (forall v, JSON.parse s <> inr v) ->
    match_bracketed s = None ->
    content_result w content (Return (failed_to_parse content))
| cr_threw e :
    parse_content w content = Throw e ->
    content_result w content (Throw e)
| cr_none parsed :
    parse_content w content = Next parsed ->
    normalize parsed = [] ->
    content_result w content (Return (no_quizzes_generated content))
| cr_some parsed :
    parse_content w content = Next parsed ->
    normalize parsed <> [] ->
    content_result w content
                   (Return (success (firstn 5 (normalize parsed)))).

(** Every response of the handler, sorted by where it comes from. *)
Inductive responded (w : world) (request : jsstring) : response -> Prop :=
| from_validation r :
    read_text request = Return r -> responded w request r
| from_key trimmed :
    read_text request = Next trimmed -> read_key w = Return missing_api_key ->
    responded w request missing_api_key
| from_provider_status r :
    status r = 500%N -> (forall qs, payload_of r <> Quizzes qs) ->
    (exists trimmed, read_text request = Next trimmed) ->
    responded w request r
| from_catch e :
    responded w request (unexpected_server_error e)
| from_content content r :
    provider_content w request content ->
    content_result w content (Return r) ->
    responded w request r.

(* ================================================================== *)
(** ** Concrete runs *)

Module Scenario.

(** Backslash before each quote and backslash: enough to embed a printable
    text in a JSON string literal. *)
Fixpoint escaped (s : jsstring) : jsstring :=
  match s with
  | [] => []
  | c :: r =>
      if ((c =? 34) || (c =? 92))%N then 92%N :: c :: escaped r
      else c :: escaped r
  end.

(** The body of a chat completion whose first message has [content]. *)
Definition completion (content : jsstring) : jsstring :=
  jsq "{'choices':[{'message':{'role':'assistant','content':'"
    ++ escaped content ++ jsq "'}}]}".

(** A configured key, and a provider that answers 200 with [content].  The
    content being a string, [number_to_string] is never asked; it echoes the
    literal. *)
Definition provider_says (content : jsstring) : world :=
  {| NEXT_PUBLIC_OPENAI_API_KEY := None;
     OPENAI_API_KEY := Some (js "sk-test");
     fetch := fun _ =>
       inr {| ok := true; statusText := js "OK";
              body_text := inr (completion content) |};
     number_to_string := fun lexeme => lexeme |}.

(** No key in the environment; the provider would answer if asked. *)
Definition no_key_world : world :=
  {| NEXT_PUBLIC_OPENAI_API_KEY := None;
     OPENAI_API_KEY := None;
     fetch := fetch (provider_says (jsq "{'quizzes':[]}"));
     number_to_string := fun lexeme => lexeme |}.

Definition request_hello : jsstring := jsq "{'text':'  Hello, world.  '}".
Definition request_empty_text : jsstring := jsq "{ 'text' : '' }".
Definition request_blank_text : jsstring := jsq "{'text':'   '}".
Definition request_no_text : jsstring := jsq "{}".
Definition request_null : jsstring := js "null".

Definition five_quizzes : jsstring :=
  jsq "{'quizzes':[{'question':'Q1','answer':'A1'},{'question':'Q2','answer':'A2'},{'question':'Q3','answer':'A3'},{'question':'Q4','answer':'A4'},{'question':'Q5','answer':'A5'}]}".

Definition six_quizzes : jsstring :=
  jsq "[{'question':'Q1','answer':'A1'},{'question':'Q2','answer':'A2'},{'question':'Q3','answer':'A3'},{'question':'Q4','answer':'A4'},{'question':'Q5','answer':'A5'},{'question':'Q6','answer':'A6'}]".

(** What [JSON.parse] makes of a text ([null] where it fails). *)
Definition parsed_of (text : jsstring) : value :=
  match JSON.parse text with
  | inr v => v
  | inl _ => JNull
  end.

Definition qa (q a : string) : QA := mkQA (js q) (js a).

Definition empty_strings : jsstring :=
  jsq "[{'question':'','answer':''}]".

Definition mixed_shapes : jsstring :=
  jsq "[{'question':'Q1','answer':'A1'},{'question':'no answer'},{'question':7,'answer':'A3'},null,'text',{'answer':'A6','question':'Q6'}]".

Definition prose_then_array : jsstring :=
  jsq "Here you go: [{'question':'Q','answer':'A'}]".

Definition bracketed_prose_then_array : jsstring :=
  jsq "Here you go [as asked]: [{'question':'Q','answer':'A'}]".

Definition embedded_array : jsstring :=
  jsq "[{'question':'Q','answer':'A'}]".

Definition prose_with_bad_array : jsstring :=
  js "Here you go: [oops]".

Definition no_brackets : jsstring := js "I cannot help with that.".

Definition a_number : jsstring := js "42".

Definition quizzes_not_array : jsstring := jsq "{'quizzes':'none'}".

(** 1001 characters: a, 999 spaces, b. *)
Definition a_spaces_b : jsstring :=
  97%N :: repeat 32%N 999 ++ [98%N].

(** 1001 characters: a space, then a thousand times a. *)
Definition space_then_as : jsstring := 32%N :: repeat 97%N 1000.

(** 1001 characters: a thousand and one times a. *)
Definition many_as : jsstring := repeat 97%N 1001.

(** The request body the page sends for [text]. *)
Definition request_with (text : jsstring) : jsstring :=
  jsq "{'text':'" ++ escaped text ++ jsq "'}".

Definition page_with (text : jsstring) : QuizPage.state :=
  QuizPage.mkState text [] false None.

End Scenario.


(* ================================================================== *)
(** ** The page, with the reply of the endpoint *)

(** The whole of [QuizPage]'s state handling.  What the endpoint sends is
    stored as it comes, so [quizzes] holds parsed values here, whatever the
    declared type says. *)
Module Page.

Record state : Type := mkState {
  text : jsstring;
  quizzes : list value;
  loading : bool;
  error : option jsstring
}.

(** The four [useState] defaults, lines 9 to 12. *)
Definition initial : state := mkState [] [] false None.

(** Line 82. *)
Definition onChange (st : state) (v : jsstring) : state :=
  mkState (slice0 QuizPage.MAX_LEN v) (quizzes st) (loading st) (error st).

(** Lines 16 to 25. *)
Definition handleFileChange (st : state) (file : option (exn + jsstring))
  : state :=
  match file with
  | None => st
  | Some (inr content) =>
      mkState (slice0 QuizPage.MAX_LEN content) (quizzes st) (loading st)
              (error st)
  | Some (inl _) =>
      mkState (text st) (quizzes st) (loading st)
              (Some (js "ファイルの読み込みに失敗しました。"))
  end.

(** Line 103. *)
Definition clear (st : state) : state :=
  mkState [] [] (loading st) None.

(** Lines 97 and 98: [loading || text.trim().length === 0]. *)
Definition disabled (st : state) : bool :=
  loading st || (List.length (trim (text st)) =? 0).

(** What the handler reads of the response to its request: [res.ok] and the
    result of [res.json()]. *)
Record reply : Type := mkReply {
  res_ok : bool;
  res_json : exn + value
}.

(** What the engine decides: the [message] of an exception, if it has one,
    and the text of a number. *)
Record engine : Type := mkEngine {
  message : exn -> option jsstring;
  number_text : jsstring -> jsstring
}.

(** Truthiness of [v], [None] being [undefined].  A number parsed from JSON
    is falsy when it is zero, that is when its text is 0. *)
Definition truthy (eng : engine) (v : option value) : bool :=
  match v with
  | None | Some JNull => false
  | Some (JBool b) => b
  | Some (JNumber lexeme) =>
      negb (jsstring_eqb (number_text eng lexeme) (js "0"))
  | Some (JString s) => negb (is_empty s)
  | Some (JArray _) | Some (JObject _) => true
  end.

Definition empty_text_message : jsstring :=
  js "テキストが空です。入力またはファイルをアップロードしてください。".

Definition api_error_message : jsstring := js "APIエラーが発生しました".

Definition unknown_error_message : jsstring := js "不明なエラーが発生しました".

(** Line 28. *)
Definition payload (st : state) : jsstring :=
  slice0 QuizPage.MAX_LEN (trim (text st)).

(** Lines 28 to 41: up to the request.  The state as the request leaves,
    and the object given to [JSON.stringify]; for an empty payload the
    handler returns before anything else. *)
Definition start (st : state) : state * option value :=
  if is_empty (payload st) then
    (mkState (text st) (quizzes st) (loading st) (Some empty_text_message),
     None)
  else
    (mkState (text st) [] true None,
     Some (JObject [ (js "text", JString (payload st)) ])).

(** Line 44: the message of [new Error(data?.error || '...')]. *)
Definition thrown_message (eng : engine) (data : value) : jsstring :=
  let e := opt_chain (Some data) (prop (js "error")) in
  if truthy eng e then
    match e with
    | Some v => ToString (number_text eng) v
    | None => []
    end
  else api_error_message.

(** Line 49: [err?.message ?? '...'] for an exception of the engine. *)
Definition caught_message (eng : engine) (e : exn) : jsstring :=
  match message eng e with
  | Some m => m
  | None => unknown_error_message
  end.

(** Line 46: [Array.isArray(data?.quizzes) ? data.quizzes : []]. *)
Definition list_of (data : value) : list value :=
  match opt_chain (Some data) (prop (js "quizzes")) with
  | Some (JArray l) => l
  | _ => []
  end.

(** Lines 36 to 52: from the outcome of [fetch] to the state the handler
    leaves; [st] is the state at that time. *)
Definition finish (eng : engine) (st : state) (r : exn + reply) : state :=
  match r with
  | inl e => mkState (text st) (quizzes st) false (Some (caught_message eng e))
  | inr res =>
      match res_json res with
      | inl e =>
          mkState (text st) (quizzes st) false (Some (caught_message eng e))
      | inr data =>
          if negb (res_ok res) then
            mkState (text st) (quizzes st) false
                    (Some (thrown_message eng data))
          else
            mkState (text st) (firstn 5 (list_of data)) false (error st)
      end
  end.

(** Lines 27 to 53, run without interruption against [api], which answers
    the request whose body is the given object. *)
Definition handleGenerate (eng : engine) (api : value -> exn + reply)
           (st : state) : state * option value :=
  match start st with
  | (st1, Some body) => (finish eng st1 (api body), Some body)
  | (st1, None) => (st1, None)
  end.

(** What can happen to the page: the handlers, and the reply to a request,
    which may come after other handlers ran. *)
Inductive event : Type :=
| Change (v : jsstring)
| File (file : option (exn + jsstring))
| Click
| Reply (r : exn + reply)
| Clear.

Definition step (eng : engine) (st : state) (ev : event) : state :=
  match ev with
  | Change v => onChange st v
  | File file => handleFileChange st file
  | Click => fst (start st)
  | Reply r => finish eng st r
  | Clear => clear st
  end.

Definition run (eng : engine) (evs : list event) : state :=
  fold_left (step eng) evs initial.

End Page.

(** Every character of [s] is white space. *)
Definition blank (s : jsstring) : Prop :=
  Forall (fun c => is_whitespace c = true) s.

(** The fixed lines of the user prompt, up to the text. *)
Definition prompt_preamble : jsstring := userPrompt [].

(* ================================================================== *)
(** ** More concrete runs *)

Module Cases.

(** A provider that refuses: not ok, with a status text and a body. *)
Definition provider_refuses (statusText body : jsstring) : world :=
  {| NEXT_PUBLIC_OPENAI_API_KEY := None;
     OPENAI_API_KEY := Some (js "sk-test");
     fetch := fun _ =>
       inr {| ok := false; statusText := statusText;
              body_text := inr body |};
     number_to_string := fun lexeme => lexeme |}.

(** Both variables set. *)
Definition two_keys : world :=
  {| NEXT_PUBLIC_OPENAI_API_KEY := Some (js "pk-public");
     OPENAI_API_KEY := Some (js "sk-private");
     fetch := fetch (Scenario.provider_says Scenario.five_quizzes);
     number_to_string := fun lexeme => lexeme |}.

(** The public variable set to the empty string. *)
Definition empty_public_key : world :=
  {| NEXT_PUBLIC_OPENAI_API_KEY := Some [];
     OPENAI_API_KEY := Some (js "sk-private");
     fetch := fetch (Scenario.provider_says Scenario.five_quizzes);
     number_to_string := fun lexeme => lexeme |}.

(** A provider that answers 200 with the body [text]. *)
Definition provider_body (text : jsstring) : world :=
  {| NEXT_PUBLIC_OPENAI_API_KEY := None;
     OPENAI_API_KEY := Some (js "sk-test");
     fetch := fun _ =>
       inr {| ok := true; statusText := js "OK"; body_text := inr text |};
     number_to_string := fun lexeme => lexeme |}.

(** A network that fails. *)
Definition unreachable : world :=
  {| NEXT_PUBLIC_OPENAI_API_KEY := None;
     OPENAI_API_KEY := Some (js "sk-test");
     fetch := fun _ => inl (Rejected (js "fetch failed"));
     number_to_string := fun lexeme => lexeme |}.

Definition tool_call_body : jsstring :=
  jsq "{'choices':[{'message':{'content':null,'tool_calls':[{'function':{'name':'quiz','arguments':'[{\'question\':\'Q\',\'answer\':\'A\'}]'}}]}}]}".

Definition both_body : jsstring :=
  jsq "{'choices':[{'message':{'content':'[{\'question\':\'Q\',\'answer\':\'A\'}]','tool_calls':[{'function':{'arguments':'[]'}}]}}]}".

(** The content is an object, not the text of one. *)
Definition object_content_body : jsstring :=
  jsq "{'choices':[{'message':{'content':{'quizzes':[{'question':'Q','answer':'A'}]}}}]}".

Definition engine : Page.engine :=
  {| Page.message := fun e =>
       match e with
       | Rejected reason => Some reason
       | _ => Some (js "error")
       end;
     Page.number_text := fun lexeme => lexeme |}.

Definition page (text : jsstring) : Page.state :=
  Page.mkState text [] false None.

(** An endpoint that answers every request with [res]. *)
Definition answers (res : Page.reply) : value -> exn + Page.reply :=
  fun _ => inr res.

Definition refusal : Page.reply :=
  {| Page.res_ok := false;
     Page.res_json :=
       inr (JObject [(js "error", JString (js "No quizzes generated"));
                     (js "raw", JString (js "[]"))]) |}.


Definition request_short : jsstring := jsq "{'text':'Hello'}".

Definition request_unpadded : jsstring :=
  jsq "{'text':'Hello, world.','lang':'en'}".

Definition bare_refusal : Page.reply :=
  {| Page.res_ok := false; Page.res_json := inr (JObject []) |}.


(** A value with a quote, a backslash, a line feed, a control character
    and a lone surrogate in its strings. *)
Definition awkward_value : value :=
  JObject
    [ (js "error", JString [34; 92; 10; 1; 55357; 97]%N);
      (js "raw",
       JArray [ JNull; JBool true; JBool false; JString [];
                JObject []; JArray [];
                JObject [ ([92; 34]%N, JArray [JString (js "a")]) ] ]) ].

End Cases.

(** [message.tool_calls?.[0]?.function?.arguments] *)
Definition tool_arguments (msg : value) : option value :=
  opt_chain
    (opt_chain (opt_chain (prop (js "tool_calls") msg) item0)
               (prop (js "function")))
    (prop (js "arguments")).

(** [null] or [undefined] *)
Definition nullish_value (v : option value) : Prop :=
  v = None \/ v = Some JNull.

(** The error message of a response, empty for a success. *)
Definition error_of (r : response) : jsstring :=
  match payload_of r with
  | Error msg _ _ => msg
  | Quizzes _ => []
  end.

(* ================================================================== *)
(** ** [JSON.stringify] *)

(** A lower-case hexadecimal digit. *)
Definition hex_char (d : N) : N :=
  if (d <? 10)%N then (48 + d)%N else (87 + d)%N.

(** UnicodeEscape: backslash, u, four hexadecimal digits. *)
Definition unicode_escape (c : N) : jsstring :=
  [ 92%N; 117%N; hex_char (c / 4096); hex_char ((c / 256) mod 16);
    hex_char ((c / 16) mod 16); hex_char (c mod 16) ].

Definition is_lead (c : N) : bool := ((55296 <=? c) && (c <=? 56319))%N.

Definition is_trail (c : N) : bool := ((56320 <=? c) && (c <=? 57343))%N.

(** The inside of QuoteJSONString: the short escapes, a unicode escape for
    the other control characters and for a surrogate that has no partner,
    and every other character as it is. *)
Fixpoint quote_chars (s : jsstring) : jsstring :=
  match s with
  | [] => []
  | c :: r =>
      if (c =? 8)%N then 92%N :: 98%N :: quote_chars r
      else if (c =? 9)%N then 92%N :: 116%N :: quote_chars r
      else if (c =? 10)%N then 92%N :: 110%N :: quote_chars r
      else if (c =? 12)%N then 92%N :: 102%N :: quote_chars r
      else if (c =? 13)%N then 92%N :: 114%N :: quote_chars r
      else if (c =? 34)%N then 92%N :: 34%N :: quote_chars r
      else if (c =? 92)%N then 92%N :: 92%N :: quote_chars r
      else if (c <? 32)%N then unicode_escape c ++ quote_chars r
      else if is_lead c then
        match r with
        | d :: r' =>
            if is_trail d then c :: d :: quote_chars r'
            else unicode_escape c ++ quote_chars r
        | [] => unicode_escape c
        end
      else if is_trail c then unicode_escape c ++ quote_chars r
      else c :: quote_chars r
  end.

Definition QuoteJSONString (s : jsstring) : jsstring :=
  34%N :: quote_chars s ++ [34%N].

(** [JSON.stringify(v)], without indentation.  [number_text] is the engine's
    text of a number; an infinite one is written null.  Properties are
    written in the order of the list, which is the order of the object for
    names that are not array indices. *)
Fixpoint JSON_stringify (number_text : jsstring -> jsstring) (v : value)
  : jsstring :=
  match v with
  | JNull => js "null"
  | JBool true => js "true"
  | JBool false => js "false"
  | JNumber lexeme =>
      let t := number_text lexeme in
      if jsstring_eqb t (js "Infinity") || jsstring_eqb t (js "-Infinity")
      then js "null" else t
  | JString s => QuoteJSONString s
  | JArray items =>
      91%N :: join (js ",") (List.map (JSON_stringify number_text) items)
        ++ [93%N]
  | JObject props =>
      123%N
        :: join (js ",")
             (List.map (fun kv =>
                          match kv with
                          | (k, x) =>
                              QuoteJSONString k
                                ++ 58%N :: JSON_stringify number_text x
                          end) props)
        ++ [125%N]
  end.

(** The text of a member of an object. *)
Definition member_text (str : value -> jsstring) (kv : jsstring * value)
  : jsstring :=
  match kv with
  | (k, x) => QuoteJSONString k ++ 58%N :: str x
  end.

(** The text [str] makes of [x] parses back to [x], whatever follows it,
    with enough fuel. *)
Definition parses_back (str : value -> jsstring) (x : value) : Prop :=
  forall rest,
  exists f0, forall f,
      f0 <= f -> JSON.parse_value f (str x ++ rest) = JSON.Ok x rest.

(** Names that start with a digit, array indices among them: an engine
    lists the array indices of an object first, in ascending order,
    whatever the order they were added in. *)
Definition starts_with_digit (name : jsstring) : bool :=
  match name with
  | c :: _ => ((48 <=? c) && (c <=? 57))%N
  | [] => false
  end.

(** Values without numbers, and without a repeated name or a name that
    starts with a digit in an object: those whose text does not depend on
    the engine. *)
Inductive plain : value -> Prop :=
| plain_null : plain JNull
| plain_bool b : plain (JBool b)
| plain_string s : plain (JString s)
| plain_array items : Forall plain items -> plain (JArray items)
| plain_object props :
    NoDup (List.map fst props) ->
    Forall (fun kv => starts_with_digit (fst kv) = false) props ->
    Forall (fun kv => plain (snd kv)) props ->
    plain (JObject props).

(** Induction on values, with the elements of arrays and objects. *)
Section ValueInduction.

Variable P : value -> Prop.
Hypothesis Hnull : P JNull.
Hypothesis Hbool : forall b, P (JBool b).
Hypothesis Hnumber : forall lexeme, P (JNumber lexeme).
Hypothesis Hstring : forall s, P (JString s).
Hypothesis Harray : forall items, Forall P items -> P (JArray items).
Hypothesis Hobject :
  forall props, Forall (fun kv => P (snd kv)) props -> P (JObject props).

Fixpoint value_induction (v : value) : P v :=
  match v with
  | JNull => Hnull
  | JBool b => Hbool b
  | JNumber lexeme => Hnumber lexeme
  | JString s => Hstring s
  | JArray items =>
      Harray
        ((fix all (l : list value) : Forall P l :=
            match l with
            | [] => Forall_nil P
            | x :: r => Forall_cons x (value_induction x) (all r)
            end) items)
  | JObject props =>
      Hobject
        ((fix all (l : list (jsstring * value))
            : Forall (fun kv => P (snd kv)) l :=
            match l with
            | [] => Forall_nil (fun kv => P (snd kv))
            | (k, x) :: r =>
                Forall_cons (P := fun kv => P (snd kv)) (k, x)
                            (value_induction x) (all r)
            end) props)
  end.

End ValueInduction.

(* ================================================================== *)
(** ** The page and the endpoint together *)

(** The item of a success, as the object the handler builds at lines 115
    and 133. *)
Definition qa_json (qa : QA) : value :=
  JObject [ (js "question", JString (question qa));
            (js "answer", JString (answer qa)) ].

(** The object given to [Response.json].  [wording] is the text the
    endpoint's engine gives an exception ([error?.message ??
    String(error)]). *)
Definition payload_json (wording : exn -> jsstring) (p : payload) : value :=
  match p with
  | Quizzes qs => JObject [ (js "quizzes", JArray (List.map qa_json qs)) ]
  | Error msg details raw =>
      JObject
        ((js "error", JString msg)
           :: match details with
              | Some (Text s) => [ (js "details", JString s) ]
              | Some (MessageOf e) => [ (js "details", JString (wording e)) ]
              | None => []
              end
           ++ match raw with
              | Some v => [ (js "raw", v) ]
              | None => []
              end)
  end.

(** [res.ok]: a status from 200 to 299. *)
Definition status_ok (r : response) : bool :=
  ((200 <=? status r) && (status r <=? 299))%N.

(** The endpoint as the page's [fetch('/api/quiz', ...)] meets it: the
    body is the text [JSON.stringify] makes of the page's object, and the
    reply is the endpoint's response, its body the text [Response.json]
    makes of the handler's object. *)
Definition endpoint (w : world) (wording : exn -> jsstring) (body : value)
  : exn + Page.reply :=
  let r := snd (POST w (JSON_stringify (number_to_string w) body)) in
  inr {| Page.res_ok := status_ok r;
         Page.res_json :=
           JSON.parse
             (JSON_stringify (number_to_string w)
                             (payload_json wording (payload_of r))) |}.
(* ================================================================== *)
(** * Properties *)

(** ** Lists and strings *)

Lemma trimStart_length (s : jsstring) :
  List.length (trimStart s) <= List.length s.
Proof.
  induction s as [|c r IH]; simpl; [lia|].
  destruct (is_whitespace c); simpl; lia.
Qed.

Lemma trimStart_no_leading_space (c : N) (r : jsstring) :
  is_whitespace c = false -> trimStart (c :: r) = c :: r.
Proof. intros H; simpl; now rewrite H. Qed.

Lemma trimStart_idem (s : jsstring) : trimStart (trimStart s) = trimStart s.
Proof.
  induction s as [|c r IH]; simpl; [reflexivity|].
  destruct (is_whitespace c) eqn:E; [exact IH|].
  simpl; now rewrite E.
Qed.

Lemma trimEnd_length (s : jsstring) :
  List.length (trimEnd s) <= List.length s.
Proof.
  unfold trimEnd. rewrite length_rev.
  pose proof (trimStart_length (rev s)) as H. now rewrite length_rev in H.
Qed.

Lemma trim_length (s : jsstring) : List.length (trim s) <= List.length s.
Proof.
  unfold trim.
  pose proof (trimEnd_length (trimStart s)).
  pose proof (trimStart_length s). lia.
Qed.

Lemma trimStart_fixed (s : jsstring) :
  starts_with_space s = false -> trimStart s = s.
Proof.
  destruct s as [|c r]; simpl; [reflexivity|]. now intros ->.
Qed.

Lemma trimEnd_fixed (s : jsstring) :
  ends_with_space s = false -> trimEnd s = s.
Proof.
  unfold ends_with_space, trimEnd. intros H.
  rewrite trimStart_fixed; [apply rev_involutive|].
  unfold starts_with_space. exact H.
Qed.

Lemma trim_fixed (s : jsstring) :
  starts_with_space s = false -> ends_with_space s = false -> trim s = s.
Proof.
  intros H1 H2. unfold trim. rewrite (trimStart_fixed _ H1).
  now apply trimEnd_fixed.
Qed.

Lemma trimStart_starts (s : jsstring) :
  starts_with_space (trimStart s) = false.
Proof.
  induction s as [|c r IH]; simpl; [reflexivity|].
  destruct (is_whitespace c) eqn:E; [exact IH|]. simpl. exact E.
Qed.

Lemma trimEnd_ends (s : jsstring) : ends_with_space (trimEnd s) = false.
Proof.
  unfold ends_with_space, trimEnd. rewrite rev_involutive.
  apply (trimStart_starts (rev s)).
Qed.

(** A trimmed string is a prefix of what follows the leading white space. *)
Lemma trimStart_suffix (s : jsstring) :
  exists p, s = p ++ trimStart s.
Proof.
  induction s as [|c r [p Hp]]; simpl.
  - now exists [].
  - destruct (is_whitespace c).
    + exists (c :: p). simpl. now f_equal.
    + now exists [].
Qed.

Lemma trimEnd_prefix (s : jsstring) :
  exists q, s = trimEnd s ++ q.
Proof.
  unfold trimEnd. destruct (trimStart_suffix (rev s)) as [p Hp].
  exists (rev p).
  rewrite <- rev_app_distr, <- Hp. symmetry. apply rev_involutive.
Qed.

Lemma starts_with_space_app (s q : jsstring) :
  starts_with_space (s ++ q) = false -> starts_with_space s = false.
Proof. destruct s; simpl; auto. Qed.

Lemma starts_with_space_firstn (n : nat) (s : jsstring) :
  starts_with_space s = false -> starts_with_space (firstn n s) = false.
Proof. destruct n, s; simpl; auto. Qed.

Lemma trim_starts (s : jsstring) : starts_with_space (trim s) = false.
Proof.
  unfold trim.
  destruct (trimEnd_prefix (trimStart s)) as [q Hq].
  apply starts_with_space_app with (q := q).
  rewrite <- Hq. apply trimStart_starts.
Qed.

Lemma trim_ends (s : jsstring) : ends_with_space (trim s) = false.
Proof. apply trimEnd_ends. Qed.

Lemma trim_idem (s : jsstring) : trim (trim s) = trim s.
Proof. apply trim_fixed; [apply trim_starts | apply trim_ends]. Qed.

Lemma slice0_idem (n : nat) (s : jsstring) :
  slice0 n (slice0 n s) = slice0 n s.
Proof.
  unfold slice0. rewrite firstn_firstn. now rewrite Nat.min_id.
Qed.

Lemma trim_slice_length (text : jsstring) :
  List.length (trim_slice text) <= 1000.
Proof. unfold trim_slice, slice0. apply firstn_le_length. Qed.

Lemma trim_slice_long (text : jsstring) :
  1000 < List.length (trim text) ->
  List.length (trim_slice text) = 1000.
Proof.
  intros H. unfold trim_slice, slice0. rewrite length_firstn. lia.
Qed.

Lemma trim_slice_short (text : jsstring) :
  List.length (trim text) <= 1000 -> trim_slice text = trim text.
Proof. intros H. unfold trim_slice, slice0. now apply firstn_all2. Qed.

Lemma trim_slice_fixed (s : jsstring) :
  ends_with_space (trim_slice s) = false ->
  trim_slice (trim_slice s) = trim_slice s.
Proof.
  intros H.
  assert (Ht : trim (trim_slice s) = trim_slice s).
  { apply trim_fixed; [|exact H].
    unfold trim_slice, slice0. apply starts_with_space_firstn, trim_starts. }
  unfold trim_slice at 1. rewrite Ht. apply slice0_idem.
Qed.

Lemma trim_slice_of_unpadded (text : jsstring) :
  starts_with_space text = false ->
  1000 <= List.length (trim text) ->
  trim_slice text = firstn 1000 text.
Proof.
  intros Hs Hl. unfold trim_slice, slice0.
  assert (Ht : trim text = trimEnd text).
  { unfold trim. now rewrite trimStart_fixed. }
  destruct (trimEnd_prefix text) as [q Hq].
  rewrite Ht in *. rewrite Hq at 2.
  rewrite firstn_app.
  replace (1000 - List.length (trimEnd text)) with 0 by lia.
  simpl. now rewrite app_nil_r.
Qed.

Lemma In_firstn {A : Type} (n : nat) (l : list A) (x : A) :
  In x (firstn n l) -> In x l.
Proof.
  revert l. induction n as [|n IH]; intros [|y l]; simpl; try tauto.
  intros [->|H]; [now left|right; now apply IH].
Qed.

Lemma is_empty_true (s : jsstring) : is_empty s = true <-> s = [].
Proof. destruct s; simpl; split; congruence. Qed.

Lemma trim_slice_empty (text : jsstring) :
  trim_slice text = [] <-> trim text = [].
Proof.
  unfold trim_slice, slice0. destruct (trim text); simpl; split; congruence.
Qed.

(** ** The stages of the handler *)

Lemma destructure_text_cases (v : value) :
  (v = JNull /\ destructure_text v = inl TypeError_destructure_null)
  \/ (v <> JNull /\ destructure_text v = inr (prop (js "text") v)).
Proof. destruct v; [left|right..]; split; try reflexivity; discriminate. Qed.

Lemma check_text_cases (t : option value) :
  check_text t = Return text_is_required
  \/ check_text t = Return text_must_not_be_empty
  \/ exists text,
       t = Some (JString text) /\ text <> [] /\ trim_slice text <> [] /\
       check_text t = Next (trim_slice text).
Proof.
  destruct t as [[| | |text| |]|]; try (left; reflexivity).
  destruct text as [|c u]; [left; reflexivity|].
  unfold check_text. cbv zeta. cbn [is_empty].
  destruct (trim_slice (c :: u)) as [|c' u'] eqn:E; cbn [is_empty].
  - right. left. reflexivity.
  - right. right. exists (c :: u). rewrite E.
    split; [reflexivity|]. split; [discriminate|]. split; [discriminate|].
    reflexivity.
Qed.

(** [read_text], case by case. *)
Lemma read_text_cases (request : jsstring) :
  (exists e, read_text request = Throw e)
  \/ read_text request = Return text_is_required
  \/ read_text request = Return text_must_not_be_empty
  \/ exists v text,
       JSON.parse request = inr v /\
       prop (js "text") v = Some (JString text) /\
       text <> [] /\ trim_slice text <> [] /\
       read_text request = Next (trim_slice text).
Proof.
  unfold read_text.
  destruct (JSON.parse request) as [e|v]; [left; now exists e|].
  destruct (destructure_text_cases v) as [[_ ->]|[_ ->]];
    [left; now eexists|]. right.
  destruct (check_text_cases (prop (js "text") v))
    as [E|[E|(text & Ht & Hne & Hs & E)]].
  - left. exact E.
  - right. left. exact E.
  - right. right. exists v, text.
    split; [reflexivity|]. split; [exact Ht|]. split; [exact Hne|].
    split; [exact Hs|exact E].
Qed.

Lemma read_text_returns (request : jsstring) (r : response) :
  read_text request = Return r ->
  r = text_is_required \/ r = text_must_not_be_empty.
Proof.
  intros H.
  destruct (read_text_cases request)
    as [(e & E)|[E|[E|(v & text & _ & _ & _ & _ & E)]]];
    rewrite E in H; try discriminate; injection H as <-; auto.
Qed.

Lemma read_text_next (request trimmed : jsstring) :
  read_text request = Next trimmed ->
  exists v text,
    JSON.parse request = inr v /\ prop (js "text") v = Some (JString text) /\
    text <> [] /\ trimmed = trim_slice text /\ trimmed <> [].
Proof.
  intros H.
  destruct (read_text_cases request)
    as [(e & E)|[E|[E|(v & text & Hp & Ht & Hne & Hs & E)]]];
    rewrite E in H; try discriminate.
  injection H as <-. exists v, text. auto.
Qed.

Lemma read_key_missing (w : world) :
  no_key w -> read_key w = Return missing_api_key.
Proof.
  unfold no_key, yields_key, read_key, env_or. intros [Ha Hb].
  destruct (NEXT_PUBLIC_OPENAI_API_KEY w) as [[|c k]|].
  - destruct (OPENAI_API_KEY w) as [[|c k]|]; try reflexivity.
    destruct Hb. now exists c, k.
  - destruct Ha. now exists c, k.
  - destruct (OPENAI_API_KEY w) as [[|c k]|]; try reflexivity.
    destruct Hb. now exists c, k.
Qed.

Lemma read_key_cases (w : world) :
  (exists apiKey, read_key w = Next apiKey /\ apiKey <> [] /\
     (NEXT_PUBLIC_OPENAI_API_KEY w = Some apiKey \/
      ~ yields_key (NEXT_PUBLIC_OPENAI_API_KEY w) /\
      OPENAI_API_KEY w = Some apiKey))
  \/ (read_key w = Return missing_api_key /\ no_key w).
Proof.
  unfold no_key, yields_key, read_key, env_or.
  destruct (NEXT_PUBLIC_OPENAI_API_KEY w) as [[|c k]|].
  - destruct (OPENAI_API_KEY w) as [[|c k]|].
    + right. split; [reflexivity|]. split; intros (c & k & H); discriminate.
    + left. exists (c :: k). repeat split; [discriminate|]. right.
      split; [|reflexivity]. intros (c' & k' & H); discriminate.
    + right. split; [reflexivity|]. split; intros (c & k & H); discriminate.
  - left. exists (c :: k). repeat split; [discriminate|]. now left.
  - destruct (OPENAI_API_KEY w) as [[|c k]|].
    + right. split; [reflexivity|]. split; intros (c & k & H); discriminate.
    + left. exists (c :: k). repeat split; [discriminate|]. right.
      split; [|reflexivity]. intros (c' & k' & H); discriminate.
    + right. split; [reflexivity|]. split; intros (c & k & H); discriminate.
Qed.

Lemma read_content_returns (res : fetch_response) (r : response) :
  read_content res = Return r ->
  exists d, r = openai_api_error d.
Proof.
  unfold read_content. intros H.
  destruct (ok res); cbn [negb] in H.
  - destruct (body_text res) as [e|t]; [discriminate|].
    destruct (JSON.parse t) as [e|data]; [discriminate|].
    destruct (content_of data); discriminate.
  - injection H as <-. eexists; reflexivity.
Qed.

Lemma respond_cases (content : value) (quizzes : list QA) :
  (quizzes = [] /\ respond content quizzes = Return (no_quizzes_generated content))
  \/ (quizzes <> [] /\
      respond content quizzes = Return (success (firstn 5 quizzes))).
Proof.
  destruct quizzes as [|qa qs]; [left|right]; split;
    try reflexivity; congruence.
Qed.

Lemma parse_content_returns (w : world) (content : value) (r : response) :
  parse_content w content = Return r ->
  exists s,
    content = JString s /\ (forall v, JSON.parse s <> inr v) /\
    match_bracketed s = None /\ r = failed_to_parse content.
Proof.
  unfold parse_content. intros H.
  destruct (JSON.parse (ToString (number_to_string w) content)) as [e|v] eqn:Hc;
    [|discriminate].
  destruct content as [| | |s| |]; try discriminate.
  simpl in Hc.
  destruct (match_bracketed s) as [m|] eqn:Hm.
  - destruct (JSON.parse m); discriminate.
  - injection H as <-. exists s. repeat split; auto. congruence.
Qed.

Lemma handle_content_result (w : world) (content : value) :
  content_result w content (handle_content w content).
Proof.
  unfold handle_content.
  destruct (parse_content w content) as [parsed|r|e] eqn:Hp.
  - destruct (respond_cases content (normalize parsed)) as [[H ->]|[H ->]].
    + now eapply cr_none; eauto.
    + now eapply cr_some; eauto.
  - destruct (parse_content_returns _ _ Hp) as (s & Hs & Hn & Hm & ->).
    now eapply cr_unparsed; eauto.
  - now apply cr_threw.
Qed.

Lemma handle_content_parsed (w : world) (content parsed : value) :
  parse_content w content = Next parsed ->
  handle_content w content = respond content (normalize parsed).
Proof. unfold handle_content. now intros ->. Qed.

(** The handler, stage by stage. *)
Lemma POST_unfold (w : world) (request : jsstring) :
  POST w request =
  match read_text request with
  | Next trimmed =>
      match read_key w with
      | Next apiKey =>
          ([completion_request apiKey trimmed],
           match fetch w (completion_request apiKey trimmed) with
           | inl e => unexpected_server_error e
           | inr res =>
               match read_content res with
               | Next content => settle (handle_content w content)
               | Return r => r
               | Throw e => unexpected_server_error e
               end
           end)
      | Return r => ([], r)
      | Throw e => ([], unexpected_server_error e)
      end
  | Return r => ([], r)
  | Throw e => ([], unexpected_server_error e)
  end.
Proof.
  unfold POST, POST_try, bind, lift, await_fetch.
  destruct (read_text request); try reflexivity.
  destruct (read_key w); try reflexivity.
  simpl. destruct (fetch w _); try reflexivity.
  destruct (read_content f); reflexivity.
Qed.

Lemma POST_reaches (w : world) (request trimmed apiKey : jsstring)
      (content : value) :
  reaches_content w request trimmed apiKey content ->
  POST w request =
  ([completion_request apiKey trimmed], settle (handle_content w content)).
Proof.
  intros (Ht & Hk & res & Hf & Hc).
  now rewrite POST_unfold, Ht, Hk, Hf, Hc.
Qed.

Lemma POST_content (w : world) (request : jsstring) (content : value) :
  provider_content w request content ->
  snd (POST w request) = settle (handle_content w content).
Proof.
  intros (trimmed & apiKey & H). now rewrite (POST_reaches H).
Qed.

Lemma POST_responded (w : world) (request : jsstring) :
  responded w request (snd (POST w request)).
Proof.
  rewrite POST_unfold.
  destruct (read_text request) as [trimmed|r0|e] eqn:Ht; simpl.
  2: { now apply from_validation. }
  2: { apply from_catch. }
  destruct (read_key_cases w) as [(apiKey & Hk & _)|[Hk _]]; rewrite Hk; simpl.
  2: { now eapply from_key; eauto. }
  destruct (fetch w _) as [e|res] eqn:Hf; simpl.
  { apply from_catch. }
  destruct (read_content res) as [content|r0|e] eqn:Hc; simpl.
  - assert (Hpc : provider_content w request content).
    { exists trimmed, apiKey. repeat split; auto. now exists res. }
    pose proof (handle_content_result w content) as Hr.
    destruct (handle_content w content) as [r0|r0|e] eqn:Hh; simpl.
    + inversion Hr.
    + now eapply from_content; eauto.
    + apply from_catch.
  - destruct (read_content_returns _ Hc) as [d ->].
    apply from_provider_status.
    + reflexivity.
    + intros qs. discriminate.
    + now exists trimmed.
  - apply from_catch.
Qed.

Lemma POST_responds (w : world) (request : jsstring) (r : response) :
  snd (POST w request) = r -> responded w request r.
Proof. intros <-. apply POST_responded. Qed.

(** A response is its status and its payload. *)
Lemma response_fields (r : response) (p : payload) (s : N) :
  r = Response.json p s <-> status r = s /\ payload_of r = p.
Proof.
  split.
  - intros ->. split; reflexivity.
  - intros [<- <-]. now destruct r.
Qed.

(** Discharges [reaches_content] and [provider_content] on a concrete run. *)
Ltac reach :=
  lazymatch goal with
  | |- provider_content _ _ _ =>
      exists (js "Hello, world."), (js "sk-test"); reach
  | |- reaches_content _ _ _ _ _ =>
      split; [vm_compute; reflexivity|];
      split; [vm_compute; reflexivity|];
      eexists; split; [reflexivity|vm_compute; reflexivity]
  end.

(** The handler makes at most one outbound call. *)
Lemma POST_calls_at_most_once (w : world) (request : jsstring) :
  List.length (fst (POST w request)) <= 1.
Proof.
  rewrite POST_unfold.
  destruct (read_text request); simpl; try lia.
  destruct (read_key w); simpl; lia.
Qed.

(** ** Runs of the handler *)

Example run_five_quizzes :
  POST (Scenario.provider_says Scenario.five_quizzes) Scenario.request_hello
  = ([completion_request (js "sk-test") (js "Hello, world.")],
     success [ Scenario.qa "Q1" "A1"; Scenario.qa "Q2" "A2";
               Scenario.qa "Q3" "A3"; Scenario.qa "Q4" "A4";
               Scenario.qa "Q5" "A5" ]).
Proof. vm_compute. reflexivity. Qed.

Example run_no_brackets :
  snd (POST (Scenario.provider_says Scenario.no_brackets)
            Scenario.request_hello)
  = failed_to_parse (JString Scenario.no_brackets).
Proof. vm_compute. reflexivity. Qed.

Example run_null_body :
  POST (Scenario.provider_says Scenario.five_quizzes) Scenario.request_null
  = ([], unexpected_server_error TypeError_destructure_null).
Proof. vm_compute. reflexivity. Qed.

Example run_blank_text :
  POST (Scenario.provider_says Scenario.five_quizzes)
       Scenario.request_blank_text
  = ([], text_must_not_be_empty).
Proof. vm_compute. reflexivity. Qed.

(** ** The length of the returned list *)

Lemma success_length (w : world) (request : jsstring) :
  (status (snd (POST w request)) = 200%N
   \/ exists qs, payload_of (snd (POST w request)) = Quizzes qs) ->
  exists qs,
    snd (POST w request) = success qs /\ 1 <= List.length qs <= 5.
Proof.
  intros Hs.
  destruct (POST_responded w request)
    as [r Hv|trimmed _ _|r H500 Hq _|e|content r Hpc Hr].
  - destruct (read_text_returns _ Hv) as [-> | ->];
      destruct Hs as [Hs|[qs Hs]]; discriminate.
  - destruct Hs as [Hs|[qs Hs]]; discriminate.
  - destruct Hs as [Hs|[qs Hs]]; [rewrite H500 in Hs; discriminate|].
    now apply Hq in Hs.
  - destruct Hs as [Hs|[qs Hs]]; discriminate.
  - inversion Hr as [s0 Hs0 Hn Hm| |parsed Hp Hn|parsed Hp Hn]; subst.
    + destruct Hs as [Hs|[qs Hs]]; discriminate.
    + destruct Hs as [Hs|[qs Hs]]; discriminate.
    + exists (firstn 5 (normalize parsed)). split; [reflexivity|].
      rewrite length_firstn. destruct (normalize parsed); [congruence|].
      simpl List.length. lia.
Qed.

(** C1. The endpoint never answers 200 with more than five or with no
    quizzes: a response that has status 200, or that carries a quizzes array
    at all, has status 200 and a quizzes array of one to five items; when
    normalization yields more than five items the response has status 200
    and exactly the first five; when it yields none the response has status
    500, the error No quizzes generated and the content as raw. *)
Theorem C1_quizzes_between_one_and_five :
  (forall w request,
      (status (snd (POST w request)) = 200%N
       \/ exists qs, payload_of (snd (POST w request)) = Quizzes qs) ->
      exists qs,
        status (snd (POST w request)) = 200%N
        /\ payload_of (snd (POST w request)) = Quizzes qs
        /\ 1 <= List.length qs /\ List.length qs <= 5)
  /\ (forall w request content parsed,
         provider_content w request content ->
         parse_content w content = Next parsed ->
         5 < List.length (normalize parsed) ->
         status (snd (POST w request)) = 200%N
         /\ payload_of (snd (POST w request))
            = Quizzes (firstn 5 (normalize parsed))
         /\ List.length (firstn 5 (normalize parsed)) = 5)
  /\ (forall w request content parsed,
         provider_content w request content ->
         parse_content w content = Next parsed ->
         normalize parsed = [] ->
         status (snd (POST w request)) = 500%N
         /\ payload_of (snd (POST w request))
            = Error (js "No quizzes generated") None (Some content)).
Proof.
  split; [|split].
  - intros w request Hs.
    destruct (success_length _ _ Hs) as (qs & E & Hl).
    exists qs. rewrite E.
    split; [reflexivity|]. split; [reflexivity|]. lia.
  - intros w request content parsed Hpc Hp Hn.
    rewrite (POST_content Hpc), (handle_content_parsed _ _ Hp).
    destruct (respond_cases content (normalize parsed)) as [[H _]|[_ ->]].
    + rewrite H in Hn. simpl in Hn. lia.
    + split; [reflexivity|]. split; [reflexivity|].
      rewrite length_firstn. lia.
  - intros w request content parsed Hpc Hp Hn.
    rewrite (POST_content Hpc), (handle_content_parsed _ _ Hp), Hn.
    split; reflexivity.
Qed.

(** Six valid items come back as five; an empty array is a 500. *)
Lemma C1_quizzes_between_one_and_five_witness :
  (exists qs,
      status (snd (POST (Scenario.provider_says Scenario.six_quizzes)
                        Scenario.request_hello)) = 200%N
      /\ payload_of (snd (POST (Scenario.provider_says Scenario.six_quizzes)
                               Scenario.request_hello)) = Quizzes qs
      /\ 1 <= List.length qs /\ List.length qs <= 5)
  /\ (status (snd (POST (Scenario.provider_says Scenario.six_quizzes)
                        Scenario.request_hello)) = 200%N
      /\ payload_of (snd (POST (Scenario.provider_says Scenario.six_quizzes)
                               Scenario.request_hello))
         = Quizzes (firstn 5 (normalize
                                (Scenario.parsed_of Scenario.six_quizzes)))
      /\ List.length (firstn 5 (normalize
                         (Scenario.parsed_of Scenario.six_quizzes))) = 5)
  /\ (status (snd (POST (Scenario.provider_says (js "[]"))
                        Scenario.request_hello)) = 500%N
      /\ payload_of (snd (POST (Scenario.provider_says (js "[]"))
                               Scenario.request_hello))
         = Error (js "No quizzes generated") None
                 (Some (JString (js "[]")))).
Proof.
  destruct C1_quizzes_between_one_and_five as (Hlen & Hmany & Hnone).
  split; [|split].
  - apply Hlen. left. vm_compute. reflexivity.
  - apply (Hmany (Scenario.provider_says Scenario.six_quizzes)
                 Scenario.request_hello (JString Scenario.six_quizzes)
                 (Scenario.parsed_of Scenario.six_quizzes)).
    + reach.
    + vm_compute. reflexivity.
    + vm_compute. lia.
  - apply (Hnone (Scenario.provider_says (js "[]")) Scenario.request_hello
                 (JString (js "[]")) (JArray [])).
    + reach.
    + vm_compute. reflexivity.
    + reflexivity.
Defined.

(** ** The shape check *)

Lemma toQA_shaped (x : value) (q a : jsstring) :
  shaped x q a -> toQA x = Some (mkQA q a).
Proof.
  intros (o & -> & Hq & Ha).
  unfold toQA, has_prop. simpl. now rewrite Hq, Ha.
Qed.

Lemma toQA_some (x : value) (qa : QA) :
  toQA x = Some qa -> shaped x (question qa) (answer qa).
Proof.
  unfold toQA, has_prop, shaped. intros H.
  destruct x as [| | | | |o]; simpl in H; try discriminate.
  destruct (lookup (js "question") o) as [[| | |q| |]|] eqn:Hq;
    simpl in H; try discriminate;
    destruct (lookup (js "answer") o) as [[| | |a| |]|] eqn:Ha;
    simpl in H; try discriminate.
  injection H as <-. exists o. simpl. auto.
Qed.

Lemma toQA_none (x : value) :
  toQA x = None -> forall q a, ~ shaped x q a.
Proof.
  intros H q a Hs. apply toQA_shaped in Hs. congruence.
Qed.

Lemma candidates_cons (x : value) (l : list value) :
  candidates (x :: l) =
  match toQA x with
  | Some qa => qa :: candidates l
  | None => candidates l
  end.
Proof. reflexivity. Qed.

Lemma candidates_shape_filtered (l : list value) :
  shape_filtered l (candidates l).
Proof.
  induction l as [|x l IH]; [constructor|].
  rewrite candidates_cons. destruct (toQA x) as [[q a]|] eqn:E.
  - apply sf_keep; [|exact IH]. now apply toQA_some in E.
  - apply sf_drop; [|exact IH]. now apply toQA_none.
Qed.

Lemma shape_filtered_unique (l : list value) (r : list QA) :
  shape_filtered l r -> r = candidates l.
Proof.
  induction 1 as [|x q a l r Hs _ IH|x l r Hn _ IH].
  - reflexivity.
  - rewrite candidates_cons, (toQA_shaped Hs). now f_equal.
  - rewrite candidates_cons. destruct (toQA x) as [qa|] eqn:E; [|exact IH].
    apply toQA_some in E. now apply Hn in E.
Qed.

Lemma candidates_all_shaped (items : list value) (qas : list QA) :
  Forall2 (fun x qa => shaped x (question qa) (answer qa)) items qas ->
  candidates items = qas.
Proof.
  induction 1 as [|x [q a] items qas Hs _ IH]; [reflexivity|].
  rewrite candidates_cons, (toQA_shaped Hs). now f_equal.
Qed.

Lemma candidates_in (l : list value) (qa : QA) :
  In qa (candidates l) ->
  exists x, In x l /\ shaped x (question qa) (answer qa).
Proof.
  induction l as [|x l IH]; [contradiction|].
  rewrite candidates_cons. destruct (toQA x) as [qa'|] eqn:E.
  - intros [<-|H].
    + exists x. split; [now left|now apply toQA_some].
    + destruct (IH H) as (y & Hy & Hs). exists y. split; [now right|exact Hs].
  - intros H. destruct (IH H) as (y & Hy & Hs).
    exists y. split; [now right|exact Hs].
Qed.

Lemma normalize_candidate_array (parsed : value) :
  normalize parsed = candidates (candidate_array parsed).
Proof.
  destruct parsed as [| | | |l|o]; try reflexivity.
  unfold normalize, candidate_array, has_prop. simpl.
  destruct (lookup (js "quizzes") o) as [[| | | |l|]|]; reflexivity.
Qed.

Lemma normalize_wrapped (o : list (jsstring * value)) (l : list value) :
  lookup (js "quizzes") o = Some (JArray l) ->
  normalize (JObject o) = candidates l.
Proof.
  intros H. rewrite normalize_candidate_array. simpl. now rewrite H.
Qed.

Lemma parse_content_strict (w : world) (content : jsstring) (parsed : value) :
  JSON.parse content = inr parsed ->
  parse_content w (JString content) = Next parsed.
Proof. unfold parse_content. simpl. now intros ->. Qed.

(** ** Round trip *)

(** C2. When the provider's content is the JSON object whose quizzes
    property is an array of five objects, each with string-valued question
    and answer, the endpoint answers 200 with exactly those five question and
    answer pairs, unchanged and in the same order. *)
Theorem C2_round_trip_of_five :
  forall w request content o items qas,
    provider_content w request (JString content) ->
    JSON.parse content = inr (JObject o) ->
    lookup (js "quizzes") o = Some (JArray items) ->
    List.length items = 5 ->
    Forall2 (fun x qa => shaped x (question qa) (answer qa)) items qas ->
    status (snd (POST w request)) = 200%N
    /\ payload_of (snd (POST w request)) = Quizzes qas.
Proof.
  intros w request content o items qas Hpc Hp Hq Hl Hs.
  rewrite (POST_content Hpc),
    (handle_content_parsed _ _ (parse_content_strict w _ Hp)),
    (normalize_wrapped _ Hq), (candidates_all_shaped Hs).
  pose proof (Forall2_length Hs) as Hl'. rewrite Hl in Hl'.
  destruct (respond_cases (JString content) qas) as [[-> _]|[_ ->]];
    [discriminate|].
  rewrite firstn_all2 by lia. split; reflexivity.
Qed.

Lemma C2_round_trip_of_five_witness :
  status (snd (POST (Scenario.provider_says Scenario.five_quizzes)
                    Scenario.request_hello)) = 200%N
  /\ payload_of (snd (POST (Scenario.provider_says Scenario.five_quizzes)
                           Scenario.request_hello))
     = Quizzes [ Scenario.qa "Q1" "A1"; Scenario.qa "Q2" "A2";
                 Scenario.qa "Q3" "A3"; Scenario.qa "Q4" "A4";
                 Scenario.qa "Q5" "A5" ].
Proof.
  apply (@C2_round_trip_of_five
           (Scenario.provider_says Scenario.five_quizzes)
           Scenario.request_hello Scenario.five_quizzes
           (match Scenario.parsed_of Scenario.five_quizzes with
            | JObject o => o
            | _ => []
            end)
           (candidate_array (Scenario.parsed_of Scenario.five_quizzes))).
  - reach.
  - vm_compute. reflexivity.
  - vm_compute. reflexivity.
  - vm_compute. reflexivity.
  - vm_compute.
    repeat (constructor; [eexists; split; [reflexivity|split; reflexivity]|]).
    constructor.
Defined.

(** ** Shape filtering *)

(** C6, as stated, fails: not every element that satisfies the shape check
    is retained in the output.  Of a candidate list of six well-shaped
    elements the response carries the first five; the sixth is dropped. *)
Lemma C6_sixth_item_is_dropped :
  provider_content (Scenario.provider_says Scenario.six_quizzes)
                   Scenario.request_hello (JString Scenario.six_quizzes)
  /\ parse_content (Scenario.provider_says Scenario.six_quizzes)
                   (JString Scenario.six_quizzes)
     = Next (Scenario.parsed_of Scenario.six_quizzes)
  /\ Forall2 (fun x qa => shaped x (question qa) (answer qa))
             (candidate_array (Scenario.parsed_of Scenario.six_quizzes))
             [ Scenario.qa "Q1" "A1"; Scenario.qa "Q2" "A2";
               Scenario.qa "Q3" "A3"; Scenario.qa "Q4" "A4";
               Scenario.qa "Q5" "A5"; Scenario.qa "Q6" "A6" ]
  /\ status (snd (POST (Scenario.provider_says Scenario.six_quizzes)
                       Scenario.request_hello)) = 200%N
  /\ payload_of (snd (POST (Scenario.provider_says Scenario.six_quizzes)
                           Scenario.request_hello))
     = Quizzes [ Scenario.qa "Q1" "A1"; Scenario.qa "Q2" "A2";
                 Scenario.qa "Q3" "A3"; Scenario.qa "Q4" "A4";
                 Scenario.qa "Q5" "A5" ]
  /\ ~ In (Scenario.qa "Q6" "A6")
          [ Scenario.qa "Q1" "A1"; Scenario.qa "Q2" "A2";
            Scenario.qa "Q3" "A3"; Scenario.qa "Q4" "A4";
            Scenario.qa "Q5" "A5" ].
Proof.
  split; [reach|].
  split; [vm_compute; reflexivity|].
  split.
  { vm_compute.
    repeat (constructor; [eexists; split; [reflexivity|split; reflexivity]|]).
    constructor. }
  split; [vm_compute; reflexivity|].
  split; [vm_compute; reflexivity|].
  intros H. vm_compute in H.
  repeat (destruct H as [H|H]; [discriminate|]). exact H.
Qed.

(** C6, amended. Of a parsed candidate list, the elements that are not
    objects with both question and answer as strings are dropped, the others
    are kept in their order, and nothing else is the result of the filter;
    whatever the elements are, no exception comes of it.  The response
    carries the first five of the kept elements, with status 200, and a
    sixth or later well-shaped element is dropped too; when no element is
    kept the response has status 500 and the error No quizzes generated. *)
Theorem C6_shape_filtering :
  (forall l r, shape_filtered l r <-> r = candidates l)
  /\ (forall l, normalize (JArray l) = candidates l)
  /\ (forall o l,
         lookup (js "quizzes") o = Some (JArray l) ->
         normalize (JObject o) = candidates l)
  /\ (forall w request content parsed kept,
         provider_content w request content ->
         parse_content w content = Next parsed ->
         shape_filtered (candidate_array parsed) kept ->
         match kept with
         | [] =>
             status (snd (POST w request)) = 500%N
             /\ payload_of (snd (POST w request))
                = Error (js "No quizzes generated") None (Some content)
         | _ :: _ =>
             status (snd (POST w request)) = 200%N
             /\ payload_of (snd (POST w request))
                = Quizzes (firstn 5 kept)
         end).
Proof.
  split; [|split; [|split]].
  - intros l r. split.
    + apply shape_filtered_unique.
    + intros ->. apply candidates_shape_filtered.
  - reflexivity.
  - intros o l. apply normalize_wrapped.
  - intros w request content parsed kept Hpc Hp Hk.
    apply shape_filtered_unique in Hk. subst kept.
    rewrite (POST_content Hpc), (handle_content_parsed _ _ Hp),
      normalize_candidate_array.
    destruct (candidates (candidate_array parsed)); split; reflexivity.
Qed.

Lemma C6_shape_filtering_witness :
  shape_filtered
    (candidate_array (Scenario.parsed_of Scenario.mixed_shapes))
    [ Scenario.qa "Q1" "A1"; Scenario.qa "Q6" "A6" ]
  /\ (status (snd (POST (Scenario.provider_says Scenario.mixed_shapes)
                        Scenario.request_hello)) = 200%N
      /\ payload_of (snd (POST (Scenario.provider_says Scenario.mixed_shapes)
                               Scenario.request_hello))
         = Quizzes [ Scenario.qa "Q1" "A1"; Scenario.qa "Q6" "A6" ]).
Proof.
  destruct C6_shape_filtering as (Hf & _ & _ & Hh).
  assert (Hk : shape_filtered
                 (candidate_array (Scenario.parsed_of Scenario.mixed_shapes))
                 [ Scenario.qa "Q1" "A1"; Scenario.qa "Q6" "A6" ]).
  { apply Hf. vm_compute. reflexivity. }
  split; [exact Hk|].
  apply (Hh (Scenario.provider_says Scenario.mixed_shapes)
            Scenario.request_hello
            (JString Scenario.mixed_shapes)
            (Scenario.parsed_of Scenario.mixed_shapes)
            [ Scenario.qa "Q1" "A1"; Scenario.qa "Q6" "A6" ]).
  - reach.
  - vm_compute. reflexivity.
  - exact Hk.
Defined.

(** ** A parsed value that holds no list *)

(** C10. When strict parsing of the provider's content succeeds and the
    parsed value is neither an array nor an object with an array-valued
    quizzes property, the response has status 500, the error No quizzes
    generated, no details, and the content as raw; it is never a success. *)
Theorem C10_no_candidate_list :
  forall w request content parsed,
    provider_content w request (JString content) ->
    JSON.parse content = inr parsed ->
    (forall l, parsed <> JArray l) ->
    (forall o l, parsed = JObject o ->
                 lookup (js "quizzes") o <> Some (JArray l)) ->
    status (snd (POST w request)) = 500%N
    /\ payload_of (snd (POST w request))
       = Error (js "No quizzes generated") None (Some (JString content)).
Proof.
  intros w request content parsed Hpc Hp Harr Hobj.
  rewrite (POST_content Hpc),
    (handle_content_parsed _ _ (parse_content_strict w _ Hp)).
  assert (Hn : normalize parsed = []).
  { rewrite normalize_candidate_array.
    destruct parsed as [| | | |l|o]; try reflexivity.
    - now destruct (Harr l).
    - simpl. destruct (lookup (js "quizzes") o) as [[| | | |l|]|] eqn:E;
        try reflexivity.
      now destruct (Hobj o l eq_refl). }
  rewrite Hn. split; reflexivity.
Qed.

Lemma C10_no_candidate_list_witness :
  (status (snd (POST (Scenario.provider_says Scenario.a_number)
                     Scenario.request_hello)) = 500%N
   /\ payload_of (snd (POST (Scenario.provider_says Scenario.a_number)
                            Scenario.request_hello))
      = Error (js "No quizzes generated") None
              (Some (JString Scenario.a_number)))
  /\ (status (snd (POST (Scenario.provider_says Scenario.quizzes_not_array)
                        Scenario.request_hello)) = 500%N
      /\ payload_of (snd (POST (Scenario.provider_says
                                  Scenario.quizzes_not_array)
                               Scenario.request_hello))
         = Error (js "No quizzes generated") None
                 (Some (JString Scenario.quizzes_not_array))).
Proof.
  split.
  - apply (@C10_no_candidate_list
             (Scenario.provider_says Scenario.a_number)
             Scenario.request_hello Scenario.a_number
             (JNumber (js "42"))).
    + reach.
    + vm_compute. reflexivity.
    + discriminate.
    + discriminate.
  - apply (@C10_no_candidate_list
             (Scenario.provider_says Scenario.quizzes_not_array)
             Scenario.request_hello Scenario.quizzes_not_array
             (JObject [(js "quizzes", JString (js "none"))])).
    + reach.
    + vm_compute. reflexivity.
    + discriminate.
    + intros o l [= <-]. vm_compute. discriminate.
Defined.

(** ** What the items of a success are *)

(** C5, as stated, fails: an item whose question and answer are empty
    strings passes the shape check and is returned with status 200. *)
Lemma C5_empty_strings_are_returned :
  exists qs,
    status (snd (POST (Scenario.provider_says Scenario.empty_strings)
                      Scenario.request_hello)) = 200%N
    /\ payload_of (snd (POST (Scenario.provider_says Scenario.empty_strings)
                             Scenario.request_hello)) = Quizzes qs
    /\ ~ Forall nonempty_qa qs.
Proof.
  exists [mkQA [] []]. split; [|split].
  - vm_compute. reflexivity.
  - vm_compute. reflexivity.
  - intros H. inversion H as [|qa l [Hq _] _]. now apply Hq.
Qed.

(** C5, amended. Every item of a 200 response is the pair of the
    string-valued question and answer of an element of the provider's
    candidate list, unchanged; the strings may be empty. *)
Theorem C5_items_are_string_pairs :
  forall w request,
    status (snd (POST w request)) = 200%N ->
    exists content parsed,
      provider_content w request content /\
      parse_content w content = Next parsed /\
      payload_of (snd (POST w request))
      = Quizzes (firstn 5 (normalize parsed)) /\
      Forall (fun qa =>
                exists x, In x (candidate_array parsed) /\
                          shaped x (question qa) (answer qa))
             (firstn 5 (normalize parsed)).
Proof.
  intros w request Hs.
  destruct (POST_responded w request)
    as [r Hv|trimmed _ _|r H500 _ _|e|content r Hpc Hr].
  - destruct (read_text_returns _ Hv) as [-> | ->]; discriminate.
  - discriminate.
  - rewrite H500 in Hs. discriminate.
  - discriminate.
  - inversion Hr as [s0 Hs0 Hn Hm| |parsed Hp Hn|parsed Hp Hn]; subst;
      try discriminate.
    exists content, parsed. repeat split; auto.
    apply Forall_forall. intros qa Hin.
    apply In_firstn in Hin. rewrite normalize_candidate_array in Hin.
    now apply candidates_in.
Qed.

Lemma C5_items_are_string_pairs_witness :
  exists content parsed,
    provider_content (Scenario.provider_says Scenario.empty_strings)
                     Scenario.request_hello content /\
    parse_content (Scenario.provider_says Scenario.empty_strings) content
    = Next parsed /\
    payload_of (snd (POST (Scenario.provider_says Scenario.empty_strings)
                          Scenario.request_hello))
    = Quizzes (firstn 5 (normalize parsed)) /\
    Forall (fun qa =>
              exists x, In x (candidate_array parsed) /\
                        shaped x (question qa) (answer qa))
           (firstn 5 (normalize parsed)).
Proof.
  apply (@C5_items_are_string_pairs
           (Scenario.provider_says Scenario.empty_strings)
           Scenario.request_hello).
  vm_compute. reflexivity.
Defined.

(** ** The fallback *)

Lemma after_first_open_app (pre r : jsstring) :
  ~ In 91%N pre -> after_first_open (pre ++ 91%N :: r) = Some r.
Proof.
  induction pre as [|c pre IH]; simpl; intros H; [reflexivity|].
  destruct (c =? 91)%N eqn:E.
  - apply N.eqb_eq in E. destruct H. now left.
  - apply IH. intros Hin. apply H. now right.
Qed.

Lemma through_last_close_none (s : jsstring) :
  ~ In 93%N s -> through_last_close s = None.
Proof.
  induction s as [|c s IH]; simpl; intros H; [reflexivity|].
  rewrite IH by (intros Hin; apply H; now right).
  destruct (c =? 93)%N eqn:E; [|reflexivity].
  apply N.eqb_eq in E. destruct H. now left.
Qed.

Lemma through_last_close_app (inner post : jsstring) :
  ~ In 93%N post ->
  through_last_close (inner ++ 93%N :: post) = Some (inner ++ [93%N]).
Proof.
  intros H. induction inner as [|c inner IH]; simpl.
  - now rewrite through_last_close_none by exact H.
  - now rewrite IH.
Qed.

(** The match runs from the first opening bracket to the last closing one. *)
Lemma match_bracketed_spans (pre inner post : jsstring) :
  ~ In 91%N pre -> ~ In 93%N post ->
  match_bracketed (pre ++ (91%N :: inner ++ [93%N]) ++ post)
  = Some (91%N :: inner ++ [93%N]).
Proof.
  intros Hpre Hpost. unfold match_bracketed.
  replace (pre ++ (91%N :: inner ++ [93%N]) ++ post)
    with (pre ++ 91%N :: (inner ++ 93%N :: post))
    by (simpl; now rewrite <- app_assoc).
  rewrite after_first_open_app by exact Hpre.
  now rewrite through_last_close_app by exact Hpost.
Qed.

Lemma after_first_open_some (s r : jsstring) :
  after_first_open s = Some r ->
  exists pre, s = pre ++ 91%N :: r /\ ~ In 91%N pre.
Proof.
  revert r. induction s as [|c s IH]; simpl; intros r H; [discriminate|].
  destruct (c =? 91)%N eqn:E.
  - apply N.eqb_eq in E. injection H as <-. subst c. now exists [].
  - destruct (IH _ H) as (pre & -> & Hn).
    exists (c :: pre). split; [reflexivity|].
    intros [->|Hin]; [|now apply Hn]. now rewrite N.eqb_refl in E.
Qed.

Lemma through_last_close_some (s m : jsstring) :
  through_last_close s = Some m ->
  exists inner post, s = inner ++ 93%N :: post /\ m = inner ++ [93%N]
                     /\ ~ In 93%N post.
Proof.
  revert m. induction s as [|c s IH]; simpl; intros m H; [discriminate|].
  destruct (through_last_close s) as [m'|] eqn:E.
  - injection H as <-. destruct (IH _ eq_refl) as (inner & post & -> & -> & Hn).
    now exists (c :: inner), post.
  - destruct (c =? 93)%N eqn:Ec; [|discriminate].
    apply N.eqb_eq in Ec. injection H as <-. subst c.
    exists [], s. repeat split.
    intros Hin. clear IH.
    induction s as [|d s IHs]; [contradiction|].
    simpl in E. destruct (through_last_close s); [discriminate|].
    destruct (d =? 93)%N eqn:Ed; [discriminate|].
    destruct Hin as [->|Hin]; [now rewrite N.eqb_refl in Ed|].
    now apply IHs.
Qed.

(** Conversely, whatever matches has that form. *)
Lemma match_bracketed_some (content m : jsstring) :
  match_bracketed content = Some m ->
  exists pre inner post,
    content = pre ++ m ++ post /\ m = 91%N :: inner ++ [93%N] /\
    ~ In 91%N pre /\ ~ In 93%N post.
Proof.
  unfold match_bracketed. intros H.
  destruct (after_first_open content) as [r|] eqn:Ho; [|discriminate].
  destruct (through_last_close r) as [m'|] eqn:Hc; [|discriminate].
  injection H as <-.
  destruct (after_first_open_some _ Ho) as (pre & -> & Hpre).
  destruct (through_last_close_some _ Hc) as (inner & post & -> & -> & Hpost).
  exists pre, inner, post. repeat split; auto.
  simpl. now rewrite <- app_assoc.
Qed.

Lemma fallback_throws (w : world) (request content m : jsstring) (e : exn) :
  provider_content w request (JString content) ->
  (forall v, JSON.parse content <> inr v) ->
  match_bracketed content = Some m ->
  JSON.parse m = inl e ->
  snd (POST w request) = unexpected_server_error e.
Proof.
  intros Hpc Hp Hm He. rewrite (POST_content Hpc).
  unfold handle_content, parse_content. simpl ToString.
  destruct (JSON.parse content) as [e'|v]; [|now destruct (Hp v)].
  now rewrite Hm, He.
Qed.

Lemma fallback_without_brackets (w : world) (request content : jsstring) :
  provider_content w request (JString content) ->
  (forall v, JSON.parse content <> inr v) ->
  match_bracketed content = None ->
  snd (POST w request) = failed_to_parse (JString content).
Proof.
  intros Hpc Hp Hm. rewrite (POST_content Hpc).
  unfold handle_content, parse_content. simpl ToString.
  destruct (JSON.parse content) as [e'|v]; [|now destruct (Hp v)].
  now rewrite Hm.
Qed.

Lemma fallback_parses (w : world) (content m : jsstring) (parsed : value) :
  (forall v, JSON.parse content <> inr v) ->
  match_bracketed content = Some m ->
  JSON.parse m = inr parsed ->
  parse_content w (JString content) = Next parsed.
Proof.
  intros Hp Hm Hj. unfold parse_content. simpl ToString.
  destruct (JSON.parse content) as [e'|v]; [|now destruct (Hp v)].
  now rewrite Hm, Hj.
Qed.

(** C3. On the content [Here you go: [oops]] both parse attempts fail: the
    text is not JSON, and the bracketed substring the fallback extracts is
    not JSON either.  The handler answers 500 with error Unexpected server
    error and the exception's message as details, not with error Failed to
    parse model output and the raw content. *)
Theorem C3_second_parse_failure_is_uncaught :
  (forall v, JSON.parse Scenario.prose_with_bad_array <> inr v)
  /\ match_bracketed Scenario.prose_with_bad_array = Some (js "[oops]")
  /\ JSON.parse (js "[oops]") = inl (SyntaxError (js "[oops]"))
  /\ status (snd (POST (Scenario.provider_says
                          Scenario.prose_with_bad_array)
                       Scenario.request_hello)) = 500%N
  /\ payload_of (snd (POST (Scenario.provider_says
                              Scenario.prose_with_bad_array)
                           Scenario.request_hello))
     = Error (js "Unexpected server error")
             (Some (MessageOf (SyntaxError (js "[oops]")))) None
  /\ payload_of (snd (POST (Scenario.provider_says
                              Scenario.prose_with_bad_array)
                           Scenario.request_hello))
     <> Error (js "Failed to parse model output") None
              (Some (JString Scenario.prose_with_bad_array)).
Proof.
  assert (H1 : forall v, JSON.parse Scenario.prose_with_bad_array <> inr v).
  { intros v. vm_compute. discriminate. }
  assert (H2 : match_bracketed Scenario.prose_with_bad_array
               = Some (js "[oops]")) by (vm_compute; reflexivity).
  assert (H3 : JSON.parse (js "[oops]") = inl (SyntaxError (js "[oops]")))
    by (vm_compute; reflexivity).
  assert (H4 : snd (POST (Scenario.provider_says
                            Scenario.prose_with_bad_array)
                         Scenario.request_hello)
               = unexpected_server_error (SyntaxError (js "[oops]"))).
  { apply fallback_throws with (content := Scenario.prose_with_bad_array)
                               (m := js "[oops]"); auto.
    reach. }
  split; [exact H1|]. split; [exact H2|]. split; [exact H3|].
  rewrite H4.
  split; [reflexivity|]. split; [reflexivity|].
  vm_compute. discriminate.
Qed.

(** C7, as stated, fails: where the prose around the array has a bracket of
    its own, the match runs from that bracket, is not JSON, and the handler
    answers 500 with error Unexpected server error. *)
Lemma C7_bracket_in_the_prose :
  (forall v, JSON.parse Scenario.bracketed_prose_then_array <> inr v)
  /\ Scenario.bracketed_prose_then_array
     = js "Here you go [as asked]: " ++ Scenario.embedded_array
  /\ JSON.parse Scenario.embedded_array
     = inr (JArray [JObject [(js "question", JString (js "Q"));
                             (js "answer", JString (js "A"))]])
  /\ exists e,
      status (snd (POST (Scenario.provider_says
                           Scenario.bracketed_prose_then_array)
                        Scenario.request_hello)) = 500%N
      /\ payload_of (snd (POST (Scenario.provider_says
                                  Scenario.bracketed_prose_then_array)
                               Scenario.request_hello))
         = Error (js "Unexpected server error") (Some (MessageOf e)) None.
Proof.
  split; [|split; [|split]].
  - intros v. vm_compute. discriminate.
  - vm_compute. reflexivity.
  - vm_compute. reflexivity.
  - eexists. split; vm_compute; reflexivity.
Qed.

(** C7, amended. When the content is not JSON, and the text from its first
    opening bracket to its last closing bracket is a JSON array (the prose
    before it has no opening bracket, the prose after it no closing one),
    the endpoint answers with the valid items of that array, the first five
    at most, and with 500 No quizzes generated when none is valid. *)
Theorem C7_recovery_of_embedded_array :
  forall w request content pre inner post l,
    provider_content w request (JString content) ->
    (forall v, JSON.parse content <> inr v) ->
    content = pre ++ (91%N :: inner ++ [93%N]) ++ post ->
    ~ In 91%N pre ->
    ~ In 93%N post ->
    JSON.parse (91%N :: inner ++ [93%N]) = inr (JArray l) ->
    match candidates l with
    | [] =>
        status (snd (POST w request)) = 500%N
        /\ payload_of (snd (POST w request))
           = Error (js "No quizzes generated") None
                   (Some (JString content))
    | kept =>
        status (snd (POST w request)) = 200%N
        /\ payload_of (snd (POST w request)) = Quizzes (firstn 5 kept)
    end.
Proof.
  intros w request content pre inner post l Hpc Hp -> Hpre Hpost Hj.
  rewrite (POST_content Hpc).
  pose proof (match_bracketed_spans pre inner post Hpre Hpost) as Hm.
  rewrite (handle_content_parsed _ _ (fallback_parses w _ Hp Hm Hj)).
  simpl normalize. destruct (candidates l); split; reflexivity.
Qed.

Lemma C7_recovery_of_embedded_array_witness :
  status (snd (POST (Scenario.provider_says Scenario.prose_then_array)
                    Scenario.request_hello)) = 200%N
  /\ payload_of (snd (POST (Scenario.provider_says Scenario.prose_then_array)
                           Scenario.request_hello))
     = Quizzes [Scenario.qa "Q" "A"].
Proof.
  apply (@C7_recovery_of_embedded_array
           (Scenario.provider_says Scenario.prose_then_array)
           Scenario.request_hello Scenario.prose_then_array
           (js "Here you go: ")
           (jsq "{'question':'Q','answer':'A'}")
           []
           (candidate_array (Scenario.parsed_of Scenario.embedded_array))).
  - reach.
  - intros v. vm_compute. discriminate.
  - vm_compute. reflexivity.
  - vm_compute. intuition discriminate.
  - simpl. tauto.
  - vm_compute. reflexivity.
Defined.

(** ** Validation of the text *)

Lemma read_text_parsed (request : jsstring) (v : value) :
  JSON.parse request = inr v -> v <> JNull ->
  read_text request =
  match prop (js "text") v with
  | Some (JString text) =>
      if is_empty text then Return text_is_required
      else if is_empty (trim_slice text) then Return text_must_not_be_empty
           else Next (trim_slice text)
  | _ => Return text_is_required
  end.
Proof.
  intros Hp Hv. unfold read_text. rewrite Hp.
  destruct (destructure_text_cases v) as [[E _]|[_ ->]]; [contradiction|].
  reflexivity.
Qed.

(** Past validation the handler answers 200 or 500. *)
Lemma POST_after_validation (w : world) (request trimmed : jsstring)
      (r : response) :
  read_text request = Next trimmed ->
  snd (POST w request) = r ->
  status r = 200%N \/ status r = 500%N.
Proof.
  intros Ht H. apply POST_responds in H.
  destruct H as [r Hv|trimmed' _ _|r H500 _ _|e|content r Hpc Hr].
  - congruence.
  - now right.
  - now right.
  - now right.
  - inversion Hr; subst; auto.
Qed.

Lemma POST_validation_return (w : world) (request : jsstring) (r : response) :
  read_text request = Return r -> POST w request = ([], r).
Proof. intros H. now rewrite POST_unfold, H. Qed.

(** C4, as stated, fails: in a body whose text is the empty string the text
    is present and is a string, and the endpoint answers 400 text is
    required. *)
Lemma C4_empty_string_is_required :
  JSON.parse Scenario.request_empty_text
  = inr (JObject [(js "text", JString [])])
  /\ fst (POST (Scenario.provider_says Scenario.five_quizzes)
               Scenario.request_empty_text) = []
  /\ status (snd (POST (Scenario.provider_says Scenario.five_quizzes)
                       Scenario.request_empty_text)) = 400%N
  /\ payload_of (snd (POST (Scenario.provider_says Scenario.five_quizzes)
                           Scenario.request_empty_text))
     = Error (js "text is required") None None.
Proof.
  split; [|split; [|split]]; vm_compute; reflexivity.
Qed.

Lemma text_validation (w : world) (request : jsstring) (v : value) :
  JSON.parse request = inr v ->
  v <> JNull ->
  (snd (POST w request) = text_is_required
   <-> ~ exists text,
         prop (js "text") v = Some (JString text) /\ text <> [])
  /\ (forall text,
         prop (js "text") v = Some (JString text) ->
         text <> [] ->
         (snd (POST w request) = text_must_not_be_empty
          <-> trim_slice text = [])).
Proof.
  intros Hp Hv.
  pose proof (read_text_parsed _ Hp Hv) as Hr.
  assert (Hnext : forall trimmed r,
             read_text request = Next trimmed ->
             status r = 400%N ->
             snd (POST w request) <> r).
  { intros trimmed r Ht Hs H.
    destruct (POST_after_validation _ _ Ht H) as [E|E];
      rewrite E in Hs; discriminate. }
  split.
  - destruct (prop (js "text") v) as [[| | |text| |]|] eqn:Ht;
      try (rewrite (POST_validation_return _ _ Hr);
           split; [intros _ (text & [=] & _)|reflexivity]).
    destruct text as [|c t].
    + rewrite (POST_validation_return _ _ Hr).
      split; [intros _ (text & [= <-] & Hne); now apply Hne|reflexivity].
    + split.
      * intros H. exfalso. simpl in Hr.
        destruct (is_empty (trim_slice (c :: t))).
        -- rewrite (POST_validation_return _ _ Hr) in H. discriminate.
        -- now apply (Hnext _ text_is_required Hr).
      * intros H. destruct H. exists (c :: t). split; [reflexivity|discriminate].
  - intros text Ht Hne. rewrite Ht in Hr.
    destruct text as [|c t]; [congruence|]. simpl in Hr.
    destruct (is_empty (trim_slice (c :: t))) eqn:E.
    + rewrite (POST_validation_return _ _ Hr).
      split; [intros _; now apply is_empty_true|reflexivity].
    + split.
      * intros H. exfalso. now apply (Hnext _ text_must_not_be_empty Hr).
      * intros H. apply is_empty_true in H. congruence.
Qed.

(** C4, amended. For a request body that deserializes to a value other than
    null, the response has status 400 and the error text is required exactly
    when text is absent, not a string, or the empty string; when text is a
    non-empty string, validation goes on to trim and truncate, and the
    response has status 400 and the error text must not be empty exactly
    when the result is empty. *)
Theorem C4_text_validation :
  forall w request v,
    JSON.parse request = inr v ->
    v <> JNull ->
    ((status (snd (POST w request)) = 400%N
      /\ payload_of (snd (POST w request))
         = Error (js "text is required") None None)
     <-> ~ exists text,
           prop (js "text") v = Some (JString text) /\ text <> [])
    /\ (forall text,
           prop (js "text") v = Some (JString text) ->
           text <> [] ->
           ((status (snd (POST w request)) = 400%N
             /\ payload_of (snd (POST w request))
                = Error (js "text must not be empty") None None)
            <-> trim_slice text = [])).
Proof.
  intros w request v Hp Hv.
  destruct (@text_validation w request v Hp Hv) as [Hrequired Hempty].
  split.
  - apply (iff_trans (iff_sym (response_fields _ _ _))). exact Hrequired.
  - intros text Ht Hne.
    apply (iff_trans (iff_sym (response_fields _ _ _))).
    exact (Hempty text Ht Hne).
Qed.

Lemma C4_text_validation_witness :
  ((status (snd (POST Scenario.no_key_world Scenario.request_no_text))
    = 400%N
    /\ payload_of (snd (POST Scenario.no_key_world Scenario.request_no_text))
       = Error (js "text is required") None None)
   <-> ~ exists text,
         prop (js "text") (JObject []) = Some (JString text) /\ text <> [])
  /\ ((status (snd (POST Scenario.no_key_world Scenario.request_blank_text))
       = 400%N
       /\ payload_of (snd (POST Scenario.no_key_world
                                Scenario.request_blank_text))
          = Error (js "text must not be empty") None None)
      <-> trim_slice (js "   ") = []).
Proof.
  split.
  - apply (@C4_text_validation Scenario.no_key_world
             Scenario.request_no_text (JObject [])).
    + vm_compute. reflexivity.
    + discriminate.
  - apply (@C4_text_validation Scenario.no_key_world
             Scenario.request_blank_text
             (JObject [(js "text", JString (js "   "))])).
    + vm_compute. reflexivity.
    + discriminate.
    + vm_compute. reflexivity.
    + vm_compute. discriminate.
Defined.

(** ** The credential *)

(** C9, as stated, fails: validation of the text comes first, so a request
    without text gets 400 text is required also where no key is set. *)
Lemma C9_validation_comes_first :
  no_key Scenario.no_key_world
  /\ status (snd (POST Scenario.no_key_world Scenario.request_no_text))
     = 400%N
  /\ payload_of (snd (POST Scenario.no_key_world Scenario.request_no_text))
     = Error (js "text is required") None None.
Proof.
  split; [|split].
  - split; intros (c & k & H); discriminate.
  - vm_compute. reflexivity.
  - vm_compute. reflexivity.
Qed.

(** C9, amended. Where neither environment variable yields a key, the
    endpoint makes no outbound call, whatever the request; and for a request
    whose text passes validation the response has status 500 and the error
    that names the missing key and the two variables. *)
Theorem C9_missing_key :
  forall w request,
    no_key w ->
    fst (POST w request) = []
    /\ (forall trimmed,
           read_text request = Next trimmed ->
           status (snd (POST w request)) = 500%N
           /\ payload_of (snd (POST w request))
              = Error (js "Missing OpenAI API key in environment (set NEXT_PUBLIC_OPENAI_API_KEY or OPENAI_API_KEY)")
                      None None).
Proof.
  intros w request Hk. rewrite POST_unfold, (read_key_missing Hk).
  split.
  - destruct (read_text request); reflexivity.
  - intros trimmed ->. split; reflexivity.
Qed.

Lemma C9_missing_key_witness :
  fst (POST Scenario.no_key_world Scenario.request_hello) = []
  /\ status (snd (POST Scenario.no_key_world Scenario.request_hello))
     = 500%N
  /\ payload_of (snd (POST Scenario.no_key_world Scenario.request_hello))
     = Error (js "Missing OpenAI API key in environment (set NEXT_PUBLIC_OPENAI_API_KEY or OPENAI_API_KEY)")
             None None.
Proof.
  assert (Hk : no_key Scenario.no_key_world).
  { split; intros (c & k & H); discriminate. }
  destruct (@C9_missing_key Scenario.no_key_world Scenario.request_hello Hk)
    as [Hcalls Hresp].
  split; [exact Hcalls|].
  apply (Hresp (js "Hello, world.")). vm_compute. reflexivity.
Defined.

(** ** Trimming and truncating *)

Lemma handleGenerate_request (st : QuizPage.state) :
  trim_slice (QuizPage.text st) <> [] ->
  snd (QuizPage.handleGenerate st)
  = Some (JObject [(js "text", JString (trim_slice (QuizPage.text st)))]).
Proof.
  intros H. unfold QuizPage.handleGenerate, QuizPage.payload, QuizPage.MAX_LEN.
  fold (trim_slice (QuizPage.text st)).
  destruct (trim_slice (QuizPage.text st)); [congruence|reflexivity].
Qed.

Lemma read_text_trimmed (request : jsstring) (v : value) (text : jsstring) :
  JSON.parse request = inr v ->
  prop (js "text") v = Some (JString text) ->
  trim_slice text <> [] ->
  read_text request = Next (trim_slice text).
Proof.
  intros Hp Ht Hne.
  assert (Hv : v <> JNull) by (intros ->; discriminate).
  rewrite (read_text_parsed _ Hp Hv), Ht.
  destruct text as [|c t]; [now destruct Hne|]. simpl.
  destruct (trim_slice (c :: t)); [congruence|reflexivity].
Qed.

(** The text the page holds never exceeds [MAX_LEN]: every way of setting
    it cuts it. *)
Lemma page_text_bounded (st : QuizPage.state) (v : jsstring)
      (file : option (exn + jsstring)) :
  List.length (QuizPage.text st) <= QuizPage.MAX_LEN ->
  List.length (QuizPage.text (QuizPage.onChange st v)) <= QuizPage.MAX_LEN
  /\ List.length (QuizPage.text (QuizPage.handleFileChange st file))
     <= QuizPage.MAX_LEN
  /\ List.length (QuizPage.text (QuizPage.clear st)) <= QuizPage.MAX_LEN.
Proof.
  intros H. split; [|split].
  - apply firstn_le_length.
  - destruct file as [[e|content]|]; [exact H| |exact H].
    apply firstn_le_length.
  - apply Nat.le_0_l.
Qed.

Lemma payload_after_onChange (st : QuizPage.state) (v : jsstring) :
  QuizPage.payload (QuizPage.onChange st v) = trim (firstn 1000 v).
Proof.
  unfold QuizPage.payload, QuizPage.onChange, QuizPage.MAX_LEN, slice0.
  cbn [QuizPage.text].
  apply firstn_all2.
  pose proof (trim_length (firstn 1000 v)) as H1.
  pose proof (firstn_le_length 1000 v) as H2. lia.
Qed.

(** C8, as stated, fails twice.  Sent a text of 1001 characters that starts
    with a space, the endpoint does not keep its first 1000 characters: the
    space is trimmed first.  And trim-and-truncate is not idempotent: of [a],
    999 spaces, [b] the endpoint keeps [a] and 999 spaces, and of that,
    sent again, it keeps [a]. *)
Lemma C8_trim_comes_first :
  (List.length Scenario.space_then_as = 1001
   /\ read_text (Scenario.request_with Scenario.space_then_as)
      = Next (repeat 97%N 1000)
   /\ repeat 97%N 1000 <> firstn 1000 Scenario.space_then_as)
  /\ (List.length Scenario.a_spaces_b = 1001
      /\ read_text (Scenario.request_with Scenario.a_spaces_b)
         = Next (97%N :: repeat 32%N 999)
      /\ read_text (Scenario.request_with (97%N :: repeat 32%N 999))
         = Next [97%N]
      /\ trim_slice (trim_slice Scenario.a_spaces_b)
         <> trim_slice Scenario.a_spaces_b).
Proof.
  split; [split; [|split]|split; [|split; [|split]]];
    try (vm_compute; reflexivity).
  - intros H. apply (f_equal (hd 0%N)) in H. vm_compute in H. discriminate.
  - intros H. apply (f_equal (@List.length N)) in H. vm_compute in H.
    discriminate.
Qed.

(** C8, amended. The Generate handler of the page and the endpoint both trim
    the text and then keep the first 1000 characters of the trimmed text
    (the page has cut what was typed to its first 1000 characters before,
    so there the result is that cut text, trimmed): when the trimmed text is
    longer than 1000 characters the result is exactly its first 1000
    characters, which are the first 1000 characters of the input when the
    input does not start with white space.  The truncation alone is
    idempotent, and trim-and-truncate is idempotent when its output does not
    end in white space, as it does not when the trimmed text has at most
    1000 characters. *)
Theorem C8_trim_then_truncate :
  forall text,
    (forall st,
        QuizPage.text st = text -> trim_slice text <> [] ->
        snd (QuizPage.handleGenerate st)
        = Some (JObject [(js "text", JString (trim_slice text))]))
    /\ (forall st,
           QuizPage.text (QuizPage.onChange st text) = firstn 1000 text
           /\ QuizPage.payload (QuizPage.onChange st text)
              = trim (firstn 1000 text))
    /\ (forall request v,
           JSON.parse request = inr v ->
           prop (js "text") v = Some (JString text) ->
           trim_slice text <> [] ->
           read_text request = Next (trim_slice text))
    /\ (1000 < List.length (trim text) ->
        trim_slice text = firstn 1000 (trim text)
        /\ List.length (trim_slice text) = 1000)
    /\ (1000 < List.length (trim text) ->
        starts_with_space text = false ->
        trim_slice text = firstn 1000 text)
    /\ slice0 1000 (slice0 1000 text) = slice0 1000 text
    /\ (ends_with_space (trim_slice text) = false ->
        trim_slice (trim_slice text) = trim_slice text)
    /\ (List.length (trim text) <= 1000 ->
        trim_slice (trim_slice text) = trim_slice text).
Proof.
  intros text. repeat split.
  - intros st <-. apply handleGenerate_request.
  - apply payload_after_onChange.
  - intros request v. apply read_text_trimmed.
  - now apply trim_slice_long.
  - intros Hl Hs. apply trim_slice_of_unpadded; [exact Hs|lia].
  - apply slice0_idem.
  - apply trim_slice_fixed.
  - intros Hl. apply trim_slice_fixed.
    rewrite (trim_slice_short _ Hl). apply trim_ends.
Qed.

(** The page sends Hello, world. without its padding; sent 1001 times [a],
    the endpoint goes on with the first 1000. *)
Lemma C8_trim_then_truncate_witness :
  snd (QuizPage.handleGenerate
         (Scenario.page_with (js "  Hello, world.  ")))
  = Some (JObject [(js "text", JString (trim_slice (js "  Hello, world.  ")))])
  /\ read_text (Scenario.request_with Scenario.many_as)
     = Next (trim_slice Scenario.many_as)
  /\ (trim_slice Scenario.many_as = firstn 1000 (trim Scenario.many_as)
      /\ List.length (trim_slice Scenario.many_as) = 1000)
  /\ trim_slice Scenario.many_as = firstn 1000 Scenario.many_as
  /\ trim_slice (trim_slice Scenario.many_as) = trim_slice Scenario.many_as
  /\ trim_slice (trim_slice (js "  Hello, world.  "))
     = trim_slice (js "  Hello, world.  ").
Proof.
  assert (Hl : 1000 < List.length (trim Scenario.many_as)).
  { apply Nat.ltb_lt. vm_compute. reflexivity. }
  assert (Hne : trim_slice Scenario.many_as <> []).
  { intros H. apply (f_equal (@List.length N)) in H. vm_compute in H.
    discriminate. }
  destruct (C8_trim_then_truncate Scenario.many_as)
    as (_ & _ & Hserver & Hlong & Hfirst & _ & Hidem & _).
  destruct (C8_trim_then_truncate (js "  Hello, world.  "))
    as (Hpage & _ & _ & _ & _ & _ & _ & Hshort).
  split; [|split; [|split; [|split; [|split]]]].
  - apply Hpage; [reflexivity|]. vm_compute. discriminate.
  - apply (Hserver (Scenario.request_with Scenario.many_as)
                   (JObject [(js "text", JString Scenario.many_as)])).
    + vm_compute. reflexivity.
    + vm_compute. reflexivity.
    + exact Hne.
  - apply Hlong. exact Hl.
  - apply Hfirst; [exact Hl|reflexivity].
  - apply Hidem. vm_compute. reflexivity.
  - apply Hshort. apply Nat.leb_le. vm_compute. reflexivity.
Defined.

(** ** [JSON.parse] decides: the recursive descent never runs out of fuel *)

Lemma skip_ws_length (s : jsstring) :
  List.length (JSON.skip_ws s) <= List.length s.
Proof.
  induction s as [|c r IH]; simpl; [lia|].
  destruct (JSON.is_json_ws c); simpl; lia.
Qed.

Lemma skip_ws_cons (s r : jsstring) (c : N) :
  JSON.skip_ws s = c :: r -> List.length r < List.length s.
Proof.
  intros H. pose proof (skip_ws_length s) as Hl. rewrite H in Hl.
  simpl in Hl. lia.
Qed.

Lemma string_chars_length (s k r : jsstring) :
  JSON.string_chars s = Some (k, r) -> List.length r < List.length s.
Proof.
  revert k r.
  induction s as [s IH] using (well_founded_induction
                                 (Wf_nat.well_founded_ltof _ (@List.length N))).
  unfold Wf_nat.ltof in IH. intros k r H.
  destruct s as [|c s]; simpl in H; [discriminate|].
  destruct (c =? 34)%N.
  { injection H as <- <-. simpl. lia. }
  destruct (c =? 92)%N.
  - destruct s as [|e s1]; [discriminate|].
    destruct (e =? 117)%N.
    + destruct s1 as [|h1 [|h2 [|h3 [|h4 s2]]]]; try discriminate.
      destruct (JSON.hex4 h1 h2 h3 h4); [|discriminate].
      destruct (JSON.string_chars s2) as [[k' r']|] eqn:E; [|discriminate].
      injection H as <- <-. apply IH in E; simpl in *; lia.
    + destruct (JSON.escape e); [|discriminate].
      destruct (JSON.string_chars s1) as [[k' r']|] eqn:E; [|discriminate].
      injection H as <- <-. apply IH in E; simpl in *; lia.
  - destruct (c <? 32)%N; [discriminate|].
    destruct (JSON.string_chars s) as [[k' r']|] eqn:E; [|discriminate].
    injection H as <- <-. apply IH in E; simpl in *; lia.
Qed.

Lemma digits_length (s ds r : jsstring) :
  JSON.digits s = (ds, r) -> List.length r <= List.length s.
Proof.
  revert ds r. induction s as [|c s IH]; simpl; intros ds r H.
  - injection H as <- <-. simpl. lia.
  - destruct (JSON.is_digit c).
    + destruct (JSON.digits s) as [ds' r'] eqn:E. injection H as <- <-.
      specialize (IH _ _ eq_refl). lia.
    + injection H as <- <-. simpl. lia.
Qed.

Lemma number_length (s l r : jsstring) :
  JSON.number s = Some (l, r) -> List.length r < List.length s.
Proof.
  unfold JSON.number. intros H.
  destruct (JSON.number_int s) as [[i r1]|] eqn:Ei; [|discriminate].
  destruct (JSON.number_frac r1) as [[f r2]|] eqn:Ef; [|discriminate].
  destruct (JSON.number_exp r2) as [[e r3]|] eqn:Ee; [|discriminate].
  injection H as <- <-.
  assert (H1 : List.length r1 < List.length s).
  { unfold JSON.number_int in Ei.
    destruct s as [|c s]; [discriminate|].
    destruct (c =? 45)%N.
    - destruct s as [|d s]; [discriminate|].
      destruct (d =? 48)%N; [injection Ei as <- <-; simpl; lia|].
      destruct (JSON.is_digit d); [|discriminate].
      destruct (JSON.digits s) as [ds rest] eqn:E. injection Ei as <- <-.
      apply digits_length in E. simpl. lia.
    - destruct (c =? 48)%N; [injection Ei as <- <-; simpl; lia|].
      destruct (JSON.is_digit c); [|discriminate].
      destruct (JSON.digits s) as [ds rest] eqn:E. injection Ei as <- <-.
      apply digits_length in E. simpl. lia. }
  assert (H2 : List.length r2 <= List.length r1).
  { unfold JSON.number_frac in Ef.
    destruct r1 as [|c t]; [injection Ef as <- <-; lia|].
    destruct (c =? 46)%N; [|injection Ef as <- <-; lia].
    destruct (JSON.digits t) as [[|d ds] rest] eqn:E; [discriminate|].
    injection Ef as <- <-. apply digits_length in E. simpl. lia. }
  assert (H3 : List.length r3 <= List.length r2).
  { unfold JSON.number_exp in Ee.
    destruct r2 as [|c t]; [injection Ee as <- <-; lia|].
    destruct ((c =? 101) || (c =? 69))%N; [|injection Ee as <- <-; lia].
    destruct t as [|g t'].
    - simpl in Ee. discriminate.
    - destruct ((g =? 43) || (g =? 45))%N.
      + destruct (JSON.digits t') as [[|d ds] rest] eqn:E; [discriminate|].
        injection Ee as <- <-. apply digits_length in E. simpl. lia.
      + destruct (JSON.digits (g :: t')) as [[|d ds] rest] eqn:E;
          [discriminate|].
        injection Ee as <- <-. apply digits_length in E. simpl in *. lia. }
  lia.
Qed.

Lemma strip_prefix_length (p s r : jsstring) :
  JSON.strip_prefix p s = Some r ->
  List.length r + List.length p = List.length s.
Proof.
  revert s. induction p as [|a p IH]; intros [|b s] H; simpl in *;
    try discriminate; try (injection H as <-; simpl; lia).
  destruct (a =? b)%N; [|discriminate]. apply IH in H. lia.
Qed.

Lemma strip_prefix_consumes (p s r : jsstring) :
  JSON.strip_prefix p s = Some r -> is_empty p = false ->
  List.length r < List.length s.
Proof.
  intros H Hp. apply strip_prefix_length in H.
  destruct p; [discriminate|]. simpl in H. lia.
Qed.

Ltac sizes :=
  repeat match goal with
    | E : JSON.skip_ws _ = _ :: _ |- _ => apply skip_ws_cons in E
    | E : JSON.string_chars _ = Some _ |- _ => apply string_chars_length in E
    | E : JSON.number _ = Some _ |- _ => apply number_length in E
    | E : JSON.strip_prefix _ _ = Some _ |- _ =>
        apply strip_prefix_consumes in E; [|reflexivity]
    end.

Ltac split_match H :=
  repeat match type of H with
    | context [match ?x with _ => _ end] => destruct x eqn:?; try discriminate H
    end.

Lemma parse_consumes (fuel : nat) :
  (forall s v r,
      JSON.parse_value fuel s = JSON.Ok v r -> List.length r < List.length s)
  /\ (forall s vs r,
         JSON.parse_elements fuel s = JSON.Ok vs r ->
         List.length r < List.length s)
  /\ (forall s ms r,
         JSON.parse_members fuel s = JSON.Ok ms r ->
         List.length r < List.length s).
Proof.
  induction fuel as [|f (IHv & IHe & IHm)]; [repeat split; discriminate|].
  split; [|split]; intros s x r H;
    cbn [JSON.parse_value JSON.parse_elements JSON.parse_members] in H;
    split_match H; injection H as <- <-;
    repeat match goal with
      | E : JSON.parse_value f _ = JSON.Ok _ _ |- _ => apply IHv in E
      | E : JSON.parse_elements f _ = JSON.Ok _ _ |- _ => apply IHe in E
      | E : JSON.parse_members f _ = JSON.Ok _ _ |- _ => apply IHm in E
      end;
    sizes; cbn [List.length] in *; lia.
Qed.

Ltac split_goal :=
  repeat match goal with
    | |- context [match ?x with _ => _ end] => destruct x eqn:?; try discriminate
    end.

(** With fuel for twice the length of the text, the descent ends. *)
Lemma parse_has_fuel (fuel : nat) :
  (forall s, 2 * List.length s + 1 <= fuel ->
             JSON.parse_value fuel s <> JSON.OutOfFuel)
  /\ (forall s, 2 * List.length s + 2 <= fuel ->
                JSON.parse_elements fuel s <> JSON.OutOfFuel)
  /\ (forall s, 2 * List.length s + 2 <= fuel ->
                JSON.parse_members fuel s <> JSON.OutOfFuel).
Proof.
  induction fuel as [|f (IHv & IHe & IHm)].
  { repeat split; intros s H; lia. }
  destruct (parse_consumes f) as (Cv & Ce & Cm).
  split; [|split]; intros s Hf;
    cbn [JSON.parse_value JSON.parse_elements JSON.parse_members];
    split_goal;
    repeat match goal with
      | E : JSON.parse_value f _ = JSON.Ok _ _ |- _ => apply Cv in E
      | E : JSON.parse_elements f _ = JSON.Ok _ _ |- _ => apply Ce in E
      | E : JSON.parse_members f _ = JSON.Ok _ _ |- _ => apply Cm in E
      end;
    sizes; cbn [List.length] in *;
    match goal with
    | E : JSON.parse_value f ?t = JSON.OutOfFuel |- _ =>
        exfalso; apply (IHv t); [lia|exact E]
    | E : JSON.parse_elements f ?t = JSON.OutOfFuel |- _ =>
        exfalso; apply (IHe t); [lia|exact E]
    | E : JSON.parse_members f ?t = JSON.OutOfFuel |- _ =>
        exfalso; apply (IHm t); [lia|exact E]
    end.
Qed.

(** [JSON.parse] either yields a value or throws a SyntaxError on its
    argument; neither answer is an artefact of the fuel. *)
Lemma parse_decides (text : jsstring) :
  JSON.parse_value (JSON.fuel_for text) text <> JSON.OutOfFuel
  /\ ((exists v, JSON.parse text = inr v)
      \/ JSON.parse text = inl (SyntaxError text)).
Proof.
  split.
  - apply parse_has_fuel. unfold JSON.fuel_for. lia.
  - unfold JSON.parse.
    destruct (JSON.parse_value _ _) as [v rest| |]; auto.
    destruct (JSON.skip_ws rest); eauto.
Qed.

(* ================================================================== *)
(** * The rest of the handler *)

(** ** The provider refuses *)

Lemma POST_fetched (w : world) (request trimmed apiKey : jsstring)
      (res : fetch_response) :
  read_text request = Next trimmed ->
  read_key w = Next apiKey ->
  fetch w (completion_request apiKey trimmed) = inr res ->
  POST w request =
  ([completion_request apiKey trimmed],
   match read_content res with
   | Next content => settle (handle_content w content)
   | Return r => r
   | Throw e => unexpected_server_error e
   end).
Proof. intros Ht Hk Hf. now rewrite POST_unfold, Ht, Hk, Hf. Qed.

(** When the provider answers with a status that is not a success, the
    endpoint has made its one call and answers 500 OpenAI API error; the
    details are the text of the provider's body, and the status text when
    that body is empty or cannot be read. *)
Theorem provider_refusal_is_reported :
  forall w request trimmed apiKey res,
    read_text request = Next trimmed ->
    read_key w = Next apiKey ->
    fetch w (completion_request apiKey trimmed) = inr res ->
    ok res = false ->
    fst (POST w request) = [completion_request apiKey trimmed]
    /\ status (snd (POST w request)) = 500%N
    /\ payload_of (snd (POST w request))
       = Error (js "OpenAI API error")
               (Some (Text match body_text res with
                           | inr (c :: t) => c :: t
                           | _ => statusText res
                           end))
               None.
Proof.
  intros w request trimmed apiKey res Ht Hk Hf Hok.
  rewrite (POST_fetched _ _ Ht Hk Hf). unfold read_content. rewrite Hok.
  cbn [negb].
  destruct (body_text res) as [e|[|c t]];
    (split; [reflexivity|split; reflexivity]).
Qed.

Lemma provider_refusal_is_reported_witness :
  (fst (POST (Cases.provider_refuses (js "Unauthorized") (js "invalid key"))
             Scenario.request_hello)
   = [completion_request (js "sk-test") (js "Hello, world.")]
   /\ status (snd (POST (Cases.provider_refuses (js "Unauthorized")
                                                (js "invalid key"))
                        Scenario.request_hello)) = 500%N
   /\ payload_of (snd (POST (Cases.provider_refuses (js "Unauthorized")
                                                    (js "invalid key"))
                            Scenario.request_hello))
      = Error (js "OpenAI API error") (Some (Text (js "invalid key"))) None)
  /\ (fst (POST (Cases.provider_refuses (js "Unauthorized") [])
                Scenario.request_hello)
      = [completion_request (js "sk-test") (js "Hello, world.")]
      /\ status (snd (POST (Cases.provider_refuses (js "Unauthorized") [])
                           Scenario.request_hello)) = 500%N
      /\ payload_of (snd (POST (Cases.provider_refuses (js "Unauthorized")
                                                       [])
                               Scenario.request_hello))
         = Error (js "OpenAI API error") (Some (Text (js "Unauthorized")))
                 None).
Proof.
  split.
  - apply (@provider_refusal_is_reported
             (Cases.provider_refuses (js "Unauthorized") (js "invalid key"))
             Scenario.request_hello (js "Hello, world.") (js "sk-test")
             {| ok := false; statusText := js "Unauthorized";
                body_text := inr (js "invalid key") |});
      vm_compute; reflexivity.
  - apply (@provider_refusal_is_reported
             (Cases.provider_refuses (js "Unauthorized") [])
             Scenario.request_hello (js "Hello, world.") (js "sk-test")
             {| ok := false; statusText := js "Unauthorized";
                body_text := inr [] |});
      vm_compute; reflexivity.
Defined.

(** ** Which key is sent *)

Lemma read_key_public (w : world) (k : jsstring) :
  NEXT_PUBLIC_OPENAI_API_KEY w = Some k -> k <> [] -> read_key w = Next k.
Proof.
  unfold read_key, env_or. intros -> Hk.
  destruct k; [now destruct Hk|reflexivity].
Qed.

Lemma read_key_private (w : world) (k : jsstring) :
  ~ yields_key (NEXT_PUBLIC_OPENAI_API_KEY w) ->
  OPENAI_API_KEY w = Some k -> k <> [] -> read_key w = Next k.
Proof.
  unfold read_key, env_or, yields_key. intros Hn -> Hk.
  destruct (NEXT_PUBLIC_OPENAI_API_KEY w) as [[|c p]|].
  - destruct k; [now destruct Hk|reflexivity].
  - destruct Hn. now exists c, p.
  - destruct k; [now destruct Hk|reflexivity].
Qed.

Lemma POST_calls_with (w : world) (request trimmed apiKey : jsstring) :
  read_text request = Next trimmed ->
  read_key w = Next apiKey ->
  fst (POST w request) = [completion_request apiKey trimmed].
Proof. intros Ht Hk. now rewrite POST_unfold, Ht, Hk. Qed.

(** For a request that passes validation: when the public-prefixed
    variable is set and not empty, its value is the bearer token of the
    call, whatever the other variable holds; when it is unset or empty, the
    value of the other variable is. *)
Theorem public_key_comes_first :
  forall w request trimmed,
    read_text request = Next trimmed ->
    (forall k,
        NEXT_PUBLIC_OPENAI_API_KEY w = Some k -> k <> [] ->
        fst (POST w request) = [completion_request k trimmed]
        /\ List.map Authorization (fst (POST w request))
           = [js "Bearer " ++ k])
    /\ (forall k,
           ~ yields_key (NEXT_PUBLIC_OPENAI_API_KEY w) ->
           OPENAI_API_KEY w = Some k -> k <> [] ->
           fst (POST w request) = [completion_request k trimmed]
           /\ List.map Authorization (fst (POST w request))
              = [js "Bearer " ++ k]).
Proof.
  intros w request trimmed Ht. split.
  - intros k Hp Hk.
    rewrite (POST_calls_with _ _ Ht (read_key_public _ Hp Hk)).
    split; reflexivity.
  - intros k Hn Hp Hk.
    rewrite (POST_calls_with _ _ Ht (read_key_private _ Hn Hp Hk)).
    split; reflexivity.
Qed.

Lemma public_key_comes_first_witness :
  (fst (POST Cases.two_keys Scenario.request_hello)
   = [completion_request (js "pk-public") (js "Hello, world.")]
   /\ List.map Authorization (fst (POST Cases.two_keys Scenario.request_hello))
      = [js "Bearer " ++ js "pk-public"])
  /\ (fst (POST Cases.empty_public_key Scenario.request_hello)
      = [completion_request (js "sk-private") (js "Hello, world.")]
      /\ List.map Authorization
           (fst (POST Cases.empty_public_key Scenario.request_hello))
         = [js "Bearer " ++ js "sk-private"]).
Proof.
  split.
  - assert (Ht : read_text Scenario.request_hello = Next (js "Hello, world."))
      by (vm_compute; reflexivity).
    destruct (@public_key_comes_first Cases.two_keys _ _ Ht) as [Hpub _].
    apply Hpub; [reflexivity|vm_compute; discriminate].
  - assert (Ht : read_text Scenario.request_hello = Next (js "Hello, world."))
      by (vm_compute; reflexivity).
    destruct (@public_key_comes_first Cases.empty_public_key _ _ Ht)
      as [_ Hpriv].
    apply Hpriv.
    + intros (c & k & H). discriminate.
    + reflexivity.
    + vm_compute. discriminate.
Defined.

(** ** What an outbound call carries *)

Lemma trim_slice_starts (text : jsstring) :
  starts_with_space (trim_slice text) = false.
Proof.
  unfold trim_slice, slice0. apply starts_with_space_firstn, trim_starts.
Qed.

(** A call of the handler is the only call of its run.  Its key is not
    empty and is the value of one of the two variables; its text is the
    text of the request, trimmed and cut: it has 1 to 1000 characters and
    does not start with white space. *)
Theorem outbound_call_is_bounded :
  forall w request call,
    In call (fst (POST w request)) ->
    exists apiKey body text,
      fst (POST w request) = [call]
      /\ call = completion_request apiKey (trim_slice text)
      /\ apiKey <> []
      /\ (NEXT_PUBLIC_OPENAI_API_KEY w = Some apiKey
          \/ OPENAI_API_KEY w = Some apiKey)
      /\ JSON.parse request = inr body
      /\ prop (js "text") body = Some (JString text)
      /\ 1 <= List.length (trim_slice text) <= 1000
      /\ starts_with_space (trim_slice text) = false.
Proof.
  intros w request call Hin. rewrite POST_unfold in *.
  destruct (read_text request) as [trimmed|r|e] eqn:Ht;
    try (simpl in Hin; contradiction).
  destruct (read_text_next _ Ht) as (body & text & Hp & Hprop & _ & -> & Hne).
  destruct (read_key_cases w) as [(apiKey & Hk & Hkne & Henv)|[Hk _]];
    rewrite Hk in *; [|simpl in Hin; contradiction].
  simpl in Hin. destruct Hin as [<-|[]].
  exists apiKey, body, text. simpl fst.
  repeat split; auto.
  - tauto.
  - destruct (trim_slice text); [congruence|simpl; lia].
  - apply trim_slice_length.
  - apply trim_slice_starts.
Qed.

Lemma outbound_call_is_bounded_witness :
  exists apiKey body text,
    fst (POST (Scenario.provider_says Scenario.five_quizzes)
              Scenario.request_hello)
    = [completion_request (js "sk-test") (js "Hello, world.")]
    /\ completion_request (js "sk-test") (js "Hello, world.")
       = completion_request apiKey (trim_slice text)
    /\ apiKey <> []
    /\ (NEXT_PUBLIC_OPENAI_API_KEY
          (Scenario.provider_says Scenario.five_quizzes) = Some apiKey
        \/ OPENAI_API_KEY
             (Scenario.provider_says Scenario.five_quizzes) = Some apiKey)
    /\ JSON.parse Scenario.request_hello = inr body
    /\ prop (js "text") body = Some (JString text)
    /\ 1 <= List.length (trim_slice text) <= 1000
    /\ starts_with_space (trim_slice text) = false.
Proof.
  apply (@outbound_call_is_bounded
           (Scenario.provider_says Scenario.five_quizzes)
           Scenario.request_hello
           (completion_request (js "sk-test") (js "Hello, world."))).
  left. vm_compute. reflexivity.
Defined.

(** ** The prompt *)

Lemma join_last (sep : jsstring) (ls : list jsstring) (t : jsstring) :
  join sep (ls ++ [t]) = join sep (ls ++ [[]]) ++ t.
Proof.
  induction ls as [|l ls IH]; [reflexivity|].
  change ((l :: ls) ++ [t]) with (l :: (ls ++ [t])).
  change ((l :: ls) ++ [[]]) with (l :: (ls ++ [[]])).
  destruct ls as [|l' ls].
  - simpl. now rewrite <- !app_assoc.
  - change (join sep (l :: (l' :: ls) ++ [t]))
      with (l ++ sep ++ join sep ((l' :: ls) ++ [t])).
    change (join sep (l :: (l' :: ls) ++ [[]]))
      with (l ++ sep ++ join sep ((l' :: ls) ++ [[]])).
    rewrite IH. now rewrite <- !app_assoc.
Qed.

Lemma userPrompt_preamble (trimmed : jsstring) :
  userPrompt trimmed = prompt_preamble ++ trimmed.
Proof.
  unfold prompt_preamble, userPrompt.
  match goal with
  | |- _ = join _ ?lines ++ _ =>
      exact (join_last [10%N] (removelast lines) trimmed)
  end.
Qed.

Lemma completion_request_inj (apiKey trimmed apiKey' trimmed' : jsstring) :
  (Authorization (completion_request apiKey trimmed)
   = Authorization (completion_request apiKey' trimmed') ->
   apiKey = apiKey')
  /\ (body (completion_request apiKey trimmed)
      = body (completion_request apiKey' trimmed') ->
      trimmed = trimmed').
Proof.
  split; intros H.
  - cbn [Authorization completion_request] in H.
    now apply app_inv_head in H.
  - cbn [body completion_request] in H.
    rewrite !userPrompt_preamble in H.
    injection H as H. first [exact H | now apply app_inv_head in H].
Qed.

(** The call carries the text and the key, and nothing else that varies.
    Of two runs that pass validation with a key, in whatever environments
    and on whatever request bodies: when their trimmed texts differ, so do
    the bodies of their calls; when their keys differ, so do the
    Authorization headers; and when trimmed text and key are the same, the
    calls are the same. *)
Theorem call_carries_the_text_and_the_key :
  forall w request trimmed apiKey w' request' trimmed' apiKey',
    read_text request = Next trimmed ->
    read_key w = Next apiKey ->
    read_text request' = Next trimmed' ->
    read_key w' = Next apiKey' ->
    (trimmed <> trimmed' ->
     List.map body (fst (POST w request))
     <> List.map body (fst (POST w' request')))
    /\ (apiKey <> apiKey' ->
        List.map Authorization (fst (POST w request))
        <> List.map Authorization (fst (POST w' request')))
    /\ (trimmed = trimmed' -> apiKey = apiKey' ->
        fst (POST w request) = fst (POST w' request')).
Proof.
  intros w request trimmed apiKey w' request' trimmed' apiKey' Ht Hk Ht' Hk'.
  rewrite (POST_calls_with _ _ Ht Hk), (POST_calls_with _ _ Ht' Hk').
  destruct (completion_request_inj apiKey trimmed apiKey' trimmed')
    as [Ha Hb].
  split; [|split].
  - intros Hne H. apply Hne, Hb. cbn [List.map] in H. now injection H.
  - intros Hne H. apply Hne, Ha. cbn [List.map] in H. now injection H.
  - now intros -> ->.
Qed.

(** Two texts and two keys; and the same text with and without padding. *)
Lemma call_carries_the_text_and_the_key_witness :
  List.map body (fst (POST (Scenario.provider_says Scenario.five_quizzes)
                           Scenario.request_hello))
  <> List.map body (fst (POST Cases.two_keys Cases.request_short))
  /\ List.map Authorization
              (fst (POST (Scenario.provider_says Scenario.five_quizzes)
                         Scenario.request_hello))
     <> List.map Authorization
                 (fst (POST Cases.two_keys Cases.request_short))
  /\ fst (POST (Scenario.provider_says Scenario.five_quizzes)
               Scenario.request_hello)
     = fst (POST (Scenario.provider_says Scenario.six_quizzes)
                 Cases.request_unpadded).
Proof.
  destruct (@call_carries_the_text_and_the_key
              (Scenario.provider_says Scenario.five_quizzes)
              Scenario.request_hello (js "Hello, world.") (js "sk-test")
              Cases.two_keys Cases.request_short
              (js "Hello") (js "pk-public"))
    as (Hbody & Hkey & _); try (vm_compute; reflexivity).
  destruct (@call_carries_the_text_and_the_key
              (Scenario.provider_says Scenario.five_quizzes)
              Scenario.request_hello (js "Hello, world.") (js "sk-test")
              (Scenario.provider_says Scenario.six_quizzes)
              Cases.request_unpadded
              (js "Hello, world.") (js "sk-test"))
    as (_ & _ & Hsame); try (vm_compute; reflexivity).
  split; [|split].
  - apply Hbody. intros H. vm_compute in H. discriminate.
  - apply Hkey. intros H. vm_compute in H. discriminate.
  - apply Hsame; reflexivity.
Defined.

(** ** Where the content comes from *)

Lemma content_of_message (data msg : value) :
  first_message data = Some msg ->
  content_of data =
  match nullish (prop (js "content") msg)
                (nullish (tool_arguments msg) (Some (JString []))) with
  | Some v => v
  | None => JString []
  end.
Proof.
  intros Hm. unfold content_of, tool_arguments. rewrite Hm.
  destruct msg; reflexivity.
Qed.

Lemma content_of_no_message (data : value) :
  nullish_value (first_message data) -> content_of data = JString [].
Proof. unfold content_of. intros [-> | ->]; reflexivity. Qed.

Lemma read_content_ok (res : fetch_response) (t : jsstring) (data : value) :
  ok res = true -> body_text res = inr t -> JSON.parse t = inr data ->
  read_content res = Next (content_of data).
Proof. unfold read_content. now intros -> -> ->. Qed.

(** The message's content comes before the tool call: a content that is
    not null is what the endpoint parses, whatever the tool calls hold; the
    arguments of the first tool call are parsed only when the content is
    null or absent. *)
Theorem content_comes_before_tool_calls :
  forall w request trimmed apiKey res t data msg,
    read_text request = Next trimmed ->
    read_key w = Next apiKey ->
    fetch w (completion_request apiKey trimmed) = inr res ->
    ok res = true ->
    body_text res = inr t ->
    JSON.parse t = inr data ->
    first_message data = Some msg ->
    (forall c,
        prop (js "content") msg = Some c -> c <> JNull ->
        snd (POST w request) = settle (handle_content w c))
    /\ (forall a,
           nullish_value (prop (js "content") msg) ->
           tool_arguments msg = Some a -> a <> JNull ->
           snd (POST w request) = settle (handle_content w a)).
Proof.
  intros w request trimmed apiKey res t data msg Ht Hk Hf Hok Hb Hp Hm.
  rewrite (POST_fetched _ _ Ht Hk Hf), (read_content_ok _ Hok Hb Hp).
  rewrite (content_of_message _ Hm). cbn [snd]. split.
  - intros c -> Hc. destruct c; try reflexivity. now destruct Hc.
  - intros a [-> | ->] -> Ha; destruct a; try reflexivity; now destruct Ha.
Qed.

Lemma content_comes_before_tool_calls_witness :
  snd (POST (Cases.provider_body Cases.both_body) Scenario.request_hello)
  = settle (handle_content (Cases.provider_body Cases.both_body)
                           (JString Scenario.embedded_array))
  /\ snd (POST (Cases.provider_body Cases.tool_call_body)
               Scenario.request_hello)
     = settle (handle_content (Cases.provider_body Cases.tool_call_body)
                              (JString Scenario.embedded_array)).
Proof.
  split.
  - refine (proj1 (@content_comes_before_tool_calls
                     (Cases.provider_body Cases.both_body)
                     Scenario.request_hello (js "Hello, world.")
                     (js "sk-test")
                     {| ok := true; statusText := js "OK";
                        body_text := inr Cases.both_body |}
                     Cases.both_body (Scenario.parsed_of Cases.both_body)
                     (match first_message
                              (Scenario.parsed_of Cases.both_body) with
                      | Some m => m
                      | None => JNull
                      end) _ _ _ _ _ _ _)
                  (JString Scenario.embedded_array) _ _);
      first [discriminate | vm_compute; reflexivity].
  - refine (proj2 (@content_comes_before_tool_calls
                     (Cases.provider_body Cases.tool_call_body)
                     Scenario.request_hello (js "Hello, world.")
                     (js "sk-test")
                     {| ok := true; statusText := js "OK";
                        body_text := inr Cases.tool_call_body |}
                     Cases.tool_call_body
                     (Scenario.parsed_of Cases.tool_call_body)
                     (match first_message
                              (Scenario.parsed_of Cases.tool_call_body) with
                      | Some m => m
                      | None => JNull
                      end) _ _ _ _ _ _ _)
                  (JString Scenario.embedded_array) _ _ _);
      first [discriminate | right; vm_compute; reflexivity
            | vm_compute; reflexivity].
Defined.

(** When the provider's answer has no first message, or a message with
    neither content nor tool-call arguments, the content is the empty string
    and the endpoint answers 500 Failed to parse model output, with the empty
    string as raw. *)
Theorem no_content_fails_to_parse :
  forall w request trimmed apiKey res t data,
    read_text request = Next trimmed ->
    read_key w = Next apiKey ->
    fetch w (completion_request apiKey trimmed) = inr res ->
    ok res = true ->
    body_text res = inr t ->
    JSON.parse t = inr data ->
    (nullish_value (first_message data)
     \/ exists msg,
         first_message data = Some msg /\
         nullish_value (prop (js "content") msg) /\
         nullish_value (tool_arguments msg)) ->
    status (snd (POST w request)) = 500%N
    /\ payload_of (snd (POST w request))
       = Error (js "Failed to parse model output") None (Some (JString [])).
Proof.
  intros w request trimmed apiKey res t data Ht Hk Hf Hok Hb Hp Hnone.
  rewrite (POST_fetched _ _ Ht Hk Hf), (read_content_ok _ Hok Hb Hp).
  assert (Hc : content_of data = JString []).
  { destruct Hnone as [H|(msg & Hm & Hcn & Han)].
    - now apply content_of_no_message.
    - rewrite (content_of_message _ Hm).
      destruct Hcn as [-> | ->], Han as [-> | ->]; reflexivity. }
  rewrite Hc. split; reflexivity.
Qed.

Lemma no_content_fails_to_parse_witness :
  (status (snd (POST (Cases.provider_body (js "{}"))
                     Scenario.request_hello)) = 500%N
   /\ payload_of (snd (POST (Cases.provider_body (js "{}"))
                            Scenario.request_hello))
      = Error (js "Failed to parse model output") None (Some (JString [])))
  /\ (status (snd (POST (Cases.provider_body
                           (jsq "{'choices':[{'message':{'role':'assistant'}}]}"))
                        Scenario.request_hello)) = 500%N
      /\ payload_of (snd (POST (Cases.provider_body
                                  (jsq "{'choices':[{'message':{'role':'assistant'}}]}"))
                               Scenario.request_hello))
         = Error (js "Failed to parse model output") None
                 (Some (JString []))).
Proof.
  split.
  - apply (@no_content_fails_to_parse
             (Cases.provider_body (js "{}")) Scenario.request_hello
             (js "Hello, world.") (js "sk-test")
             {| ok := true; statusText := js "OK";
                body_text := inr (js "{}") |}
             (js "{}") (JObject []));
      try (vm_compute; reflexivity).
    left. left. reflexivity.
  - apply (@no_content_fails_to_parse
             (Cases.provider_body
                (jsq "{'choices':[{'message':{'role':'assistant'}}]}"))
             Scenario.request_hello
             (js "Hello, world.") (js "sk-test")
             {| ok := true; statusText := js "OK";
                body_text :=
                  inr (jsq "{'choices':[{'message':{'role':'assistant'}}]}") |}
             (jsq "{'choices':[{'message':{'role':'assistant'}}]}")
             (Scenario.parsed_of
                (jsq "{'choices':[{'message':{'role':'assistant'}}]}")));
      try (vm_compute; reflexivity).
    right. exists (JObject [(js "role", JString (js "assistant"))]).
    split; [vm_compute; reflexivity|].
    split; left; vm_compute; reflexivity.
Defined.

(** ** A content that is not a string *)

(** The source takes the content to be a string.  A content that is a JSON
    object is never read as one: its text is [object Object], which is not
    JSON, and an object has no [match], so the endpoint answers 500
    Unexpected server error, even when the object holds well-formed
    quizzes. *)
Theorem object_content_is_never_read :
  forall w request props,
    provider_content w request (JObject props) ->
    status (snd (POST w request)) = 500%N
    /\ payload_of (snd (POST w request))
       = Error (js "Unexpected server error")
               (Some (MessageOf TypeError_match_is_not_a_function)) None.
Proof.
  intros w request props H. rewrite (POST_content H).
  unfold handle_content, parse_content. cbn [ToString].
  destruct (JSON.parse (js "[object Object]")) as [e|v] eqn:E;
    [split; reflexivity|].
  vm_compute in E. discriminate.
Qed.

Lemma object_content_is_never_read_witness :
  status (snd (POST (Cases.provider_body Cases.object_content_body)
                    Scenario.request_hello)) = 500%N
  /\ payload_of (snd (POST (Cases.provider_body Cases.object_content_body)
                           Scenario.request_hello))
     = Error (js "Unexpected server error")
             (Some (MessageOf TypeError_match_is_not_a_function)) None.
Proof.
  apply (@object_content_is_never_read
           (Cases.provider_body Cases.object_content_body)
           Scenario.request_hello
           [(js "quizzes",
             JArray [JObject [(js "question", JString (js "Q"));
                              (js "answer", JString (js "A"))]])]).
  reach.
Defined.

(** ** Exceptions *)

(** Whatever throws inside the handler ends as a 500 Unexpected server
    error that carries the exception: a request body that is not JSON or is
    null (before any call), a failing fetch, and a provider body that cannot
    be read or is not JSON (after the one call). *)
Theorem exceptions_are_caught :
  forall w request,
    (forall e, JSON.parse request = inl e ->
               fst (POST w request) = []
               /\ status (snd (POST w request)) = 500%N
               /\ payload_of (snd (POST w request))
                  = Error (js "Unexpected server error")
                          (Some (MessageOf e)) None)
    /\ (JSON.parse request = inr JNull ->
        fst (POST w request) = []
        /\ status (snd (POST w request)) = 500%N
        /\ payload_of (snd (POST w request))
           = Error (js "Unexpected server error")
                   (Some (MessageOf TypeError_destructure_null)) None)
    /\ (forall trimmed apiKey,
           read_text request = Next trimmed ->
           read_key w = Next apiKey ->
           (forall e,
               fetch w (completion_request apiKey trimmed) = inl e ->
               fst (POST w request) = [completion_request apiKey trimmed]
               /\ status (snd (POST w request)) = 500%N
               /\ payload_of (snd (POST w request))
                  = Error (js "Unexpected server error")
                          (Some (MessageOf e)) None)
           /\ (forall res e,
                  fetch w (completion_request apiKey trimmed) = inr res ->
                  ok res = true -> body_text res = inl e ->
                  fst (POST w request) = [completion_request apiKey trimmed]
                  /\ status (snd (POST w request)) = 500%N
                  /\ payload_of (snd (POST w request))
                     = Error (js "Unexpected server error")
                             (Some (MessageOf e)) None)
           /\ (forall res t e,
                  fetch w (completion_request apiKey trimmed) = inr res ->
                  ok res = true -> body_text res = inr t ->
                  JSON.parse t = inl e ->
                  fst (POST w request) = [completion_request apiKey trimmed]
                  /\ status (snd (POST w request)) = 500%N
                  /\ payload_of (snd (POST w request))
                     = Error (js "Unexpected server error")
                             (Some (MessageOf e)) None)).
Proof.
  intros w request. split; [|split].
  - intros e He. rewrite POST_unfold. unfold read_text. rewrite He.
    split; [reflexivity|split; reflexivity].
  - intros He. rewrite POST_unfold. unfold read_text. rewrite He.
    split; [reflexivity|split; reflexivity].
  - intros trimmed apiKey Ht Hk. split; [|split].
    + intros e Hf. rewrite POST_unfold, Ht, Hk, Hf.
      split; [reflexivity|split; reflexivity].
    + intros res e Hf Hok Hb. rewrite (POST_fetched _ _ Ht Hk Hf).
      unfold read_content. rewrite Hok, Hb.
      split; [reflexivity|split; reflexivity].
    + intros res t e Hf Hok Hb Hp. rewrite (POST_fetched _ _ Ht Hk Hf).
      unfold read_content. rewrite Hok, Hb, Hp.
      split; [reflexivity|split; reflexivity].
Qed.

Lemma exceptions_are_caught_witness :
  (fst (POST Cases.unreachable (js "{'text': oops")) = []
   /\ status (snd (POST Cases.unreachable (js "{'text': oops"))) = 500%N
   /\ payload_of (snd (POST Cases.unreachable (js "{'text': oops")))
      = Error (js "Unexpected server error")
              (Some (MessageOf (SyntaxError (js "{'text': oops")))) None)
  /\ (fst (POST Cases.unreachable Scenario.request_null) = []
      /\ status (snd (POST Cases.unreachable Scenario.request_null))
         = 500%N
      /\ payload_of (snd (POST Cases.unreachable Scenario.request_null))
         = Error (js "Unexpected server error")
                 (Some (MessageOf TypeError_destructure_null)) None)
  /\ (fst (POST Cases.unreachable Scenario.request_hello)
      = [completion_request (js "sk-test") (js "Hello, world.")]
      /\ status (snd (POST Cases.unreachable Scenario.request_hello))
         = 500%N
      /\ payload_of (snd (POST Cases.unreachable Scenario.request_hello))
         = Error (js "Unexpected server error")
                 (Some (MessageOf (Rejected (js "fetch failed")))) None)
  /\ (fst (POST (Cases.provider_body (js "<html>")) Scenario.request_hello)
      = [completion_request (js "sk-test") (js "Hello, world.")]
      /\ status (snd (POST (Cases.provider_body (js "<html>"))
                           Scenario.request_hello)) = 500%N
      /\ payload_of (snd (POST (Cases.provider_body (js "<html>"))
                               Scenario.request_hello))
         = Error (js "Unexpected server error")
                 (Some (MessageOf (SyntaxError (js "<html>")))) None).
Proof.
  split; [|split; [|split]].
  - apply (proj1 (exceptions_are_caught Cases.unreachable _)).
    vm_compute. reflexivity.
  - apply (proj1 (proj2 (exceptions_are_caught Cases.unreachable _))).
    vm_compute. reflexivity.
  - refine (proj1 (proj2 (proj2 (exceptions_are_caught
                                   Cases.unreachable Scenario.request_hello))
                         (js "Hello, world.") (js "sk-test") _ _) _ _);
      vm_compute; reflexivity.
  - refine (proj2 (proj2 (proj2 (proj2
              (exceptions_are_caught (Cases.provider_body (js "<html>"))
                                     Scenario.request_hello))
              (js "Hello, world.") (js "sk-test") _ _))
              {| ok := true; statusText := js "OK";
                 body_text := inr (js "<html>") |}
              (js "<html>") _ _ _ _ _);
      vm_compute; reflexivity.
Defined.

(** ** The three kinds of response *)

Lemma error_messages_not_empty :
  error_of text_is_required <> []
  /\ error_of text_must_not_be_empty <> []
  /\ error_of missing_api_key <> []
  /\ (forall d, error_of (openai_api_error d) <> [])
  /\ (forall e, error_of (unexpected_server_error e) <> [])
  /\ (forall c, error_of (failed_to_parse c) <> [])
  /\ (forall c, error_of (no_quizzes_generated c) <> []).
Proof.
  repeat split; intros; vm_compute; discriminate.
Qed.

Lemma POST_kinds (w : world) (request : jsstring) :
  (status (snd (POST w request)) = 400%N
   /\ fst (POST w request) = []
   /\ (snd (POST w request) = text_is_required
       \/ snd (POST w request) = text_must_not_be_empty))
  \/ (status (snd (POST w request)) = 500%N
      /\ error_of (snd (POST w request)) <> []
      /\ forall qs, payload_of (snd (POST w request)) <> Quizzes qs)
  \/ (status (snd (POST w request)) = 200%N
      /\ List.length (fst (POST w request)) = 1
      /\ exists qs, snd (POST w request) = success qs).
Proof.
  destruct error_messages_not_empty as (E1 & E2 & E3 & E4 & E5 & E6 & E7).
  assert (Hcatch : forall e,
             status (unexpected_server_error e) = 500%N
             /\ error_of (unexpected_server_error e) <> []
             /\ forall qs, payload_of (unexpected_server_error e) <> Quizzes qs).
  { intros e. repeat split; [apply E5|discriminate]. }
  rewrite POST_unfold.
  destruct (read_text request) as [trimmed|r|e] eqn:Ht; cbn [fst snd].
  - destruct (read_key_cases w) as [(apiKey & Hk & _)|[Hk _]]; rewrite Hk;
      cbn [fst snd].
    + destruct (fetch w _) as [e|res]; [right; left; apply Hcatch|].
      destruct (read_content res) as [content|r|e] eqn:Hc.
      * pose proof (handle_content_result w content) as Hr.
        destruct (handle_content w content) as [r|r|e]; cbn [settle].
        -- inversion Hr.
        -- inversion Hr as [s0 Hs0 Hn Hm| |parsed Hp Hn|parsed Hp Hn]; subst.
           ++ right. left. repeat split; [apply E6|discriminate].
           ++ right. left. repeat split; [apply E7|discriminate].
           ++ right. right. repeat split. eexists. reflexivity.
        -- right. left. apply Hcatch.
      * destruct (read_content_returns _ Hc) as [d ->].
        right. left. repeat split; [apply E4|discriminate].
      * right. left. apply Hcatch.
    + right. left. repeat split; [apply E3|discriminate].
  - left. destruct (read_text_returns _ Ht) as [-> | ->];
      repeat split; auto.
  - right. left. apply Hcatch.
Qed.

(** Every response is of one of three kinds.  A 400 is one of the two
    validation errors and comes before any call.  A 500 carries an error
    message that is not empty, and no quizzes.  A 200 carries quizzes, no
    error, and comes after exactly one call. *)
Theorem responses_are_of_three_kinds :
  forall w request,
    (status (snd (POST w request)) = 400%N
     /\ fst (POST w request) = []
     /\ (payload_of (snd (POST w request))
         = Error (js "text is required") None None
         \/ payload_of (snd (POST w request))
            = Error (js "text must not be empty") None None))
    \/ (status (snd (POST w request)) = 500%N
        /\ error_of (snd (POST w request)) <> []
        /\ forall qs, payload_of (snd (POST w request)) <> Quizzes qs)
    \/ (status (snd (POST w request)) = 200%N
        /\ List.length (fst (POST w request)) = 1
        /\ exists qs, payload_of (snd (POST w request)) = Quizzes qs).
Proof.
  intros w request.
  destruct (POST_kinds w request)
    as [(H4 & Hc & Hr)|[H5|(H2 & Hc & qs & Hq)]].
  - left. split; [exact H4|]. split; [exact Hc|].
    destruct Hr as [-> | ->]; [left|right]; reflexivity.
  - right. left. exact H5.
  - right. right. split; [exact H2|]. split; [exact Hc|].
    exists qs. now rewrite Hq.
Qed.

Lemma responses_are_of_three_kinds_witness :
  status (snd (POST Scenario.no_key_world Scenario.request_hello)) = 500%N
  /\ error_of (snd (POST Scenario.no_key_world Scenario.request_hello)) <> []
  /\ forall qs,
      payload_of (snd (POST Scenario.no_key_world Scenario.request_hello))
      <> Quizzes qs.
Proof.
  destruct (responses_are_of_three_kinds Scenario.no_key_world
                                         Scenario.request_hello)
    as [(H & _)|[H|(H & _)]].
  - vm_compute in H. discriminate.
  - exact H.
  - vm_compute in H. discriminate.
Defined.

(** ** When parsing is given up *)

Lemma through_last_close_in (s : jsstring) :
  In 93%N s -> through_last_close s <> None.
Proof.
  induction s as [|c s IH]; [contradiction|].
  intros Hin. simpl. destruct (through_last_close s) as [m|]; [discriminate|].
  destruct Hin as [->|Hin]; [discriminate|]. now destruct (IH Hin).
Qed.

Lemma after_first_open_keeps (pre x : jsstring) :
  exists y, after_first_open (pre ++ 91%N :: x) = Some (y ++ x).
Proof.
  induction pre as [|c pre [y IH]]; simpl.
  - now exists [].
  - destruct (c =? 91)%N.
    + exists (pre ++ [91%N]). now rewrite <- app_assoc.
    + now exists y.
Qed.

(** No match: no opening bracket with a closing bracket after it. *)
Lemma match_bracketed_none (content : jsstring) :
  match_bracketed content = None <->
  ~ exists pre mid post, content = pre ++ 91%N :: mid ++ 93%N :: post.
Proof.
  split.
  - intros Hm (pre & mid & post & ->).
    unfold match_bracketed in Hm.
    destruct (after_first_open_keeps pre (mid ++ 93%N :: post)) as [y Hy].
    rewrite Hy in Hm.
    destruct (through_last_close (y ++ mid ++ 93%N :: post)) eqn:E;
      [discriminate|].
    apply (@through_last_close_in (y ++ mid ++ 93%N :: post)); [|exact E].
    rewrite !in_app_iff. right. right. now left.
  - intros Hn. destruct (match_bracketed content) as [m|] eqn:E;
      [|reflexivity].
    destruct Hn.
    destruct (match_bracketed_some _ E) as (pre & inner & post & -> & -> & _).
    exists pre, inner, post. simpl. now rewrite <- app_assoc.
Qed.

Lemma error_of_differs (r r' : response) :
  error_of r <> error_of r' -> r <> r'.
Proof. intros H ->. now apply H. Qed.

Lemma parsing_given_up (w : world) (request content : jsstring) :
  provider_content w request (JString content) ->
  (snd (POST w request) = failed_to_parse (JString content)
   <-> (forall v, JSON.parse content <> inr v)
       /\ ~ exists pre mid post,
             content = pre ++ 91%N :: mid ++ 93%N :: post).
Proof.
  intros Hpc. rewrite (POST_content Hpc).
  rewrite <- match_bracketed_none. split.
  - intros H. pose proof (handle_content_result w (JString content)) as Hr.
    destruct (handle_content w (JString content)) as [r|r|e];
      cbn [settle] in H.
    + inversion Hr.
    + subst r.
      inversion Hr as [s0 Hs0 Hn Hm|e He Hx|parsed Hp Hn Hx|parsed Hp Hn Hx];
        [injection Hs0 as <-; now split|..];
        exfalso; revert Hx; apply error_of_differs; vm_compute; discriminate.
    + exfalso. revert H. apply error_of_differs. vm_compute. discriminate.
  - intros [Hn Hm]. unfold handle_content, parse_content. simpl ToString.
    destruct (JSON.parse content) as [e|v]; [|now destruct (Hn v)].
    now rewrite Hm.
Qed.

(** For a content that is a string, the response has status 500, the error
    Failed to parse model output and the content as raw exactly when the
    content is not JSON and has no opening bracket with a closing bracket
    somewhere after it. *)
Theorem parsing_is_given_up_exactly :
  forall w request content,
    provider_content w request (JString content) ->
    ((status (snd (POST w request)) = 500%N
      /\ payload_of (snd (POST w request))
         = Error (js "Failed to parse model output") None
                 (Some (JString content)))
     <-> (forall v, JSON.parse content <> inr v)
         /\ ~ exists pre mid post,
               content = pre ++ 91%N :: mid ++ 93%N :: post).
Proof.
  intros w request content Hpc.
  apply (iff_trans (iff_sym (response_fields _ _ _))).
  exact (@parsing_given_up w request content Hpc).
Qed.

Lemma parsing_is_given_up_exactly_witness :
  (status (snd (POST (Scenario.provider_says Scenario.no_brackets)
                     Scenario.request_hello)) = 500%N
   /\ payload_of (snd (POST (Scenario.provider_says Scenario.no_brackets)
                            Scenario.request_hello))
      = Error (js "Failed to parse model output") None
              (Some (JString Scenario.no_brackets)))
  <-> (forall v, JSON.parse Scenario.no_brackets <> inr v)
      /\ ~ exists pre mid post,
            Scenario.no_brackets = pre ++ 91%N :: mid ++ 93%N :: post.
Proof.
  apply (@parsing_is_given_up_exactly
           (Scenario.provider_says Scenario.no_brackets)
           Scenario.request_hello Scenario.no_brackets).
  reach.
Defined.

(** ** Blank text *)

Lemma trimStart_nil (s : jsstring) : trimStart s = [] <-> blank s.
Proof.
  unfold blank. induction s as [|c s IH]; simpl.
  - split; [constructor|reflexivity].
  - destruct (is_whitespace c) eqn:E.
    + rewrite IH. split; [now constructor|now inversion 1].
    + split; [discriminate|].
      intros H. apply Forall_inv in H. cbv beta in H. congruence.
Qed.

Lemma blank_rev (s : jsstring) : blank (rev s) <-> blank s.
Proof.
  unfold blank. rewrite !Forall_forall.
  split; intros H c Hc; apply H; [now apply in_rev in Hc|now apply in_rev].
Qed.

Lemma trim_nil (s : jsstring) : trim s = [] <-> blank s.
Proof.
  split.
  - intros H. unfold trim, trimEnd in H.
    apply (f_equal (@rev N)) in H. rewrite rev_involutive in H. simpl in H.
    apply trimStart_nil in H. apply (proj1 (blank_rev _)) in H.
    pose proof (trimStart_starts s) as Hs.
    destruct (trimStart s) as [|c r] eqn:E; [now apply trimStart_nil|].
    apply Forall_inv in H. cbv beta in H. simpl in Hs. congruence.
  - intros H. apply trimStart_nil in H. unfold trim. now rewrite H.
Qed.

Lemma trim_slice_nil (s : jsstring) : trim_slice s = [] <-> blank s.
Proof. rewrite trim_slice_empty. apply trim_nil. Qed.

Lemma blank_text_rejected (w : world) (request : jsstring) (body : value)
      (text : jsstring) :
  JSON.parse request = inr body ->
  prop (js "text") body = Some (JString text) ->
  text <> [] ->
  (POST w request = ([], text_must_not_be_empty) <-> blank text).
Proof.
  intros Hp Ht Hne.
  assert (Hb : body <> JNull) by (intros ->; discriminate).
  pose proof (read_text_parsed _ Hp Hb) as Hr. rewrite Ht in Hr.
  destruct text as [|c t]; [congruence|]. cbn [is_empty] in Hr.
  rewrite <- trim_slice_nil.
  destruct (trim_slice (c :: t)) as [|c' t'] eqn:E; cbn [is_empty] in Hr.
  - rewrite (POST_validation_return _ _ Hr). split; reflexivity.
  - split; [|discriminate]. intros H. exfalso.
    assert (Hs : snd (POST w request) = text_must_not_be_empty)
      by now rewrite H.
    destruct (POST_after_validation _ _ Hr Hs); discriminate.
Qed.

(** A request whose text is a string that is not empty gets status 400 and
    the error text must not be empty, before any call, exactly when every
    character of the text is white space. *)
Theorem blank_text_is_rejected :
  forall w request body text,
    JSON.parse request = inr body ->
    prop (js "text") body = Some (JString text) ->
    text <> [] ->
    ((fst (POST w request) = []
      /\ status (snd (POST w request)) = 400%N
      /\ payload_of (snd (POST w request))
         = Error (js "text must not be empty") None None)
     <-> blank text).
Proof.
  intros w request body text Hp Ht Hne.
  pose proof (@blank_text_rejected w request body text Hp Ht Hne) as H.
  split.
  - intros (Hc & Hs). apply H.
    apply response_fields in Hs.
    destruct (POST w request) as [calls r]. cbn [fst snd] in Hc, Hs.
    now rewrite Hc, Hs.
  - intros Hb. apply H in Hb. rewrite Hb.
    split; [reflexivity|split; reflexivity].
Qed.

Lemma blank_text_is_rejected_witness :
  (fst (POST Scenario.no_key_world Scenario.request_blank_text) = []
   /\ status (snd (POST Scenario.no_key_world Scenario.request_blank_text))
      = 400%N
   /\ payload_of (snd (POST Scenario.no_key_world
                            Scenario.request_blank_text))
      = Error (js "text must not be empty") None None)
  <-> blank (js "   ").
Proof.
  apply (@blank_text_is_rejected Scenario.no_key_world
           Scenario.request_blank_text
           (JObject [(js "text", JString (js "   "))]) (js "   ")).
  - vm_compute. reflexivity.
  - vm_compute. reflexivity.
  - vm_compute. discriminate.
Defined.

(* ================================================================== *)
(** * The page *)

(** ** Bounds *)

Lemma step_keeps_bounds (eng : Page.engine) (st : Page.state)
      (ev : Page.event) :
  List.length (Page.text st) <= 1000 /\ List.length (Page.quizzes st) <= 5 ->
  List.length (Page.text (Page.step eng st ev)) <= 1000
  /\ List.length (Page.quizzes (Page.step eng st ev)) <= 5.
Proof.
  intros [Ht Hq]. destruct ev as [v|file| |r|]; cbn [Page.step].
  - split; [apply firstn_le_length|exact Hq].
  - destruct file as [[e|content]|]; cbn [Page.handleFileChange]; split; auto.
    apply firstn_le_length.
  - unfold Page.start. destruct (is_empty (Page.payload st)); cbn; split;
      auto; lia.
  - unfold Page.finish. destruct r as [e|res]; [split; auto|].
    destruct (Page.res_json res) as [e|data]; [split; auto|].
    destruct (negb (Page.res_ok res)); split; auto.
    apply firstn_le_length.
  - cbn. split; lia.
Qed.

Lemma run_keeps_bounds (eng : Page.engine) (evs : list Page.event) :
  List.length (Page.text (Page.run eng evs)) <= 1000
  /\ List.length (Page.quizzes (Page.run eng evs)) <= 5.
Proof.
  unfold Page.run.
  assert (H : List.length (Page.text Page.initial) <= 1000
              /\ List.length (Page.quizzes Page.initial) <= 5)
    by (cbn; lia).
  revert H. generalize Page.initial.
  induction evs as [|ev evs IH]; intros st H; [exact H|].
  cbn [fold_left]. apply IH. now apply step_keeps_bounds.
Qed.

(** Whatever is typed, loaded, clicked or received, in whatever order, the
    page never holds more than 1000 characters of text nor more than five
    quizzes. *)
Theorem page_keeps_its_bounds :
  forall eng evs,
    List.length (Page.text (Page.run eng evs)) <= 1000
    /\ List.length (Page.quizzes (Page.run eng evs)) <= 5.
Proof. exact run_keeps_bounds. Qed.

(** ** Generate *)

Lemma payload_nil (st : Page.state) :
  Page.payload st = [] <-> blank (Page.text st).
Proof. apply trim_slice_nil. Qed.

(** Generate sends no request exactly when the text is blank; it then sets
    the error and changes nothing else.  The button is enabled only when the
    text is not blank, so a click on an enabled button always sends the
    trimmed text, with loading set, error and quizzes cleared. *)
Theorem blank_text_sends_nothing :
  forall st,
    (snd (Page.start st) = None <-> blank (Page.text st))
    /\ (blank (Page.text st) ->
        fst (Page.start st)
        = Page.mkState (Page.text st) (Page.quizzes st) (Page.loading st)
                       (Some Page.empty_text_message))
    /\ (Page.disabled st = false ->
        Page.payload st <> []
        /\ Page.start st
           = (Page.mkState (Page.text st) [] true None,
              Some (JObject [(js "text", JString (Page.payload st))]))).
Proof.
  intros st. split; [|split].
  - rewrite <- payload_nil. unfold Page.start.
    destruct (Page.payload st); cbn; split; congruence.
  - intros Hb. apply payload_nil in Hb. unfold Page.start. now rewrite Hb.
  - intros Hd. unfold Page.disabled in Hd.
    apply orb_false_iff in Hd. destruct Hd as [_ Hd].
    apply Nat.eqb_neq in Hd.
    assert (Hp : Page.payload st <> []).
    { intros Hp. apply payload_nil, trim_nil in Hp. rewrite Hp in Hd.
      now apply Hd. }
    split; [exact Hp|]. unfold Page.start.
    destruct (Page.payload st); [now destruct Hp|reflexivity].
Qed.

Lemma blank_text_sends_nothing_witness :
  fst (Page.start (Cases.page (js "   ")))
  = Page.mkState (js "   ") [] false (Some Page.empty_text_message)
  /\ (Page.payload (Cases.page (js " Hello ")) <> []
      /\ Page.start (Cases.page (js " Hello "))
         = (Page.mkState (js " Hello ") [] true None,
            Some (JObject [(js "text",
                            JString (Page.payload
                                       (Cases.page (js " Hello "))))]))).
Proof.
  split.
  - apply (proj1 (proj2 (blank_text_sends_nothing (Cases.page (js "   "))))).
    vm_compute. repeat constructor.
  - apply (proj2 (proj2 (blank_text_sends_nothing
                           (Cases.page (js " Hello "))))).
    vm_compute. reflexivity.
Defined.

Lemma handleGenerate_sent (eng : Page.engine) (api : value -> exn + Page.reply)
      (st : Page.state) (body : value) :
  snd (Page.handleGenerate eng api st) = Some body ->
  Page.payload st <> []
  /\ body = JObject [(js "text", JString (Page.payload st))]
  /\ fst (Page.handleGenerate eng api st)
     = Page.finish eng (Page.mkState (Page.text st) [] true None) (api body).
Proof.
  unfold Page.handleGenerate, Page.start.
  destruct (Page.payload st) as [|c p]; cbn; [discriminate|].
  intros [= <-]. repeat split. discriminate.
Qed.



(** When the endpoint refuses, the page shows the endpoint's own error
    message if that is a string that is not empty, and its general API error
    message if the reply has no error field, or a null or empty one. *)
Theorem refusal_is_shown :
  forall eng api st body res data,
    snd (Page.handleGenerate eng api st) = Some body ->
    api body = inr res ->
    Page.res_ok res = false ->
    Page.res_json res = inr data ->
    (forall m,
        prop (js "error") data = Some (JString m) -> m <> [] ->
        Page.error (fst (Page.handleGenerate eng api st)) = Some m)
    /\ (nullish_value (prop (js "error") data)
        \/ prop (js "error") data = Some (JString []) ->
        Page.error (fst (Page.handleGenerate eng api st))
        = Some Page.api_error_message).
Proof.
  intros eng api st body res data H Ha Hok Hj.
  destruct (handleGenerate_sent _ _ _ H) as (_ & _ & ->).
  unfold Page.finish. rewrite Ha, Hj, Hok. cbn [negb Page.error].
  unfold Page.thrown_message.
  assert (He : opt_chain (Some data) (prop (js "error"))
               = prop (js "error") data) by (destruct data; reflexivity).
  rewrite He. split.
  - intros m -> Hm. destruct m; [now destruct Hm|reflexivity].
  - intros [[-> | ->] | ->]; reflexivity.
Qed.

Lemma refusal_is_shown_witness :
  Page.error (fst (Page.handleGenerate Cases.engine
                     (Cases.answers Cases.refusal)
                     (Cases.page (js " Hello "))))
  = Some (js "No quizzes generated")
  /\ Page.error (fst (Page.handleGenerate Cases.engine
                        (Cases.answers Cases.bare_refusal)
                        (Cases.page (js " Hello "))))
     = Some Page.api_error_message.
Proof.
  split.
  - refine (proj1 (@refusal_is_shown Cases.engine
                     (Cases.answers Cases.refusal)
                     (Cases.page (js " Hello "))
                     (JObject [(js "text", JString (js "Hello"))])
                     Cases.refusal
                     (JObject [(js "error",
                                JString (js "No quizzes generated"));
                               (js "raw", JString (js "[]"))])
                     _ _ _ _) (js "No quizzes generated") _ _);
      first [vm_compute; reflexivity | vm_compute; discriminate].
  - refine (proj2 (@refusal_is_shown Cases.engine
                     (Cases.answers Cases.bare_refusal)
                     (Cases.page (js " Hello "))
                     (JObject [(js "text", JString (js "Hello"))])
                     Cases.bare_refusal (JObject [])
                     _ _ _ _) _);
      first [vm_compute; reflexivity | left; left; reflexivity].
Defined.

(* ================================================================== *)
(** * [JSON.stringify] and [JSON.parse] *)

(** ** Strings *)

Lemma hex_digit_char (d : N) :
  (d < 16)%N -> JSON.hex_digit (hex_char d) = Some d.
Proof.
  intros Hd. unfold JSON.hex_digit, JSON.is_digit, hex_char.
  destruct (d <? 10)%N eqn:E.
  - apply N.ltb_lt in E.
    replace ((48 <=? 48 + d) && (48 + d <=? 57))%N with true.
    + f_equal. lia.
    + symmetry. apply andb_true_iff. split; apply N.leb_le; lia.
  - apply N.ltb_ge in E.
    replace ((48 <=? 87 + d) && (87 + d <=? 57))%N with false.
    + replace ((97 <=? 87 + d) && (87 + d <=? 102))%N with true.
      * f_equal. lia.
      * symmetry. apply andb_true_iff. split; apply N.leb_le; lia.
    + symmetry. apply andb_false_iff. right. apply N.leb_gt. lia.
Qed.

Lemma hex4_unicode_escape (c : N) :
  (c < 65536)%N ->
  JSON.hex4 (hex_char (c / 4096)) (hex_char ((c / 256) mod 16))
            (hex_char ((c / 16) mod 16)) (hex_char (c mod 16))
  = Some c.
Proof.
  intros Hc. unfold JSON.hex4.
  assert (H1 : (c / 4096 < 16)%N)
    by (apply N.Div0.div_lt_upper_bound; lia).
  assert (H2 : ((c / 256) mod 16 < 16)%N) by (apply N.mod_lt; lia).
  assert (H3 : ((c / 16) mod 16 < 16)%N) by (apply N.mod_lt; lia).
  assert (H4 : (c mod 16 < 16)%N) by (apply N.mod_lt; lia).
  rewrite !hex_digit_char by assumption. f_equal.
  pose proof (N.div_mod c 16 ltac:(lia)) as E1.
  pose proof (N.div_mod (c / 16) 16 ltac:(lia)) as E2.
  pose proof (N.div_mod (c / 256) 16 ltac:(lia)) as E3.
  replace (c / 16 / 16)%N with (c / 256)%N in E2
    by (rewrite N.Div0.div_div; reflexivity).
  replace (c / 256 / 16)%N with (c / 4096)%N in E3
    by (rewrite N.Div0.div_div; reflexivity).
  lia.
Qed.

Lemma string_chars_escape (c : N) (s : jsstring) :
  (c < 65536)%N ->
  JSON.string_chars (unicode_escape c ++ s)
  = JSON.push c (JSON.string_chars s).
Proof.
  intros Hc. unfold unicode_escape.
  cbn [app JSON.string_chars].
  change (92 =? 34)%N with false. change (92 =? 92)%N with true.
  change (117 =? 117)%N with true. cbv iota.
  now rewrite (hex4_unicode_escape Hc).
Qed.

Lemma string_chars_plain (c : N) (s : jsstring) :
  (c =? 34)%N = false -> (c =? 92)%N = false -> (c <? 32)%N = false ->
  JSON.string_chars (c :: s) = JSON.push c (JSON.string_chars s).
Proof. intros H1 H2 H3. cbn [JSON.string_chars]. now rewrite H1, H2, H3. Qed.

Lemma string_chars_short (e u : N) (s : jsstring) :
  (e =? 117)%N = false -> JSON.escape e = Some u ->
  JSON.string_chars (92%N :: e :: s) = JSON.push u (JSON.string_chars s).
Proof.
  intros H1 H2. cbn [JSON.string_chars].
  change (92 =? 34)%N with false. change (92 =? 92)%N with true.
  cbv iota. now rewrite H1, H2.
Qed.

(** What QuoteJSONString writes, [JSON.parse] reads back. *)
Lemma string_chars_quote (s rest : jsstring) :
  JSON.string_chars (quote_chars s ++ 34%N :: rest) = Some (s, rest).
Proof.
  induction s as [s IH] using (well_founded_induction
                                 (Wf_nat.well_founded_ltof _ (@List.length N))).
  unfold Wf_nat.ltof in IH.
  destruct s as [|c r]; [reflexivity|].
  assert (IHr : JSON.string_chars (quote_chars r ++ 34%N :: rest)
                = Some (r, rest)) by (apply IH; simpl; lia).
  cbn [quote_chars].
  destruct (c =? 8)%N eqn:E8.
  { apply N.eqb_eq in E8. subst c. cbn [app].
    rewrite (@string_chars_short 98 8); [now rewrite IHr|reflexivity..]. }
  destruct (c =? 9)%N eqn:E9.
  { apply N.eqb_eq in E9. subst c. cbn [app].
    rewrite (@string_chars_short 116 9); [now rewrite IHr|reflexivity..]. }
  destruct (c =? 10)%N eqn:E10.
  { apply N.eqb_eq in E10. subst c. cbn [app].
    rewrite (@string_chars_short 110 10); [now rewrite IHr|reflexivity..]. }
  destruct (c =? 12)%N eqn:E12.
  { apply N.eqb_eq in E12. subst c. cbn [app].
    rewrite (@string_chars_short 102 12); [now rewrite IHr|reflexivity..]. }
  destruct (c =? 13)%N eqn:E13.
  { apply N.eqb_eq in E13. subst c. cbn [app].
    rewrite (@string_chars_short 114 13); [now rewrite IHr|reflexivity..]. }
  destruct (c =? 34)%N eqn:E34.
  { apply N.eqb_eq in E34. subst c. cbn [app].
    rewrite (@string_chars_short 34 34); [now rewrite IHr|reflexivity..]. }
  destruct (c =? 92)%N eqn:E92.
  { apply N.eqb_eq in E92. subst c. cbn [app].
    rewrite (@string_chars_short 92 92); [now rewrite IHr|reflexivity..]. }
  destruct (c <? 32)%N eqn:E32.
  { apply N.ltb_lt in E32. rewrite <- app_assoc.
    rewrite string_chars_escape by lia. now rewrite IHr. }
  destruct (is_lead c) eqn:El.
  { unfold is_lead in El. apply andb_true_iff in El. destruct El as [L1 L2].
    apply N.leb_le in L1, L2.
    destruct r as [|d r'].
    - rewrite string_chars_escape by lia. reflexivity.
    - destruct (is_trail d) eqn:Et.
      + unfold is_trail in Et. apply andb_true_iff in Et.
        destruct Et as [T1 T2]. apply N.leb_le in T1, T2.
        cbn [app].
        rewrite string_chars_plain by assumption.
        rewrite string_chars_plain
          by (first [apply N.eqb_neq | apply N.ltb_ge]; lia).
        rewrite IH by (simpl; lia). reflexivity.
      + rewrite <- app_assoc. rewrite string_chars_escape by lia.
        now rewrite IHr. }
  destruct (is_trail c) eqn:Et.
  { unfold is_trail in Et. apply andb_true_iff in Et. destruct Et as [T1 T2].
    apply N.leb_le in T1, T2. rewrite <- app_assoc.
    rewrite string_chars_escape by lia. now rewrite IHr. }
  cbn [app]. rewrite string_chars_plain by assumption. now rewrite IHr.
Qed.

(** ** More fuel changes nothing *)

Ltac more_fuel f IHv IHe IHm H :=
  repeat
    match type of H with
    | context [match JSON.parse_value f ?r with _ => _ end] =>
        let E := fresh "E" in
        destruct (JSON.parse_value f r) eqn:E;
        [ rewrite (IHv _ _ E) by discriminate
        | rewrite (IHv _ _ E) by discriminate
        | ]
    | context [match JSON.parse_elements f ?r with _ => _ end] =>
        let E := fresh "E" in
        destruct (JSON.parse_elements f r) eqn:E;
        [ rewrite (IHe _ _ E) by discriminate
        | rewrite (IHe _ _ E) by discriminate
        | ]
    | context [match JSON.parse_members f ?r with _ => _ end] =>
        let E := fresh "E" in
        destruct (JSON.parse_members f r) eqn:E;
        [ rewrite (IHm _ _ E) by discriminate
        | rewrite (IHm _ _ E) by discriminate
        | ]
    | context [match ?x with _ => _ end] => destruct x eqn:?
    end.

Lemma parse_more_fuel (fuel : nat) :
  (forall s res,
      JSON.parse_value fuel s = res -> res <> JSON.OutOfFuel ->
      JSON.parse_value (S fuel) s = res)
  /\ (forall s res,
         JSON.parse_elements fuel s = res -> res <> JSON.OutOfFuel ->
         JSON.parse_elements (S fuel) s = res)
  /\ (forall s res,
         JSON.parse_members fuel s = res -> res <> JSON.OutOfFuel ->
         JSON.parse_members (S fuel) s = res).
Proof.
  induction fuel as [|f (IHv & IHe & IHm)].
  { repeat split; intros s res H Hn; simpl in H; congruence. }
  split; [|split]; intros s res H Hn;
    remember (S f) as g eqn:Hg in |- *;
    cbn [JSON.parse_value JSON.parse_elements JSON.parse_members];
    subst g;
    cbn [JSON.parse_value JSON.parse_elements JSON.parse_members] in H;
    more_fuel f IHv IHe IHm H; congruence.
Qed.

Lemma parse_value_more_fuel (k fuel : nat) (s : jsstring) :
  JSON.parse_value fuel s <> JSON.OutOfFuel ->
  JSON.parse_value (k + fuel) s = JSON.parse_value fuel s.
Proof.
  intros H. induction k as [|k IH]; [reflexivity|].
  cbn [Nat.add]. apply (proj1 (parse_more_fuel (k + fuel))); congruence.
Qed.

(** A result found with some fuel is the result of [JSON.parse]. *)
Lemma parse_with_any_fuel (fuel : nat) (text : jsstring) (v : value) :
  JSON.parse_value fuel text = JSON.Ok v [] -> JSON.parse text = inr v.
Proof.
  intros H. unfold JSON.parse.
  pose proof (proj1 (parse_decides text)) as Hd.
  assert (E : JSON.parse_value (JSON.fuel_for text) text = JSON.Ok v []).
  { pose proof (@parse_value_more_fuel fuel (JSON.fuel_for text) text Hd) as H1.
    assert (H2 : JSON.parse_value fuel text <> JSON.OutOfFuel) by congruence.
    pose proof (@parse_value_more_fuel (JSON.fuel_for text) fuel text H2) as H3.
    rewrite Nat.add_comm in H3. congruence. }
  now rewrite E.
Qed.

(** ** Values *)

Ltac parser_step :=
  cbn [JSON.parse_value JSON.parse_elements JSON.parse_members JSON.skip_ws
       JSON.is_json_ws N.eqb Pos.eqb orb].

Lemma pv_null (f : nat) (rest : jsstring) :
  JSON.parse_value (S f) (js "null" ++ rest) = JSON.Ok JNull rest.
Proof. vm_compute. reflexivity. Qed.

Lemma pv_true (f : nat) (rest : jsstring) :
  JSON.parse_value (S f) (js "true" ++ rest) = JSON.Ok (JBool true) rest.
Proof. vm_compute. reflexivity. Qed.

Lemma pv_false (f : nat) (rest : jsstring) :
  JSON.parse_value (S f) (js "false" ++ rest) = JSON.Ok (JBool false) rest.
Proof. vm_compute. reflexivity. Qed.

Lemma pv_string (f : nat) (s rest : jsstring) :
  JSON.parse_value (S f) (QuoteJSONString s ++ rest)
  = JSON.Ok (JString s) rest.
Proof.
  unfold QuoteJSONString. cbn [app]. parser_step.
  rewrite <- app_assoc. cbn [app]. now rewrite string_chars_quote.
Qed.

Lemma pv_array_empty (f : nat) (rest : jsstring) :
  JSON.parse_value (S f) (91%N :: 93%N :: rest) = JSON.Ok (JArray []) rest.
Proof. parser_step. reflexivity. Qed.

Lemma pv_object_empty (f : nat) (rest : jsstring) :
  JSON.parse_value (S f) (123%N :: 125%N :: rest)
  = JSON.Ok (JObject []) rest.
Proof. parser_step. reflexivity. Qed.

Lemma pv_array (f : nat) (c : N) (t : jsstring) :
  JSON.is_json_ws c = false -> (c =? 93)%N = false ->
  JSON.parse_value (S f) (91%N :: c :: t)
  = match JSON.parse_elements f (c :: t) with
    | JSON.Ok vs rest => JSON.Ok (JArray vs) rest
    | JSON.Bad => JSON.Bad
    | JSON.OutOfFuel => JSON.OutOfFuel
    end.
Proof.
  intros Hws H93.
  cbn [JSON.parse_value JSON.skip_ws]. change (JSON.is_json_ws 91) with false.
  cbv iota. change (91 =? 123)%N with false. change (91 =? 91)%N with true.
  cbv iota. cbn [JSON.skip_ws]. now rewrite Hws, H93.
Qed.

Lemma pv_object (f : nat) (t : jsstring) :
  JSON.parse_value (S f) (123%N :: 34%N :: t)
  = match JSON.parse_members f (34%N :: t) with
    | JSON.Ok ms rest => JSON.Ok (JSON.make_object ms) rest
    | JSON.Bad => JSON.Bad
    | JSON.OutOfFuel => JSON.OutOfFuel
    end.
Proof. parser_step. reflexivity. Qed.

Lemma pe_last (f : nat) (s rest : jsstring) (v : value) :
  JSON.parse_value f s = JSON.Ok v (93%N :: rest) ->
  JSON.parse_elements (S f) s = JSON.Ok [v] rest.
Proof. intros H. cbn [JSON.parse_elements]. rewrite H. parser_step. reflexivity. Qed.

Lemma pe_more (f : nat) (s r rest : jsstring) (v : value) (vs : list value) :
  JSON.parse_value f s = JSON.Ok v (44%N :: r) ->
  JSON.parse_elements f r = JSON.Ok vs rest ->
  JSON.parse_elements (S f) s = JSON.Ok (v :: vs) rest.
Proof.
  intros H1 H2. cbn [JSON.parse_elements]. rewrite H1. parser_step.
  now rewrite H2.
Qed.

Lemma pm_last (f : nat) (k r rest : jsstring) (v : value) :
  JSON.parse_value f r = JSON.Ok v (125%N :: rest) ->
  JSON.parse_members (S f) (QuoteJSONString k ++ 58%N :: r)
  = JSON.Ok [(k, v)] rest.
Proof.
  intros H. unfold QuoteJSONString. cbn [app]. parser_step.
  rewrite <- app_assoc. cbn [app]. rewrite string_chars_quote.
  parser_step. rewrite H. parser_step. reflexivity.
Qed.

Lemma pm_more (f : nat) (k r r' rest : jsstring) (v : value)
      (ms : list (jsstring * value)) :
  JSON.parse_value f r = JSON.Ok v (44%N :: r') ->
  JSON.parse_members f r' = JSON.Ok ms rest ->
  JSON.parse_members (S f) (QuoteJSONString k ++ 58%N :: r)
  = JSON.Ok ((k, v) :: ms) rest.
Proof.
  intros H1 H2. unfold QuoteJSONString. cbn [app]. parser_step.
  rewrite <- app_assoc. cbn [app]. rewrite string_chars_quote.
  parser_step. rewrite H1. parser_step. now rewrite H2.
Qed.

(** The first character of the text of a plain value. *)
Lemma stringify_head (nt : jsstring -> jsstring) (v : value) :
  plain v ->
  exists c t,
    JSON_stringify nt v = c :: t
    /\ JSON.is_json_ws c = false /\ (c =? 93)%N = false.
Proof.
  intros Hv. destruct Hv as [|[|]|s|items _|props _ _].
  - exists 110%N, (js "ull"). repeat split.
  - exists 116%N, (js "rue"). repeat split.
  - exists 102%N, (js "alse"). repeat split.
  - exists 34%N, (quote_chars s ++ [34%N]). repeat split.
  - eexists 91%N, _. repeat split.
  - eexists 123%N, _. repeat split.
Qed.

Lemma jsstring_eqb_eq (a b : jsstring) : jsstring_eqb a b = true <-> a = b.
Proof.
  unfold jsstring_eqb. destruct (list_eq_dec N.eq_dec a b); split;
    congruence.
Qed.

Lemma set_prop_new (k : jsstring) (v : value) (o : list (jsstring * value)) :
  ~ In k (List.map fst o) -> JSON.set_prop k v o = o ++ [(k, v)].
Proof.
  induction o as [|[k' v'] o IH]; intros Hn; [reflexivity|].
  cbn [JSON.set_prop]. destruct (jsstring_eqb k k') eqn:E.
  - apply jsstring_eqb_eq in E. subst. destruct Hn. now left.
  - cbn [app]. rewrite IH; [reflexivity|]. intros Hin. apply Hn. now right.
Qed.

Lemma make_object_distinct (ms : list (jsstring * value)) :
  NoDup (List.map fst ms) -> JSON.make_object ms = JObject ms.
Proof.
  unfold JSON.make_object. intros Hnd. f_equal.
  enough (H : forall acc,
             NoDup (List.map fst (acc ++ ms)) ->
             fold_left (fun o kv => JSON.set_prop (fst kv) (snd kv) o) ms acc
             = acc ++ ms) by (apply (H [] Hnd)).
  clear Hnd. induction ms as [|[k v] ms IH]; intros acc Hnd.
  - cbn. now rewrite app_nil_r.
  - cbn [fold_left fst snd]. rewrite set_prop_new.
    + rewrite IH; rewrite <- app_assoc; [reflexivity|exact Hnd].
    + rewrite map_app in Hnd. cbn in Hnd.
      apply NoDup_remove_2 in Hnd. intros Hin. apply Hnd.
      apply in_or_app. now left.
Qed.

Lemma elements_parse_back (str : value -> jsstring) (items : list value) :
  items <> [] ->
  Forall (parses_back str) items ->
  forall rest,
  exists f0, forall f,
      f0 <= f ->
      JSON.parse_elements
        f (join (js ",") (List.map str items) ++ 93%N :: rest)
      = JSON.Ok items rest.
Proof.
  induction items as [|x items IH]; [congruence|].
  intros _ Hall rest. inversion Hall as [|? ? Hx Hrest]; subst.
  destruct items as [|y items].
  - destruct (Hx (93%N :: rest)) as [f0 Hf0].
    exists (S f0). intros [|f] Hf; [lia|].
    cbn [List.map join]. apply pe_last. apply Hf0. lia.
  - destruct (IH ltac:(discriminate) Hrest rest) as [f1 Hf1].
    destruct (Hx (44%N :: join (js ",") (List.map str (y :: items))
                    ++ 93%N :: rest)) as [f0 Hf0].
    exists (S (Nat.max f0 f1)). intros [|f] Hf; [lia|].
    change (join (js ",") (List.map str (x :: y :: items)))
      with (str x ++ [44%N] ++ join (js ",") (List.map str (y :: items))).
    rewrite <- !app_assoc. cbn [app].
    eapply pe_more; [apply Hf0|apply Hf1]; lia.
Qed.

Lemma members_parse_back (str : value -> jsstring)
      (props : list (jsstring * value)) :
  props <> [] ->
  Forall (fun kv => parses_back str (snd kv)) props ->
  forall rest,
  exists f0, forall f,
      f0 <= f ->
      JSON.parse_members
        f (join (js ",") (List.map (member_text str) props) ++ 125%N :: rest)
      = JSON.Ok props rest.
Proof.
  induction props as [|[k x] props IH]; [congruence|].
  intros _ Hall rest. inversion Hall as [|? ? Hx Hrest]; subst.
  cbn [snd] in Hx.
  destruct props as [|kv props].
  - destruct (Hx (125%N :: rest)) as [f0 Hf0].
    exists (S f0). intros [|f] Hf; [lia|].
    cbn [List.map join member_text]. rewrite <- app_assoc. cbn [app].
    apply pm_last. apply Hf0. lia.
  - destruct (IH ltac:(discriminate) Hrest rest) as [f1 Hf1].
    destruct (Hx (44%N :: join (js ",")
                             (List.map (member_text str) (kv :: props))
                    ++ 125%N :: rest)) as [f0 Hf0].
    exists (S (Nat.max f0 f1)). intros [|f] Hf; [lia|].
    change (join (js ",") (List.map (member_text str) ((k, x) :: kv :: props)))
      with ((QuoteJSONString k ++ 58%N :: str x) ++ [44%N]
            ++ join (js ",") (List.map (member_text str) (kv :: props))).
    repeat (rewrite <- app_assoc || rewrite <- app_comm_cons). cbn [app].
    eapply pm_more; [apply Hf0|apply Hf1]; lia.
Qed.

Lemma stringify_array (nt : jsstring -> jsstring) (items : list value) :
  JSON_stringify nt (JArray items)
  = 91%N :: join (js ",") (List.map (JSON_stringify nt) items) ++ [93%N].
Proof. reflexivity. Qed.

Lemma stringify_object (nt : jsstring -> jsstring)
      (props : list (jsstring * value)) :
  JSON_stringify nt (JObject props)
  = 123%N
      :: join (js ",") (List.map (member_text (JSON_stringify nt)) props)
      ++ [125%N].
Proof. reflexivity. Qed.

Lemma plain_array_inv (items : list value) :
  plain (JArray items) -> Forall plain items.
Proof. now inversion 1. Qed.

Lemma plain_object_inv (props : list (jsstring * value)) :
  plain (JObject props) ->
  NoDup (List.map fst props) /\ Forall (fun kv => plain (snd kv)) props.
Proof. now inversion 1. Qed.

Ltac distinct_names :=
  repeat (constructor;
          [ cbn [In List.map fst];
            intros H;
            repeat (destruct H as [H|H];
                    [vm_compute in H; discriminate|]);
            exact H
          | ]);
  constructor.

Ltac plain_value :=
  repeat first
    [ apply plain_null | apply plain_bool | apply plain_string
    | apply plain_array
    | apply plain_object; [distinct_names|repeat constructor|]
    | apply Forall_nil
    | apply Forall_cons; cbn [snd] ].

(** The text of a plain value parses back to the value, whatever follows. *)
Lemma parse_value_stringify (nt : jsstring -> jsstring) (v : value) :
  plain v -> parses_back (JSON_stringify nt) v.
Proof.
  induction v as [|b|lexeme|s|items IH|props IH] using value_induction;
    intros Hv rest.
  - exists 1. intros [|f] Hf; [lia|]. apply pv_null.
  - exists 1. intros [|f] Hf; [lia|]. destruct b; [apply pv_true|apply pv_false].
  - inversion Hv.
  - exists 1. intros [|f] Hf; [lia|]. apply pv_string.
  - apply plain_array_inv in Hv.
    assert (Hall : Forall (parses_back (JSON_stringify nt)) items).
    { rewrite Forall_forall in *. intros x Hx. apply IH; auto. }
    destruct items as [|x items].
    + exists 1. intros [|f] Hf; [lia|]. apply pv_array_empty.
    + destruct (@elements_parse_back (JSON_stringify nt) (x :: items)
                  ltac:(discriminate) Hall rest) as [f0 Hf0].
      exists (S f0). intros [|f] Hf; [lia|].
      rewrite stringify_array. cbn [app]. rewrite <- app_assoc. cbn [app].
      specialize (Hf0 f ltac:(lia)).
      destruct (@stringify_head nt x (Forall_inv Hv))
        as (c & t & Hc & Hws & H93).
      assert (E : exists t',
                 join (js ",") (List.map (JSON_stringify nt) (x :: items))
                   ++ 93%N :: rest = c :: t').
      { destruct items; cbn [List.map join]; rewrite Hc; eexists;
          reflexivity. }
      destruct E as [t' E]. rewrite E in *.
      rewrite pv_array by assumption. now rewrite Hf0.
  - apply plain_object_inv in Hv. destruct Hv as [Hnd Hv].
    assert (Hall : Forall (fun kv => parses_back (JSON_stringify nt) (snd kv))
                          props).
    { rewrite Forall_forall in *. intros x Hx. apply IH; auto. }
    destruct props as [|[k x] props].
    + exists 1. intros [|f] Hf; [lia|]. apply pv_object_empty.
    + destruct (@members_parse_back (JSON_stringify nt) ((k, x) :: props)
                  ltac:(discriminate) Hall rest) as [f0 Hf0].
      exists (S f0). intros [|f] Hf; [lia|].
      rewrite stringify_object. cbn [app]. rewrite <- app_assoc. cbn [app].
      specialize (Hf0 f ltac:(lia)).
      assert (E : exists t',
                 join (js ",")
                      (List.map (member_text (JSON_stringify nt))
                                ((k, x) :: props))
                   ++ 125%N :: rest = 34%N :: t').
      { destruct props; cbn [List.map join member_text QuoteJSONString app];
          eexists; reflexivity. }
      destruct E as [t' E]. rewrite E in *.
      rewrite pv_object, Hf0. now rewrite make_object_distinct by exact Hnd.
Qed.

Lemma parse_stringify (nt : jsstring -> jsstring) (v : value) :
  plain v -> JSON.parse (JSON_stringify nt v) = inr v.
Proof.
  intros Hv. destruct (parse_value_stringify nt Hv []) as [f0 Hf0].
  apply parse_with_any_fuel with (fuel := f0).
  rewrite <- (app_nil_r (JSON_stringify nt v)). now apply Hf0.
Qed.

(** Round trip: what [JSON.stringify] writes of a value, [JSON.parse] reads
    back as that value, for every value built of null, booleans, strings of
    any code units, arrays, and objects with no repeated name and no name
    that starts with a digit.  This is what carries the page's text to the
    endpoint and the endpoint's answer back to the page. *)
Theorem written_values_are_read_back :
  forall nt v, plain v -> JSON.parse (JSON_stringify nt v) = inr v.
Proof. exact parse_stringify. Qed.

Lemma written_values_are_read_back_witness :
  JSON.parse (JSON_stringify (fun lexeme => lexeme) Cases.awkward_value)
  = inr Cases.awkward_value.
Proof.
  apply (@written_values_are_read_back (fun lexeme => lexeme)
                                       Cases.awkward_value).
  unfold Cases.awkward_value. plain_value.
Defined.

(* ================================================================== *)
(** * The page and the endpoint together *)

Lemma plain_request (payload : jsstring) :
  plain (JObject [(js "text", JString payload)]).
Proof.
  apply plain_object.
  - cbn. constructor; [intros []|constructor].
  - repeat constructor.
  - repeat constructor.
Qed.

Lemma payload_of_bounded_text (st : Page.state) :
  List.length (Page.text st) <= 1000 ->
  Page.payload st = trim (Page.text st)
  /\ trim_slice (Page.payload st) = Page.payload st.
Proof.
  intros Hl.
  assert (Hp : Page.payload st = trim (Page.text st)).
  { apply firstn_all2. pose proof (trim_length (Page.text st)).
    unfold QuizPage.MAX_LEN. lia. }
  split; [exact Hp|]. rewrite Hp. unfold trim_slice, slice0.
  rewrite trim_idem. apply firstn_all2.
  pose proof (trim_length (Page.text st)). lia.
Qed.

(** What the page sends, the endpoint accepts as it is: in every state the
    page can reach, the body Generate sends passes the endpoint's validation,
    and the text the endpoint goes on with is the page's payload, the trimmed
    text, character for character. *)
Theorem endpoint_reads_what_the_page_sends :
  forall eng evs nt body,
    snd (Page.start (Page.run eng evs)) = Some body ->
    body = JObject [(js "text", JString (trim (Page.text (Page.run eng evs))))]
    /\ read_text (JSON_stringify nt body)
       = Next (trim (Page.text (Page.run eng evs))).
Proof.
  intros eng evs nt body H.
  destruct (run_keeps_bounds eng evs) as [Hl _].
  destruct (payload_of_bounded_text _ Hl) as [Hp Hs].
  unfold Page.start in H.
  destruct (Page.payload (Page.run eng evs)) as [|c p] eqn:E;
    cbn in H; [discriminate|].
  injection H as <-. rewrite <- Hp. split; [reflexivity|].
  rewrite <- Hs at 2.
  apply read_text_trimmed
    with (v := JObject [(js "text", JString (c :: p))]).
  - apply parse_stringify, plain_request.
  - reflexivity.
  - rewrite Hs. discriminate.
Qed.

Lemma endpoint_reads_what_the_page_sends_witness :
  JObject [(js "text", JString (js "Hello"))]
  = JObject [(js "text",
              JString (trim (Page.text
                               (Page.run Cases.engine
                                         [Page.Change (js " Hello ")]))))]
  /\ read_text (JSON_stringify (fun lexeme => lexeme)
                               (JObject [(js "text", JString (js "Hello"))]))
     = Next (trim (Page.text (Page.run Cases.engine
                                       [Page.Change (js " Hello ")]))).
Proof.
  apply (@endpoint_reads_what_the_page_sends
           Cases.engine [Page.Change (js " Hello ")] (fun lexeme => lexeme)
           (JObject [(js "text", JString (js "Hello"))])).
  vm_compute. reflexivity.
Defined.

Lemma plain_qa_json (qa : QA) : plain (qa_json qa).
Proof.
  apply plain_object.
  - cbn. constructor.
    + intros [H|[]]. vm_compute in H. discriminate.
    + constructor; [intros []|constructor].
  - repeat constructor.
  - repeat constructor.
Qed.

Lemma plain_quizzes (wording : exn -> jsstring) (qs : list QA) :
  plain (payload_json wording (Quizzes qs)).
Proof.
  apply plain_object.
  - cbn. constructor; [intros []|constructor].
  - repeat constructor.
  - constructor; [|constructor]. cbn [snd]. apply plain_array.
    apply Forall_forall. intros x Hx. apply in_map_iff in Hx.
    destruct Hx as (qa & <- & _). apply plain_qa_json.
Qed.

Lemma list_of_quizzes (l : list value) :
  Page.list_of (JObject [(js "quizzes", JArray l)]) = l.
Proof. reflexivity. Qed.

(** When the endpoint answers with a success, the page ends up showing
    exactly the endpoint's quizzes, in their order, each as an object with
    its question and answer, with no error and loading cleared. *)
Theorem page_shows_the_quizzes :
  forall eng w wording st body qs,
    snd (Page.handleGenerate eng (endpoint w wording) st) = Some body ->
    payload_of (snd (POST w (JSON_stringify (number_to_string w) body)))
    = Quizzes qs ->
    fst (Page.handleGenerate eng (endpoint w wording) st)
    = Page.mkState (Page.text st) (List.map qa_json qs) false None.
Proof.
  intros eng w wording st body qs H Hq.
  destruct (handleGenerate_sent _ _ _ H) as (_ & _ & ->).
  destruct (@success_length w (JSON_stringify (number_to_string w) body))
    as (qs' & Hr & Hl); [right; now exists qs|].
  rewrite Hr in Hq. injection Hq as ->.
  assert (Hl' : List.length qs <= 5) by lia. clear Hl.
  rename Hl' into Hl.
  unfold endpoint. rewrite Hr. cbn [payload_of success Response.json].
  rewrite (parse_stringify _ (plain_quizzes wording qs)).
  unfold Page.finish. cbn [Page.res_json Page.res_ok payload_json].
  change (status_ok (mkResponse (Quizzes qs) 200)) with true.
  cbn [negb Page.text Page.error]. rewrite list_of_quizzes.
  rewrite firstn_all2 by (rewrite length_map; exact Hl). reflexivity.
Qed.

Lemma page_shows_the_quizzes_witness :
  fst (Page.handleGenerate
         Cases.engine
         (endpoint (Scenario.provider_says Scenario.five_quizzes)
                   (fun _ => js "error"))
         (Cases.page (js "  Hello, world.  ")))
  = Page.mkState (js "  Hello, world.  ")
      (List.map qa_json
         [ Scenario.qa "Q1" "A1"; Scenario.qa "Q2" "A2";
           Scenario.qa "Q3" "A3"; Scenario.qa "Q4" "A4";
           Scenario.qa "Q5" "A5" ])
      false None.
Proof.
  apply (@page_shows_the_quizzes
           Cases.engine (Scenario.provider_says Scenario.five_quizzes)
           (fun _ => js "error") (Cases.page (js "  Hello, world.  "))
           (JObject [(js "text", JString (js "Hello, world."))])).
  - vm_compute. reflexivity.
  - vm_compute. reflexivity.
Defined.

Lemma plain_error (wording : exn -> jsstring) (msg : jsstring)
      (details : option details_text) (raw : option value) :
  (forall v, raw = Some v -> plain v) ->
  plain (payload_json wording (Error msg details raw)).
Proof.
  intros Hraw. apply plain_object.
  - destruct details as [[s|e]|], raw as [v|]; cbn [payload_json app];
      distinct_names.
  - destruct details as [[s|e]|], raw as [v|]; repeat constructor.
  - constructor; [constructor|].
    apply Forall_app. split.
    + destruct details as [[s|e]|]; repeat constructor.
    + destruct raw as [v|]; [|constructor].
      constructor; [|constructor]. cbn [snd]. now apply Hraw.
Qed.

Lemma error_field (msg : jsstring) (rest : list (jsstring * value)) :
  prop (js "error") (JObject ((js "error", JString msg) :: rest))
  = Some (JString msg).
Proof.
  cbn [prop lookup].
  now rewrite (proj2 (jsstring_eqb_eq (js "error") (js "error")) eq_refl).
Qed.

(** When the endpoint answers with an error, the page ends up showing the
    endpoint's error message, no quizzes, and loading cleared; the raw
    content attached to the error, if any, is taken to be free of numbers
    and repeated names, as a string is. *)
Theorem page_shows_the_error :
  forall eng w wording st body,
    snd (Page.handleGenerate eng (endpoint w wording) st) = Some body ->
    status (snd (POST w (JSON_stringify (number_to_string w) body)))
    <> 200%N ->
    (forall msg details v,
        payload_of (snd (POST w (JSON_stringify (number_to_string w) body)))
        = Error msg details (Some v) ->
        plain v) ->
    fst (Page.handleGenerate eng (endpoint w wording) st)
    = Page.mkState
        (Page.text st) [] false
        (Some (error_of
                 (snd (POST w (JSON_stringify (number_to_string w) body))))).
Proof.
  intros eng w wording st body H Hs Hraw.
  destruct (handleGenerate_sent _ _ _ H) as (_ & _ & ->).
  unfold endpoint.
  set (r := snd (POST w (JSON_stringify (number_to_string w) body))) in *.
  assert (Hk : (status r = 400%N \/ status r = 500%N)
               /\ error_of r <> []
               /\ forall qs, payload_of r <> Quizzes qs).
  { pose proof (POST_kinds w (JSON_stringify (number_to_string w) body))
      as K.
    fold r in K.
    destruct K as [(H4 & _ & Hr)|[(H5 & He & Hq)|(H2 & _)]].
    - split; [now left|].
      destruct error_messages_not_empty as (E1 & E2 & _).
      destruct Hr as [-> | ->]; split; auto; discriminate.
    - split; [now right|]. now split.
    - contradiction. }
  destruct Hk as (Hst & Hne & Hq).
  assert (Hok : status_ok r = false).
  { unfold status_ok. destruct Hst as [-> | ->]; reflexivity. }
  unfold error_of in *.
  destruct (payload_of r) as [qs|msg details raw] eqn:Hp;
    [now destruct (Hq qs)|].
  rewrite (parse_stringify _ (@plain_error wording msg details raw
                                ltac:(intros v ->; eapply Hraw; eauto))).
  unfold Page.finish. cbn [Page.res_json Page.res_ok]. rewrite Hok.
  cbn [negb Page.text Page.quizzes]. unfold Page.thrown_message.
  cbn [payload_json opt_chain]. rewrite error_field.
  cbn [Page.truthy]. destruct msg as [|c m]; [now destruct Hne|].
  reflexivity.
Qed.

Lemma page_shows_the_error_witness :
  fst (Page.handleGenerate
         Cases.engine
         (endpoint (Scenario.provider_says Scenario.no_brackets)
                   (fun _ => js "error"))
         (Cases.page (js "  Hello, world.  ")))
  = Page.mkState
      (js "  Hello, world.  ") [] false
      (Some (error_of
               (snd (POST (Scenario.provider_says Scenario.no_brackets)
                          (JSON_stringify
                             (number_to_string
                                (Scenario.provider_says Scenario.no_brackets))
                             (JObject [(js "text",
                                        JString (js "Hello, world."))])))))).
Proof.
  apply (@page_shows_the_error
           Cases.engine (Scenario.provider_says Scenario.no_brackets)
           (fun _ => js "error") (Cases.page (js "  Hello, world.  "))
           (JObject [(js "text", JString (js "Hello, world."))])).
  - vm_compute. reflexivity.
  - vm_compute. discriminate.
  - intros msg details v Hp. vm_compute in Hp.
    injection Hp as _ _ <-. constructor.
Defined.
